(** * pygios: the GIOS air-quality client, its refresh cycle

    A shallow embedding of [custom_components/gios/pygios/__init__.py]:
    the decoded JSON documents, the Python operations the module applies
    to them (truthiness, subscripts, iteration, [==], [str.lower],
    [str.replace], [str.format]), the insertion-ordered dictionaries held
    in [self._data], and the coroutine [Gios.update] with its helpers,
    written in a small monad that threads the object's fields, the
    requests sent to the transport and Python's three ways of leaving a
    block (falling through, [return], [raise]). *)

From Stdlib Require Import List String Ascii ZArith QArith Bool Arith Lia.
From Stdlib Require Import DecimalString.
Import ListNotations.
Set Warnings "-register-all".
Local Open Scope string_scope.
Local Open Scope list_scope.

(** ** Decoded JSON values *)

(** What [resp.json()] hands back.  A number is an [int] or a [float];
    a float is the rational it denotes (JSON has no NaN and no infinity).
    A string is a sequence of code points below 256.  An object keeps its
    members in document order, the first binding of a key being the one
    a lookup sees.  Python's [None] is [JNull]. *)
Inductive json : Type :=
| JNull
| JBool (b : bool)
| JInt (z : Z)
| JFloat (q : Q)
| JStr (s : string)
| JArr (l : list json)
| JObj (m : list (string * json)).

(** ** Exceptions *)

(** The exception classes that occur in the module: its own [ApiError] and
    [NoStationError] (both derive from [Exception] directly), the
    built-in ones raised by the operations on decoded documents, and
    [json.JSONDecodeError], a subclass of [ValueError], which [resp.json()]
    raises on a body that is not JSON.  [aiohttp.ClientError] never leaves
    [_async_get] and is part of [reply] below.  The [status] of an
    [ApiError] is the text of the response; that of a [NoStationError] is
    the message of lines 55-57, [None] where the text of the message is
    not modelled (see [str] below). *)
Inductive exn : Type :=
| ApiError (status : string)
| NoStationError (status : option string)
| KeyError
| IndexError
| TypeError
| ValueError
| JSONDecodeError
| AttributeError.

(** How a block of statements ends: it falls through with a value, it
    executes [return] (always a bare [return] in [update]), or it raises. *)
Inductive completion (A : Type) : Type :=
| Normal (a : A)
| Return
| Raise (e : exn).
Arguments Normal {A} a.
Arguments Return {A}.
Arguments Raise {A} e.

(** The value of an expression, or the exception its evaluation raises. *)
Inductive result (A : Type) : Type :=
| Ok (a : A)
| Throws (e : exn).
Arguments Ok {A} a.
Arguments Throws {A} e.

(** ** Insertion-ordered dictionaries *)

Section Dict.
Context {K V : Type}.
Variable K_eq_dec : forall a b : K, {a = b} + {a <> b}.

(** [d[k]], [None] standing for the missing key. *)
Fixpoint dict_get (d : list (K * V)) (k : K) : option V :=
  match d with
  | [] => None
  | (k', v) :: d' => if K_eq_dec k k' then Some v else dict_get d' k
  end.

(** [d[k] = v]: an existing key keeps its place, a new key goes last. *)
Fixpoint dict_set (d : list (K * V)) (k : K) (v : V) : list (K * V) :=
  match d with
  | [] => [(k, v)]
  | (k', v') :: d' =>
      if K_eq_dec k k' then (k', v) :: d' else (k', v') :: dict_set d' k v
  end.

Definition keys (d : list (K * V)) : list K := map fst d.
End Dict.

(** ** Python operations on decoded values *)

(** [bool(x)]. *)
Definition truthy (x : json) : bool :=
  match x with
  | JNull => false
  | JBool b => b
  | JInt z => negb (z =? 0)%Z
  | JFloat q => negb (Qnum q =? 0)%Z
  | JStr s => negb (s =? "")
  | JArr l => match l with [] => false | _ => true end
  | JObj m => match m with [] => false | _ => true end
  end.

(** A hashable value up to [==] and [hash]: [True], [1] and [1.0] are one
    dictionary key.  A number is kept as its reduced fraction. *)
Inductive hkey : Type :=
| HNone
| HNum (n : Z) (d : positive)
| HStr (s : string).

Definition hkey_eq_dec (a b : hkey) : {a = b} + {a <> b}.
Proof.
  decide equality;
    [apply Pos.eq_dec | apply Z.eq_dec | apply string_dec].
Defined.

(** [hash(x)] succeeds on scalars; lists and dicts are unhashable. *)
Definition hash_key (x : json) : option hkey :=
  match x with
  | JNull => Some HNone
  | JBool b => Some (HNum (if b then 1 else 0) 1)
  | JInt z => Some (HNum z 1)
  | JFloat q => let r := Qred q in Some (HNum (Qnum r) (Qden r))
  | JStr s => Some (HStr s)
  | JArr _ | JObj _ => None
  end.

(** [a == b] on decoded values: numbers (and booleans) compare by value,
    strings and [None] by content, lists element-wise, dicts key by key. *)
Fixpoint py_eq (a b : json) {struct a} : bool :=
  match a, b with
  | JArr la, JArr lb =>
      (fix go (la lb : list json) : bool :=
         match la, lb with
         | [], [] => true
         | x :: xs, y :: ys => py_eq x y && go xs ys
         | _, _ => false
         end) la lb
  | JObj ma, JObj mb =>
      (List.length ma =? List.length mb)%nat &&
      (fix go (ma : list (string * json)) : bool :=
         match ma with
         | [] => true
         | (k, v) :: r =>
             match dict_get string_dec mb k with
             | Some w => py_eq v w
             | None => false
             end && go r
         end) ma
  | JArr _, _ | JObj _, _ | _, JArr _ | _, JObj _ => false
  | _, _ =>
      match hash_key a, hash_key b with
      | Some x, Some y => if hkey_eq_dec x y then true else false
      | _, _ => false
      end
  end.

(** [x[k]] with a string subscript. *)
Definition getitem (x : json) (k : string) : result json :=
  match x with
  | JObj m =>
      match dict_get string_dec m k with
      | Some v => Ok v
      | None => Throws KeyError
      end
  | _ => Throws TypeError
  end.

(** [x[i]] with a literal index [0] or [1]. *)
Definition getindex (x : json) (i : nat) : result json :=
  match x with
  | JArr l =>
      match nth_error l i with
      | Some v => Ok v
      | None => Throws IndexError
      end
  | JStr s =>
      match String.get i s with
      | Some c => Ok (JStr (String c ""))
      | None => Throws IndexError
      end
  | JObj _ => Throws KeyError
  | _ => Throws TypeError
  end.

(** The items a [for] loop visits. *)
Definition iter (x : json) : result (list json) :=
  match x with
  | JArr l => Ok l
  | JObj m => Ok (map (fun kv => JStr (fst kv)) m)
  | JStr s => Ok (map (fun c => JStr (String c "")) (list_ascii_of_string s))
  | _ => Throws TypeError
  end.

(** *** Strings *)

Definition lower_char (c : ascii) : ascii :=
  let n := nat_of_ascii c in
  if ((65 <=? n) && (n <=? 90)
      || (192 <=? n) && (n <=? 222) && negb (n =? 215))%nat
  then ascii_of_nat (n + 32) else c.

(** [s.lower()]. *)
Fixpoint lower (s : string) : string :=
  match s with
  | EmptyString => EmptyString
  | String c s' => String (lower_char c) (lower s')
  end.

(** [s.replace(old, new)] for a non-empty [old]; [skip] counts the
    characters of a matched occurrence still to be dropped. *)
Fixpoint replace_from (old new : string) (skip : nat) (s : string) : string :=
  match s with
  | EmptyString => EmptyString
  | String c s' =>
      match skip with
      | S n => replace_from old new n s'
      | O =>
          if prefix old s
          then (new ++ replace_from old new (String.length old - 1) s')%string
          else String c (replace_from old new 0 s')
      end
  end.

Definition replace (s old new : string) : string := replace_from old new 0 s.

(** [template.format(arg)] for a template whose only braces are
    replacement fields. *)
Definition format (template arg : string) : string := replace template "{}" arg.

(** [x.lower()] on a decoded value: only [str] has the method. *)
(** [str(x)], as an f-string formats [x], for the values a station id is
    configured with: [None], a boolean, an integer (the interpreter's limit
    on the digits of a converted integer aside) or a string.  The text of
    a float, a list or a dict is not modelled. *)
Definition str (x : json) : option string :=
  match x with
  | JNull => Some "None"
  | JBool true => Some "True"
  | JBool false => Some "False"
  | JInt z => Some (NilZero.string_of_int (Z.to_int z))
  | JStr s => Some s
  | _ => None
  end.

Definition lower_method (x : json) : result string :=
  match x with
  | JStr s => Ok (lower s)
  | _ => Throws AttributeError
  end.

(** ** Constants of the module *)

Definition ATTR_AQI := "AQI".
Definition ATTR_ID := "id".
Definition ATTR_INDEX := "index".
Definition ATTR_INDEX_LEVEL := "{}IndexLevel".
Definition ATTR_NAME := "name".
Definition ATTR_VALUE := "value".
Definition HTTP_OK : Z := 200.

(** The four URL templates, each applied to its [format] argument; the
    text [str] makes of the argument is left symbolic. *)
Inductive url : Type :=
| URL_STATIONS
| URL_STATION (arg : json)
| URL_SENSOR (arg : json)
| URL_INDEXES (arg : json).

(** What [session.get(url)] yields: [aiohttp.ClientError] raised while
    connecting or reading (or by [resp.json()] on a content type that is
    not JSON: [ContentTypeError] is a [ClientError]); a response with its
    status, its text and its decoded body (never decoded when the status
    is not 200); or a response with status 200 and a text that does not
    decode, on which [resp.json()] raises [JSONDecodeError].  An exception
    of yet another class raised by the transport (a timeout, say) is
    outside the module's handlers and is not modelled. *)
Inductive reply : Type :=
| ClientError
| Response (status : Z) (text : string) (body : json)
| Undecodable (text : string).

(** ** The object *)

(** The value stored under a pollutant code: a dict with string keys. *)
Definition record : Type := list (string * json).
(** [self._data]. *)
Definition reading : Type := list (hkey * record).

(** The fields [update] reads and assigns.  [_available] only caches what
    [available] returns; [session] is the variable of the section below. *)
Record Gios : Type := mkGios {
  _data : reading;
  station_id : json;
  latitude : json;
  longitude : json;
  station_name : json
}.

(** [Gios.__init__]. *)
Definition __init__ (id : json) : Gios :=
  {| _data := []; station_id := id;
     latitude := JNull; longitude := JNull; station_name := JNull |}.

Definition set_data (d : reading) (s : Gios) : Gios :=
  {| _data := d; station_id := station_id s; latitude := latitude s;
     longitude := longitude s; station_name := station_name s |}.
Definition set_latitude (v : json) (s : Gios) : Gios :=
  {| _data := _data s; station_id := station_id s; latitude := v;
     longitude := longitude s; station_name := station_name s |}.
Definition set_longitude (v : json) (s : Gios) : Gios :=
  {| _data := _data s; station_id := station_id s; latitude := latitude s;
     longitude := v; station_name := station_name s |}.
Definition set_station_name (v : json) (s : Gios) : Gios :=
  {| _data := _data s; station_id := station_id s; latitude := latitude s;
     longitude := longitude s; station_name := v |}.

(** ** The monad of method bodies *)

(** A body runs from the object's fields to a completion, the fields it
    leaves behind and the requests it sent, oldest first. *)
Definition M (A : Type) : Type := Gios -> completion A * Gios * list url.

Definition ret {A} (a : A) : M A := fun s => (Normal a, s, []).
Definition bind {A B} (m : M A) (f : A -> M B) : M B :=
  fun s =>
    match m s with
    | (Normal a, s1, l1) =>
        match f a s1 with (c, s2, l2) => (c, s2, l1 ++ l2) end
    | (Return, s1, l1) => (Return, s1, l1)
    | (Raise e, s1, l1) => (Raise e, s1, l1)
    end.

Declare Scope gios_scope.
Delimit Scope gios_scope with gios.
Notation "x <- m ;; k" := (bind m (fun x => k))
  (at level 61, m at next level, right associativity) : gios_scope.
Notation "m ;; k" := (bind m (fun _ => k))
  (at level 61, right associativity) : gios_scope.
Local Open Scope gios_scope.

Definition pass : M unit := ret tt.
Definition return_ {A} : M A := fun s => (Return, s, []).
Definition raise {A} (e : exn) : M A := fun s => (Raise e, s, []).
(** The value of an expression that may raise. *)
Definition eval {A} (r : result A) : M A :=
  fun s => (match r with Ok a => Normal a | Throws e => Raise e end, s, []).
Definition get {A} (field : Gios -> A) : M A := fun s => (Normal (field s), s, []).
Definition modify (f : Gios -> Gios) : M unit := fun s => (Normal tt, f s, []).
Definition request (u : url) : M unit := fun s => (Normal tt, s, [u]).

(** [try: body  except (classes): handler]. *)
Definition try_except {A} (body : M A) (classes : exn -> bool) (handler : M A) : M A :=
  fun s =>
    match body s with
    | (Raise e, s1, l1) =>
        if classes e
        then match handler s1 with (c, s2, l2) => (c, s2, l1 ++ l2) end
        else (Raise e, s1, l1)
    | r => r
    end.

(** How a call of [update] ends for its caller. *)
Inductive outcome : Type :=
| Returned
| Raised (e : exn).

Definition call (body : M unit) (s : Gios) : outcome * Gios * list url :=
  match body s with
  | (Normal _, s1, l) | (Return, s1, l) => (Returned, s1, l)
  | (Raise e, s1, l) => (Raised e, s1, l)
  end.

(** [d[k]] on a dictionary of the object: a missing key is a [KeyError]. *)
Definition subscript {K V : Type} (K_eq_dec : forall a b : K, {a = b} + {a <> b})
    (d : list (K * V)) (k : K) : result V :=
  match dict_get K_eq_dec d k with
  | Some v => Ok v
  | None => Throws KeyError
  end.

(** Using a decoded value as a key of [self._data]. *)
Definition hash (x : json) : result hkey :=
  match hash_key x with
  | Some k => Ok k
  | None => Throws TypeError
  end.

(** [sensor != ATTR_AQI], negated. *)
Definition is_aqi (sensor : hkey) : bool :=
  if hkey_eq_dec sensor (HStr ATTR_AQI) then true else false.

(** [sensor.lower()] on a key of [self._data]. *)
Definition key_lower (sensor : hkey) : result string :=
  match sensor with
  | HStr s => Ok (lower s)
  | _ => Throws AttributeError
  end.

(** [self._data[sensor][field] = v]: the record stored under [sensor] is
    updated where it stands. *)
Definition store (sensor : hkey) (field : string) (v : json) : M unit :=
  d <- get _data ;;
  entry <- eval (subscript hkey_eq_dec d sensor) ;;
  modify (set_data (dict_set hkey_eq_dec d sensor (dict_set string_dec entry field v))).

(** ** The client *)

Section Cycle.
(** The answers of the injected [session] during one cycle: a URL asked
    for twice in the cycle is answered twice the same. *)
Variable session : url -> reply.

(** [Gios._async_get]: [ApiError] is not a [ClientError], so the
    [except] clause lets it through. *)
Definition _async_get (u : url) : M json :=
  request u ;;
  match session u with
  | ClientError => ret JNull
  | Response status text body =>
      if (status =? HTTP_OK)%Z then ret body else raise (ApiError text)
  | Undecodable text => raise JSONDecodeError
  end.

Definition _get_stations : M json := _async_get URL_STATIONS.

Definition _get_station : M json :=
  id <- get station_id ;; _async_get (URL_STATION id).

Definition _get_sensor (sensor : hkey) : M json :=
  d <- get _data ;;
  entry <- eval (subscript hkey_eq_dec d sensor) ;;
  id <- eval (subscript string_dec entry ATTR_ID) ;;
  _async_get (URL_SENSOR id).

Definition _get_indexes : M json :=
  id <- get station_id ;; _async_get (URL_INDEXES id).

(** Lines 46-50: every station with the configured id overwrites the
    cached coordinates and name. *)
Fixpoint for_stations (stations : list json) : M unit :=
  match stations with
  | [] => pass
  | station :: rest =>
      id <- eval (getitem station ATTR_ID) ;;
      sid <- get station_id ;;
      (if py_eq id sid then
         lat <- eval (getitem station "gegrLat") ;;
         modify (set_latitude lat) ;;
         lon <- eval (getitem station "gegrLon") ;;
         modify (set_longitude lon) ;;
         name <- eval (getitem station "stationName") ;;
         modify (set_station_name name)
       else pass) ;;
      for_stations rest
  end.

(** Lines 64-68: the dict display on the right is evaluated before the
    subscript of the target. *)
Fixpoint for_sensors (station_data : list json) : M unit :=
  match station_data with
  | [] => pass
  | sensor :: rest =>
      id <- eval (getitem sensor ATTR_ID) ;;
      param <- eval (getitem sensor "param") ;;
      name <- eval (getitem param "paramName") ;;
      param' <- eval (getitem sensor "param") ;;
      code <- eval (getitem param' "paramCode") ;;
      key <- eval (hash code) ;;
      d <- get _data ;;
      modify (set_data (dict_set hkey_eq_dec d key [(ATTR_ID, id); (ATTR_NAME, name)])) ;;
      for_sensors rest
  end.

Definition caught_84 (e : exn) : bool :=
  match e with
  | ValueError | JSONDecodeError | IndexError | TypeError => true
  | _ => false
  end.

(** Lines 73-87: the [try] statement that picks the latest value. *)
Definition store_latest (sensor : hkey) (sensor_data : json) : M unit :=
  try_except
    (values <- eval (getitem sensor_data "values") ;;
     first <- eval (getindex values 0) ;;
     v0 <- eval (getitem first ATTR_VALUE) ;;
     if truthy v0 then store sensor ATTR_VALUE v0
     else
       second <- eval (getindex values 1) ;;
       v1 <- eval (getitem second ATTR_VALUE) ;;
       if truthy v1 then store sensor ATTR_VALUE v1
       else raise ValueError)
    caught_84
    (modify (set_data []) ;; return_).

(** Lines 70-87. *)
Fixpoint for_values (sensors : list hkey) : M unit :=
  match sensors with
  | [] => pass
  | sensor :: rest =>
      (if is_aqi sensor then pass
       else
         sensor_data <- _get_sensor sensor ;;
         store_latest sensor sensor_data) ;;
      for_values rest
  end.

(** Lines 93-95: the key of a pollutant in the index document. *)
Definition index_level (sensor : hkey) : result string :=
  match key_lower sensor with
  | Ok low => Ok (format ATTR_INDEX_LEVEL (replace low "." ""))
  | Throws e => Throws e
  end.

(** Lines 91-98. *)
Fixpoint for_indexes (indexes : json) (sensors : list hkey) : M unit :=
  match sensors with
  | [] => pass
  | sensor :: rest =>
      (if is_aqi sensor then pass
       else
         key <- eval (index_level sensor) ;;
         level <- eval (getitem indexes key) ;;
         name <- eval (getitem level "indexLevelName") ;;
         index <- eval (lower_method name) ;;
         store sensor ATTR_INDEX (JStr index)) ;;
      for_indexes indexes rest
  end.

Definition caught_104 (e : exn) : bool :=
  match e with
  | IndexError | TypeError => true
  | _ => false
  end.

(** The message of lines 55-57:
    [f"{self.station_id} is not a valid measuring station ID."]. *)
Definition no_station_message (id : json) : option string :=
  match str id with
  | Some t => Some (t ++ " is not a valid measuring station ID.")%string
  | None => None
  end.

(** Lines 40-57: the station is looked up while no name is cached. *)
Definition resolve : M unit :=
  name <- get station_name ;;
  if negb (truthy name) then
    stations <- _get_stations ;;
    (if negb (truthy stations) then return_ else pass) ;;
    items <- eval (iter stations) ;;
    for_stations items ;;
    name <- get station_name ;;
    if negb (truthy name)
    then sid <- get station_id ;; raise (NoStationError (no_station_message sid))
    else pass
  else pass.

(** Lines 59-107: the reading is assembled in [self._data] itself. *)
Definition assemble : M unit :=
  station_data <- _get_station ;;
  (if negb (truthy station_data)
   then modify (set_data []) ;; return_ else pass) ;;
  items <- eval (iter station_data) ;;
  for_sensors items ;;
  d <- get _data ;;
  for_values (keys d) ;;
  indexes <- _get_indexes ;;
  try_except
    (d <- get _data ;;
     for_indexes indexes (keys d) ;;
     d <- get _data ;;
     modify (set_data (dict_set hkey_eq_dec d (HStr ATTR_AQI)
                         [(ATTR_NAME, JStr ATTR_AQI)])) ;;
     level <- eval (getitem indexes "stIndexLevel") ;;
     name <- eval (getitem level "indexLevelName") ;;
     value <- eval (lower_method name) ;;
     store (HStr ATTR_AQI) ATTR_VALUE (JStr value))
    caught_104
    (modify (set_data []) ;; return_).

(** The body of [Gios.update]. *)
Definition update_body : M unit := resolve ;; assemble.

(** [await gios.update()] as its caller sees it. *)
Definition update (self : Gios) : outcome * Gios * list url :=
  call update_body self.
End Cycle.

(** [Gios.data]. *)
Definition data (self : Gios) : reading := _data self.

(** [Gios.available]. *)
Definition available (self : Gios) : bool :=
  (0 <? List.length (_data self))%nat.

Definition result_of (r : outcome * Gios * list url) : outcome := fst (fst r).
Definition state_of (r : outcome * Gios * list url) : Gios := snd (fst r).
Definition requests_of (r : outcome * Gios * list url) : list url := snd r.

(** The objects a caller can hold: a new one, or one on which [update]
    has been awaited, against any upstream. *)
Inductive reachable (id : json) : Gios -> Prop :=
| reach_init : reachable id (__init__ id)
| reach_update (session : url -> reply) (self : Gios) :
    reachable id self -> reachable id (state_of (update session self)).

(** Successive cycles, each against the upstream of its time: the object
    they leave and all the requests they sent. *)
Fixpoint updates (sessions : list (url -> reply)) (self : Gios) : Gios * list url :=
  match sessions with
  | [] => (self, [])
  | session :: rest =>
      let r := update session self in
      let (s', l) := updates rest (state_of r) in
      (s', requests_of r ++ l)
  end.

(** A body that assigns no field but [_data] and never asks for the
    directory of stations. *)
Definition keeps_station {A : Type} (m : M A) : Prop :=
  forall s, match m s with
            | (_, s', l) => s' = set_data (_data s') s /\ ~ In URL_STATIONS l
            end.

(** Sequencing of expressions that may raise. *)
Definition and_then {A B : Type} (c : result A) (f : A -> result B) : result B :=
  match c with
  | Ok a => f a
  | Throws e => Throws e
  end.

(** The value lines 74-83 settle on, or the exception they end with. *)
Definition pick (sensor_data : json) : result json :=
  and_then (getitem sensor_data "values") (fun values =>
  and_then (getindex values 0) (fun first =>
  and_then (getitem first ATTR_VALUE) (fun v0 =>
  if truthy v0 then Ok v0
  else
    and_then (getindex values 1) (fun second =>
    and_then (getitem second ATTR_VALUE) (fun v1 =>
    if truthy v1 then Ok v1 else Throws ValueError))))).

(** ** The loops of the cycle in closed form *)

(** The definitions of this part describe what the loops above compute.
    Each is proved equal to the loop it describes ([for_sensors_run],
    [for_values_steps], [for_indexes_steps], [finish_effect],
    [assemble_effect], [resolve_effect]); no statement about the cycle
    rests on them otherwise. *)

(** What one pass of a loop over the keys of [self._data] does to the
    record of its key: nothing, store a value in a field, clear the whole
    reading and return, or raise. *)
Inductive step : Type :=
| Skip
| Store (v : json)
| Clear
| Fail (e : exn).

Definition run_step (field : string) (st : step * list url) (sensor : hkey) : M unit :=
  fun s =>
    match fst st with
    | Skip => (Normal tt, s, snd st)
    | Store v =>
        match store sensor field v s with (c, s', _) => (c, s', snd st) end
    | Clear => (Return, set_data [] s, snd st)
    | Fail e => (Raise e, s, snd st)
    end.

(** A loop whose pass for a key is decided by the key and by the record
    found under it. *)
Fixpoint steps (field : string) (plan : hkey -> option record -> step * list url)
    (sensors : list hkey) : M unit :=
  match sensors with
  | [] => pass
  | sensor :: rest =>
      (fun s => run_step field
                  (plan sensor (dict_get hkey_eq_dec (_data s) sensor)) sensor s) ;;
      steps field plan rest
  end.

Definition picked (r : result json) : step :=
  match r with
  | Ok v => Store v
  | Throws e => if caught_84 e then Clear else Fail e
  end.

(** The pass of lines 71-87 for one key. *)
Definition value_plan (session : url -> reply) (sensor : hkey)
    (entry : option record) : step * list url :=
  if is_aqi sensor then (Skip, [])
  else
    match entry with
    | None => (Fail KeyError, [])
    | Some entry =>
        match dict_get string_dec entry ATTR_ID with
        | None => (Fail KeyError, [])
        | Some id =>
            match session (URL_SENSOR id) with
            | ClientError => (picked (pick JNull), [URL_SENSOR id])
            | Response status text body =>
                if (status =? HTTP_OK)%Z
                then (picked (pick body), [URL_SENSOR id])
                else (Fail (ApiError text), [URL_SENSOR id])
            | Undecodable text => (Fail JSONDecodeError, [URL_SENSOR id])
            end
        end
    end.

(** The lowercased level name lines 93-98 find for a key. *)
Definition index_of (indexes : json) (sensor : hkey) : result string :=
  and_then (index_level sensor) (fun key =>
  and_then (getitem indexes key) (fun level =>
  and_then (getitem level "indexLevelName") (fun name =>
  lower_method name))).

(** The pass of lines 92-98 for one key. *)
Definition index_plan (indexes : json) (sensor : hkey)
    (entry : option record) : step * list url :=
  if is_aqi sensor then (Skip, [])
  else
    match index_of indexes sensor with
    | Ok index => (Store (JStr index), [])
    | Throws e => (Fail e, [])
    end.

(** The key and the record of line 65 for one sensor of the list. *)
Definition sensor_entry (sensor : json) : result (hkey * record) :=
  and_then (getitem sensor ATTR_ID) (fun id =>
  and_then (getitem sensor "param") (fun param =>
  and_then (getitem param "paramName") (fun name =>
  and_then (getitem param "paramCode") (fun code =>
  and_then (hash code) (fun key =>
  Ok (key, [(ATTR_ID, id); (ATTR_NAME, name)])))))).

(** The entries of the sensors before the first malformed one, and the
    exception that one raises. *)
Fixpoint entries (station_data : list json) : list (hkey * record) * option exn :=
  match station_data with
  | [] => ([], None)
  | sensor :: rest =>
      match sensor_entry sensor with
      | Ok kv => let (kvs, e) := entries rest in (kv :: kvs, e)
      | Throws e => ([], Some e)
      end
  end.

Definition insert_all (kvs : list (hkey * record)) (d : reading) : reading :=
  fold_left (fun d kv => dict_set hkey_eq_dec d (fst kv) (snd kv)) kvs d.

(** Lines 70-107, what follows the loop over the sensor list. *)
Definition finish (session : url -> reply) : M unit :=
  d <- get _data ;;
  for_values session (keys d) ;;
  indexes <- _get_indexes session ;;
  try_except
    (d <- get _data ;;
     for_indexes indexes (keys d) ;;
     d <- get _data ;;
     modify (set_data (dict_set hkey_eq_dec d (HStr ATTR_AQI)
                         [(ATTR_NAME, JStr ATTR_AQI)])) ;;
     level <- eval (getitem indexes "stIndexLevel") ;;
     name <- eval (getitem level "indexLevelName") ;;
     value <- eval (lower_method name) ;;
     store (HStr ATTR_AQI) ATTR_VALUE (JStr value))
    caught_104
    (modify (set_data []) ;; return_).

(** A record under [sensor] has [field], with a value satisfying [P]. *)
Definition has_field (field : string) (P : json -> Prop) (d : reading)
    (sensor : hkey) : Prop :=
  exists entry v,
    dict_get hkey_eq_dec d sensor = Some entry
    /\ dict_get string_dec entry field = Some v /\ P v.

(** The completion and the fields a body leaves, its requests aside. *)
Definition effect {A : Type} (m : M A) (s : Gios) : completion A * Gios := fst (m s).

(** The value lines 101-103 compute for the overall index. *)
Definition overall (indexes : json) : result string :=
  and_then (getitem indexes "stIndexLevel") (fun level =>
  and_then (getitem level "indexLevelName") (fun name =>
  lower_method name)).

(** What [_async_get] makes of the answer to a request. *)
Definition fetched (session : url -> reply) (u : url) : result json :=
  match session u with
  | ClientError => Ok JNull
  | Response status text body =>
      if (status =? HTTP_OK)%Z then Ok body else Throws (ApiError text)
  | Undecodable text => Throws JSONDecodeError
  end.

(** The record of the overall index once lines 100-103 are through. *)
Definition aqi_record (value : string) : record :=
  [(ATTR_NAME, JStr ATTR_AQI); (ATTR_VALUE, JStr value)].

(** What holds of every object a caller can hold: the configured id, no
    reading without a cached name, no key twice. *)
Definition consistent (id : json) (s : Gios) : Prop :=
  station_id s = id
  /\ (truthy (station_name s) = false -> _data s = [])
  /\ NoDup (keys (_data s)).

Definition is_truthy (v : json) : Prop := truthy v = true.
Definition is_str (v : json) : Prop := exists i, v = JStr i.

(** The key under which line 65 files a sensor of the list. *)
Definition code_of (sensor : json) (k : hkey) : Prop :=
  exists param code,
    getitem sensor "param" = Ok param
    /\ getitem param "paramCode" = Ok code
    /\ hash_key code = Some k.

(** A loop that passes over the key of the overall index. *)
Definition skips_aqi (plan : hkey -> option record -> step * list url) : Prop :=
  forall k entry, is_aqi k = true -> plan k entry = (Skip, []).

(** The cached description of the station. *)
Definition station_fields (s : Gios) : json * json * json :=
  (latitude s, longitude s, station_name s).

(** A sensor document with a falsy value in its newest slot read as a
    null one. *)
Definition null_if_falsy (body : json) : json :=
  match getitem body "values" with
  | Ok (JArr (first :: rest)) =>
      match getitem first ATTR_VALUE with
      | Ok v0 =>
          if truthy v0 then body
          else JObj [("values", JArr (JObj [(ATTR_VALUE, JNull)] :: rest))]
      | Throws _ => body
      end
  | _ => body
  end.

(** The upstream whose sensor documents are read that way. *)
Definition falsy_as_null (session : url -> reply) (u : url) : reply :=
  match u with
  | URL_SENSOR _ =>
      match session u with
      | ClientError => ClientError
      | Response status text body => Response status text (null_if_falsy body)
      | Undecodable text => Undecodable text
      end
  | _ => session u
  end.

(** ** What a reading looks like *)

(** A string that lowering leaves as it is. *)
Definition is_lower (v : json) : Prop := exists t, v = JStr t /\ lower t = t.

(** A record as lines 65, 75-79, 96 and 100-101 can leave it under the key
    [k]: it has a name; under a pollutant code it has the sensor's id, a
    value, if any, that is truthy, and an index, if any, that is a
    lowercase string; under the key of the overall index a value, if any,
    is a lowercase string. *)
Definition sound_record (k : hkey) (e : record) : Prop :=
  (exists name, dict_get string_dec e ATTR_NAME = Some name)
  /\ (is_aqi k = false -> exists id, dict_get string_dec e ATTR_ID = Some id)
  /\ (forall v, dict_get string_dec e ATTR_VALUE = Some v ->
        if is_aqi k then is_lower v else is_truthy v)
  /\ (forall i, dict_get string_dec e ATTR_INDEX = Some i -> is_lower i).

Definition sound_reading (d : reading) : Prop :=
  forall k e, dict_get hkey_eq_dec d k = Some e -> sound_record k e.

(** ** Requests and exceptions of a body *)

(** The requests a body sends, oldest first. *)
Definition requests {A : Type} (m : M A) (s : Gios) : list url := snd (m s).

(** A body that sends no request. *)
Definition silent {A : Type} (m : M A) : Prop := forall s, requests m s = [].

(** The exceptions of the subscripts and method calls on decoded values,
    and the [ValueError] of line 83. *)
Definition lookup_errors (e : exn) : bool :=
  match e with
  | KeyError | IndexError | TypeError | ValueError | AttributeError => true
  | _ => false
  end.

(** The exceptions that lines 59-107 let through. *)
Definition data_errors (e : exn) : bool :=
  match e with
  | KeyError | TypeError | AttributeError | ApiError _ | JSONDecodeError => true
  | _ => false
  end.

(** The request line 72 sends for a record. *)
Definition sensor_url (k : hkey) (e : option record) : list url :=
  if is_aqi k then []
  else
    match e with
    | Some e =>
        match dict_get string_dec e ATTR_ID with
        | Some id => [URL_SENSOR id]
        | None => []
        end
    | None => []
    end.

(** The requests for the values of the records of a reading, in its order. *)
Definition sensor_urls (d : reading) : list url :=
  flat_map (fun ke => sensor_url (fst ke) (Some (snd ke))) d.

(** A directory entry that line 47 can compare with the configured id and,
    when it matches, lines 48-50 can read. *)
Definition readable_station (id : json) (x : json) : Prop :=
  exists v,
    getitem x ATTR_ID = Ok v
    /\ (py_eq v id = true ->
        exists lat lon name,
          getitem x "gegrLat" = Ok lat
          /\ getitem x "gegrLon" = Ok lon
          /\ getitem x "stationName" = Ok name).

(** A directory entry with an id other than the configured one. *)
Definition other_station (id : json) (x : json) : Prop :=
  exists v, getitem x ATTR_ID = Ok v /\ py_eq v id = false.

(** ** A second cycle beside the first *)

(** Two records, or two absent ones, with the same sensor id. *)
Definition same_id (a b : option record) : Prop :=
  match a, b with
  | Some e, Some e' => dict_get string_dec e ATTR_ID = dict_get string_dec e' ATTR_ID
  | None, None => True
  | _, _ => False
  end.

(** A loop whose pass for a key looks at nothing of the record but its id. *)
Definition by_id (plan : hkey -> option record -> step * list url) : Prop :=
  forall k e e',
    dict_get string_dec e ATTR_ID = dict_get string_dec e' ATTR_ID ->
    plan k (Some e) = plan k (Some e').

(** A record after a pass that stored [v] in [field], or stored nothing. *)
Definition patched (field : string) (p : option json) (e : record) : record :=
  match p with
  | Some v => dict_set string_dec e field v
  | None => e
  end.

(** The object with the fields among latitude, longitude and name that a
    run of lines 46-50 assigned. *)
Definition overridden (lat lon name : option json) (s : Gios) : Gios :=
  {| _data := _data s; station_id := station_id s;
     latitude := match lat with Some v => v | None => latitude s end;
     longitude := match lon with Some v => v | None => longitude s end;
     station_name := match name with Some v => v | None => station_name s end |}.

(** ** The selection rule as the specification words it *)

(** Among the values of the two newest slots: the first if it counts as
    present, otherwise the second if it does, otherwise none. *)
Definition spec_select (present : json -> bool) (vs : list json) : option json :=
  match vs with
  | [] => None
  | v0 :: rest =>
      if present v0 then Some v0
      else match rest with
           | [] => None
           | v1 :: _ => if present v1 then Some v1 else None
           end
  end.

Definition non_null (v : json) : bool :=
  match v with JNull => false | _ => true end.

(** A request that [_async_get] turns into data or into no data: the
    connection failed, or the status was 200 and the body decoded. *)
Definition served (session : url -> reply) (u : url) : Prop :=
  match session u with
  | ClientError => True
  | Response status _ _ => status = HTTP_OK
  | Undecodable _ => False
  end.

(** The exceptions [_async_get] raises on an answer. *)
Definition fetch_error (e : exn) : bool :=
  match e with
  | ApiError _ | JSONDecodeError => true
  | _ => false
  end.

(** A run whose exception, if any, is of an allowed class, and whose
    requests were all served, except that [ApiError] and [JSONDecodeError]
    come with the answer, to the last request, that they report. *)
Definition run_ok {A : Type} (session : url -> reply) (allowed : exn -> bool)
    (c : completion A) (l : list url) : Prop :=
  match c with
  | Raise (ApiError text) =>
      allowed (ApiError text) = true
      /\ exists l' u status body,
           l = l' ++ [u] /\ Forall (served session) l'
           /\ session u = Response status text body /\ status <> HTTP_OK
  | Raise JSONDecodeError =>
      allowed JSONDecodeError = true
      /\ exists l' u text,
           l = l' ++ [u] /\ Forall (served session) l'
           /\ session u = Undecodable text
  | Raise e => allowed e = true /\ Forall (served session) l
  | _ => Forall (served session) l
  end.

Definition behaves {A : Type} (session : url -> reply) (allowed : exn -> bool)
    (m : M A) : Prop :=
  forall s, match m s with (c, _, l) => run_ok session allowed c l end.

(** The exceptions that leave [update]. *)
Definition escapes (e : exn) : bool :=
  match e with
  | ValueError | IndexError => false
  | _ => true
  end.

(** The exceptions that lines 70-107 let through: those of the requests,
    and those that the handlers of lines 84 and 104 do not list. *)
Definition guarded_errors (e : exn) : bool :=
  match e with
  | KeyError | AttributeError | ApiError _ | JSONDecodeError => true
  | _ => false
  end.

(** ** The index key as the specification words it *)

Definition strip_periods (s : string) : string :=
  string_of_list_ascii
    (filter (fun c => negb (Ascii.eqb c ".")) (list_ascii_of_string s)).

(** Lowercase the pollutant code, strip every period, append the suffix. *)
Definition spec_index_key (code : string) : string :=
  (strip_periods (lower code) ++ "IndexLevel")%string.

(** ** Upstreams used in examples *)

Module Upstream.
Definition level (name : string) : json := JObj [("indexLevelName", JStr name)].
Definition sensor (id : Z) (code name : string) : json :=
  JObj [("id", JInt id);
        ("param", JObj [("paramName", JStr name); ("paramCode", JStr code)])].
Definition values (l : list json) : json :=
  JObj [("key", JStr "k");
        ("values", JArr (map (fun v => JObj [("date", JStr "d"); ("value", v)]) l))].
Definition station (id : json) (name : string) : json :=
  JObj [("id", id); ("stationName", JStr name);
        ("gegrLat", JStr "50.0"); ("gegrLon", JStr "19.9")].
Definition ok (body : json) : reply := Response 200 "" body.

Definition directory : json :=
  JArr [station (JInt 7) "other"; station (JInt 117) "Krakow"].

Definition full_indexes : json :=
  JObj [("id", JInt 117); ("stIndexLevel", level "Dobry");
        ("pm10IndexLevel", level "Bardzo dobry");
        ("no2IndexLevel", level "Umiarkowany")].

(** Station 117 with one PM10 sensor whose latest values are [vals]. *)
Definition single (vals : list json) (indexes : json) (u : url) : reply :=
  match u with
  | URL_STATIONS => ok directory
  | URL_STATION _ => ok (JArr [sensor 14 "PM10" "pyl zawieszony PM10"])
  | URL_SENSOR _ => ok (values vals)
  | URL_INDEXES _ => ok indexes
  end.

(** The index document without the entry of PM10. *)
Definition indexes_without_pm10 : json :=
  JObj [("id", JInt 117); ("stIndexLevel", level "Dobry")].

(** Every endpoint answers 500. *)
Definition server_error (u : url) : reply :=
  Response 500 "Internal Server Error" JNull.

(** No endpoint can be connected to. *)
Definition unreachable (u : url) : reply := ClientError.

(** The directory is an empty list, served with status 200. *)
Definition empty_directory (u : url) : reply :=
  match u with
  | URL_STATIONS => ok (JArr [])
  | _ => single [JInt 5] full_indexes u
  end.

(** Station 117 with a PM10 and an NO2 sensor. *)
Definition two_sensors (u : url) : reply :=
  match u with
  | URL_STATIONS => ok directory
  | URL_STATION _ =>
      ok (JArr [sensor 14 "PM10" "pyl zawieszony PM10";
                sensor 15 "NO2" "dwutlenek azotu"])
  | URL_SENSOR (JInt 14) => ok (values [JInt 30; JInt 29])
  | URL_SENSOR _ => ok (values [JInt 11; JInt 12])
  | URL_INDEXES _ => ok full_indexes
  end.

(** Later the station lists the PM10 sensor only; sensor 15 still answers. *)
Definition sensor_unlisted (u : url) : reply :=
  match u with
  | URL_STATION _ => ok (JArr [sensor 14 "PM10" "pyl zawieszony PM10"])
  | _ => two_sensors u
  end.

(** The directory lists the station and then an entry that is null. *)
Definition broken_directory (u : url) : reply :=
  match u with
  | URL_STATIONS => ok (JArr [station (JInt 117) "Krakow"; JNull])
  | _ => two_sensors u
  end.

(** Later the station lists the PM10 sensor only and sensor 15 has no
    reading in its two newest slots. *)
Definition sensor_silent (u : url) : reply :=
  match u with
  | URL_STATION _ => ok (JArr [sensor 14 "PM10" "pyl zawieszony PM10"])
  | URL_SENSOR (JInt 15) => ok (values [JNull; JNull])
  | _ => two_sensors u
  end.

(** Sensor 15 answers with status 200 and a text that is not JSON. *)
Definition sensor_garbled (u : url) : reply :=
  match u with
  | URL_SENSOR (JInt 15) => Undecodable "<html>"
  | _ => two_sensors u
  end.
End Upstream.

(** * Properties *)

(** ** Strings *)

Lemma prefix_empty (s : string) : prefix "" s = true.
Proof. now destruct s. Qed.

Lemma replace_period_cons (c : ascii) (s : string) :
  replace_from "." "" 0 (String c s) =
  if ascii_dec "." c then replace_from "." "" 0 s
  else String c (replace_from "." "" 0 s).
Proof.
  change (replace_from "." "" 0 (String c s))
    with (if (if ascii_dec "." c then prefix "" s else false)
          then replace_from "." "" 0 s
          else String c (replace_from "." "" 0 s)).
  rewrite prefix_empty. now destruct (ascii_dec "." c).
Qed.

Lemma replace_period_strip (s : string) : replace s "." "" = strip_periods s.
Proof.
  unfold replace, strip_periods.
  induction s as [|c s IH]; [reflexivity|].
  rewrite replace_period_cons.
  change (list_ascii_of_string (String c s)) with (c :: list_ascii_of_string s).
  cbn [filter].
  destruct (ascii_dec "." c) as [<-|Hc].
  - exact IH.
  - replace (Ascii.eqb c ".") with false.
    + cbn [negb string_of_list_ascii]. now rewrite IH.
    + symmetry. apply Ascii.eqb_neq. congruence.
Qed.

Lemma format_index_level (x : string) :
  format ATTR_INDEX_LEVEL x = (x ++ "IndexLevel")%string.
Proof. reflexivity. Qed.

(** C4. The key under which a pollutant's qualitative index is looked up is
    the pollutant code lowercased, with every period stripped, followed by
    the suffix IndexLevel; PM2.5 gives pm25IndexLevel and NO2 gives
    no2IndexLevel. *)
Theorem index_level_spec :
  (forall code : string, index_level (HStr code) = Ok (spec_index_key code))
  /\ index_level (HStr "PM2.5") = Ok "pm25IndexLevel"
  /\ index_level (HStr "NO2") = Ok "no2IndexLevel".
Proof.
  split; [|split; reflexivity].
  intros code. unfold index_level, spec_index_key. cbn [key_lower].
  now rewrite replace_period_strip, format_index_level.
Qed.

(** ** The cycle on concrete upstreams *)

Import Upstream.

(** C1. When the index document has no entry for PM10 the cycle should end
    with an empty reading; the lookup raises [KeyError], which the handler
    of line 104 does not list, so [update] raises and the reading keeps
    the PM10 record without its index. *)
Theorem missing_index_key_leaves_partial_reading :
  let r := update (single [JInt 5] indexes_without_pm10) (__init__ (JInt 117)) in
  result_of r = Raised KeyError
  /\ data (state_of r) =
       [(HStr "PM10", [("id", JInt 14); ("name", JStr "pyl zawieszony PM10");
                       ("value", JInt 5)])].
Proof. vm_compute. split; reflexivity. Qed.

(** A status other than 200 makes [update] raise [ApiError], while a
    connection error lets it return. *)
Lemma api_error_propagates :
  result_of (update server_error (__init__ (JInt 117)))
    = Raised (ApiError "Internal Server Error")
  /\ result_of (update unreachable (__init__ (JInt 117))) = Returned.
Proof. vm_compute. split; reflexivity. Qed.

(** A body that does not decode makes [update] raise [JSONDecodeError]
    from line 140 through line 72, which no handler guards, and the reading
    stays as the cycle had patched it so far. *)
Lemma decode_failure_propagates :
  let r := update sensor_garbled (__init__ (JInt 117)) in
  result_of r = Raised JSONDecodeError
  /\ data (state_of r)
     = [(HStr "PM10", [("id", JInt 14); ("name", JStr "pyl zawieszony PM10");
                       ("value", JInt 30)]);
        (HStr "NO2", [("id", JInt 15); ("name", JStr "dwutlenek azotu")])].
Proof. vm_compute. split; reflexivity. Qed.

(** Nulls in the two newest slots of a sensor, and a null in place of the
    index entry of a pollutant, clear the reading and end the cycle without
    raising; a null in place of the name of an index level raises
    [AttributeError] at line 98, which line 104 does not catch. *)
Lemma null_documents :
  let r1 := update (single [JNull; JNull] full_indexes) (__init__ (JInt 117)) in
  let r2 := update (single [JInt 5] (JObj [("pm10IndexLevel", JNull)]))
              (__init__ (JInt 117)) in
  let r3 := update (single [JInt 5]
                      (JObj [("pm10IndexLevel", JObj [("indexLevelName", JNull)])]))
              (__init__ (JInt 117)) in
  (result_of r1 = Returned /\ data (state_of r1) = [])
  /\ (result_of r2 = Returned /\ data (state_of r2) = [])
  /\ result_of r3 = Raised AttributeError.
Proof. vm_compute. repeat split; reflexivity. Qed.

(** A newest reading of 0 is present and not null, so the rule worded with
    a null test selects it, yet the cycle stores the second reading. *)
Lemma zero_reading_skipped :
  spec_select non_null [JInt 0; JInt 42] = Some (JInt 0)
  /\ data (state_of (update (single [JInt 0; JInt 42] full_indexes) (__init__ (JInt 117))))
     = [(HStr "PM10", [("id", JInt 14); ("name", JStr "pyl zawieszony PM10");
                       ("value", JInt 42); ("index", JStr "bardzo dobry")]);
        (HStr "AQI", [("name", JStr "AQI"); ("value", JStr "dobry")])].
Proof. vm_compute. split; reflexivity. Qed.

(** The directory is fetched with status 200 and has no entry with the
    configured id, yet [update] returns without raising. *)
Lemma empty_directory_returns :
  empty_directory URL_STATIONS = Response 200 "" (JArr [])
  /\ result_of (update empty_directory (__init__ (JStr "aa01"))) = Returned.
Proof. vm_compute. split; reflexivity. Qed.


(** On a new reader, a first call that raises out of the loop over the
    directory after line 50 cached the name: the second call skips the
    lookup and fills the reading. *)
Lemma broken_directory_second_call :
  let r1 := update broken_directory (__init__ (JInt 117)) in
  let r2 := update broken_directory (state_of r1) in
  result_of r1 = Raised TypeError /\ data (state_of r1) = []
  /\ result_of r2 = Returned /\ data (state_of r2) <> [].
Proof. vm_compute. repeat split; try reflexivity. discriminate. Qed.

(** A pollutant of an earlier cycle stays in the reading of a successful
    cycle whose sensor list no longer has it. *)
Lemma unlisted_sensor_survives :
  let s0 := state_of (update two_sensors (__init__ (JInt 117))) in
  let r := update sensor_unlisted s0 in
  sensor_unlisted (URL_STATION (JInt 117))
    = Response 200 "" (JArr [sensor 14 "PM10" "pyl zawieszony PM10"])
  /\ result_of r = Returned
  /\ keys (data (state_of r)) = [HStr "PM10"; HStr "NO2"; HStr "AQI"].
Proof. vm_compute. repeat split; reflexivity. Qed.

(** ** What assembling the reading leaves alone *)

Lemma set_data_data (s : Gios) : s = set_data (_data s) s.
Proof. now destruct s. Qed.

Create HintDb keeps.

Lemma keeps_ret {A} (a : A) : keeps_station (ret a).
Proof. intros s. cbn. split; [apply set_data_data | tauto]. Qed.

Lemma keeps_return {A} : keeps_station (@return_ A).
Proof. intros s. cbn. split; [apply set_data_data | tauto]. Qed.

Lemma keeps_raise {A} (e : exn) : keeps_station (@raise A e).
Proof. intros s. cbn. split; [apply set_data_data | tauto]. Qed.

Lemma keeps_eval {A} (c : result A) : keeps_station (eval c).
Proof. intros s. cbn. split; [apply set_data_data | tauto]. Qed.

Lemma keeps_get {A} (f : Gios -> A) : keeps_station (get f).
Proof. intros s. cbn. split; [apply set_data_data | tauto]. Qed.

Lemma keeps_set_data (d : reading) : keeps_station (modify (set_data d)).
Proof. intros s. cbn. split; [reflexivity | tauto]. Qed.

Lemma keeps_bind {A B} (m : M A) (f : A -> M B) :
  keeps_station m -> (forall a, keeps_station (f a)) -> keeps_station (bind m f).
Proof.
  intros Hm Hf s. unfold bind. specialize (Hm s).
  destruct (m s) as [[[a| |e] s1] l1]; try exact Hm.
  destruct Hm as [E1 N1]. specialize (Hf a s1).
  destruct (f a s1) as [[c s2] l2]. destruct Hf as [E2 N2]. split.
  - rewrite E2, E1. reflexivity.
  - rewrite in_app_iff. tauto.
Qed.

Lemma keeps_try {A} (body handler : M A) (classes : exn -> bool) :
  keeps_station body -> keeps_station handler ->
  keeps_station (try_except body classes handler).
Proof.
  intros Hb Hh s. unfold try_except. specialize (Hb s).
  destruct (body s) as [[[a| |e] s1] l1]; try exact Hb.
  destruct (classes e); [|exact Hb].
  destruct Hb as [E1 N1]. specialize (Hh s1).
  destruct (handler s1) as [[c s2] l2]. destruct Hh as [E2 N2]. split.
  - rewrite E2, E1. reflexivity.
  - rewrite in_app_iff. tauto.
Qed.

Lemma keeps_if {A} (b : bool) (m1 m2 : M A) :
  keeps_station m1 -> keeps_station m2 -> keeps_station (if b then m1 else m2).
Proof. now destruct b. Qed.

#[local] Hint Resolve keeps_ret keeps_return keeps_raise keeps_eval keeps_get
  keeps_set_data keeps_bind keeps_try keeps_if : keeps.

Ltac keeps_step :=
  first [ solve [auto with keeps]
        | apply keeps_bind; [solve [auto with keeps] | intros ?] ].

Section Frame.
Variable session : url -> reply.

Lemma keeps_async_get (u : url) :
  u <> URL_STATIONS -> keeps_station (_async_get session u).
Proof.
  intros Hu. unfold _async_get. apply keeps_bind.
  - intros s. cbn. split; [apply set_data_data | intros [H|[]]; congruence].
  - intros _. destruct (session u) as [|status text body|text]; auto with keeps.
Qed.

Lemma keeps_store (sensor : hkey) (field : string) (v : json) :
  keeps_station (store sensor field v).
Proof. unfold store. auto 10 with keeps. Qed.

Lemma keeps_get_sensor (sensor : hkey) : keeps_station (_get_sensor session sensor).
Proof.
  unfold _get_sensor. do 3 keeps_step. apply keeps_async_get. discriminate.
Qed.

Lemma keeps_get_station : keeps_station (_get_station session).
Proof.
  unfold _get_station. keeps_step. apply keeps_async_get. discriminate.
Qed.

Lemma keeps_get_indexes : keeps_station (_get_indexes session).
Proof.
  unfold _get_indexes. keeps_step. apply keeps_async_get. discriminate.
Qed.

Hint Resolve keeps_store keeps_get_sensor keeps_get_station
  keeps_get_indexes : keeps.

Lemma keeps_store_latest (sensor : hkey) (sensor_data : json) :
  keeps_station (store_latest sensor sensor_data).
Proof.
  unfold store_latest. apply keeps_try; [|auto with keeps].
  do 3 keeps_step. apply keeps_if; [auto with keeps|].
  repeat keeps_step.
Qed.

Hint Resolve keeps_store_latest : keeps.

Lemma keeps_for_sensors (l : list json) : keeps_station (for_sensors l).
Proof.
  induction l as [|x l IH]; cbn [for_sensors]; [unfold pass; auto with keeps|].
  repeat keeps_step.
Qed.

Lemma keeps_for_values (ks : list hkey) : keeps_station (for_values session ks).
Proof.
  induction ks as [|k ks IH]; cbn [for_values]; [unfold pass; auto with keeps|].
  apply keeps_bind; [|intros _; exact IH].
  unfold pass. auto with keeps.
Qed.

Lemma keeps_for_indexes (indexes : json) (ks : list hkey) :
  keeps_station (for_indexes indexes ks).
Proof.
  induction ks as [|k ks IH]; cbn [for_indexes]; [unfold pass; auto with keeps|].
  apply keeps_bind; [|intros _; exact IH].
  apply keeps_if; [unfold pass; auto with keeps|].
  repeat keeps_step.
Qed.

Hint Resolve keeps_for_sensors keeps_for_values keeps_for_indexes : keeps.

Lemma keeps_assemble : keeps_station (assemble session).
Proof.
  unfold assemble. keeps_step.
  apply keeps_bind; [unfold pass; auto 10 with keeps | intros _].
  do 5 keeps_step.
  apply keeps_try; [|auto with keeps].
  repeat keeps_step.
Qed.

(** With a name cached, lines 40-57 do nothing. *)
Lemma resolve_cached (s : Gios) :
  truthy (station_name s) = true -> resolve session s = (Normal tt, s, []).
Proof. intros H. unfold resolve, bind, get. now rewrite H. Qed.

Lemma update_cached (s : Gios) :
  truthy (station_name s) = true ->
  update session s = call (assemble session) s.
Proof.
  intros H. unfold update, call, update_body, bind.
  rewrite (resolve_cached s H).
  now destruct (assemble session s) as [[[[]| |e] s1] l1].
Qed.
End Frame.

(** One cycle on an object whose station name is cached. *)
Lemma update_keeps_station (session : url -> reply) (s : Gios) :
  truthy (station_name s) = true ->
  let r := update session s in
  state_of r = set_data (_data (state_of r)) s /\ ~ In URL_STATIONS (requests_of r).
Proof.
  intros H. cbv zeta. rewrite (update_cached session s H).
  pose proof (keeps_assemble session s) as K. unfold call.
  destruct (assemble session s) as [[[[]| |e] s1] l1]; exact K.
Qed.

(** C6. Once a call has cached the station name, no later call of update,
    whatever the upstream answers, asks for the directory of stations, and
    the cached name, latitude and longitude stay as they are. *)
Theorem station_fetched_once (sessions : list (url -> reply)) (self : Gios) :
  truthy (station_name self) = true ->
  let (s', l) := updates sessions self in
  ~ In URL_STATIONS l
  /\ station_name s' = station_name self
  /\ latitude s' = latitude self
  /\ longitude s' = longitude self.
Proof.
  revert self. induction sessions as [|session rest IH]; intros self H.
  - cbn. tauto.
  - cbn [updates].
    destruct (update_keeps_station session self H) as [E N].
    set (r := update session self) in *.
    assert (H' : truthy (station_name (state_of r)) = true) by now rewrite E.
    specialize (IH (state_of r) H').
    destruct (updates rest (state_of r)) as [s' l].
    destruct IH as (N' & En & Ela & Elo).
    rewrite En, Ela, Elo, E. cbn. rewrite in_app_iff. tauto.
Qed.

Lemma station_fetched_once_witness :
  let self := state_of (update two_sensors (__init__ (JInt 117))) in
  truthy (station_name self) = true
  /\ (let (s', l) := updates [sensor_unlisted; server_error; two_sensors] self in
      ~ In URL_STATIONS l
      /\ station_name s' = station_name self
      /\ latitude s' = latitude self
      /\ longitude s' = longitude self).
Proof.
  split; [reflexivity|].
  apply (station_fetched_once [sensor_unlisted; server_error; two_sensors]
           (state_of (update two_sensors (__init__ (JInt 117))))).
  reflexivity.
Defined.

(** ** Single steps of the cycle *)

Section Steps.
Variable session : url -> reply.

Lemma async_get_run (u : url) (s : Gios) :
  _async_get session u s =
  match session u with
  | ClientError => (Normal JNull, s, [u])
  | Response status text body =>
      if (status =? HTTP_OK)%Z then (Normal body, s, [u])
      else (Raise (ApiError text), s, [u])
  | Undecodable text => (Raise JSONDecodeError, s, [u])
  end.
Proof.
  unfold _async_get, bind, request.
  destruct (session u) as [|status text body|text]; [reflexivity| |reflexivity].
  now destruct (status =? HTTP_OK)%Z.
Qed.

Lemma store_run (sensor : hkey) (field : string) (v : json) (s : Gios) :
  store sensor field v s =
  match dict_get hkey_eq_dec (_data s) sensor with
  | Some entry =>
      (Normal tt,
       set_data (dict_set hkey_eq_dec (_data s) sensor
                   (dict_set string_dec entry field v)) s, [])
  | None => (Raise KeyError, s, [])
  end.
Proof.
  unfold store, bind, get, eval, subscript, modify.
  now destruct (dict_get hkey_eq_dec (_data s) sensor).
Qed.

Lemma get_sensor_run (sensor : hkey) (s : Gios) :
  _get_sensor session sensor s =
  match dict_get hkey_eq_dec (_data s) sensor with
  | Some entry =>
      match dict_get string_dec entry ATTR_ID with
      | Some id => _async_get session (URL_SENSOR id) s
      | None => (Raise KeyError, s, [])
      end
  | None => (Raise KeyError, s, [])
  end.
Proof.
  unfold _get_sensor, bind, get, eval, subscript.
  destruct (dict_get hkey_eq_dec (_data s) sensor) as [entry|]; [|reflexivity].
  destruct (dict_get string_dec entry ATTR_ID) as [id|]; [|reflexivity].
  now destruct (_async_get session (URL_SENSOR id) s) as [[[a| |e] s1] l1].
Qed.

(** The [try] statement of lines 73-87 in terms of the value picked: a
    caught exception clears the reading and returns, [KeyError] passes. *)
Lemma store_latest_run (sensor : hkey) (sensor_data : json) (s : Gios) :
  store_latest sensor sensor_data s =
  match pick sensor_data with
  | Ok v => store sensor ATTR_VALUE v s
  | Throws e =>
      if caught_84 e then (Return, set_data [] s, []) else (Raise e, s, [])
  end.
Proof.
  unfold store_latest, store, pick.
  unfold try_except, bind, eval, and_then, raise, get, modify, subscript, return_.
  destruct (getitem sensor_data "values") as [values|e]; [|now destruct e].
  destruct (getindex values 0) as [first|e]; [|now destruct e].
  destruct (getitem first ATTR_VALUE) as [v0|e]; [|now destruct e].
  destruct (truthy v0).
  { now destruct (dict_get hkey_eq_dec (_data s) sensor). }
  destruct (getindex values 1) as [second|e]; [|now destruct e].
  destruct (getitem second ATTR_VALUE) as [v1|e]; [|now destruct e].
  destruct (truthy v1); [|reflexivity].
  now destruct (dict_get hkey_eq_dec (_data s) sensor).
Qed.
End Steps.

(** ** Resolving the station *)

Lemma for_stations_no_match (stations : list json) (s : Gios) :
  (forall st, In st stations ->
     exists v, getitem st ATTR_ID = Ok v /\ py_eq v (station_id s) = false) ->
  for_stations stations s = (Normal tt, s, []).
Proof.
  induction stations as [|st stations IH]; intros H; [reflexivity|].
  destruct (H st (or_introl eq_refl)) as (v & Ev & Hv).
  cbn [for_stations]. unfold bind at 1. unfold eval at 1. rewrite Ev.
  unfold bind at 1. unfold get at 1. rewrite Hv.
  unfold bind, pass, ret. rewrite IH; [reflexivity|].
  intros st' Hst'. apply H. now right.
Qed.

(** C5, as the code has it. With no station name cached and the directory
    fetched with status 200 as a list none of whose entries has the
    configured id: if the list is not empty, update raises NoStationError
    after the single request for the directory; if it is empty, update
    returns without raising.  Either way the object, its reading included,
    stays as it was. *)
Theorem unknown_station_raises (session : url -> reply) (self : Gios)
    (text : string) (stations : list json) :
  truthy (station_name self) = false ->
  session URL_STATIONS = Response HTTP_OK text (JArr stations) ->
  (forall st, In st stations ->
     exists v, getitem st ATTR_ID = Ok v /\ py_eq v (station_id self) = false) ->
  update session self
  = (match stations with
     | [] => Returned
     | _ :: _ =>
         Raised (NoStationError (no_station_message (station_id self)))
     end, self, [URL_STATIONS]).
Proof.
  intros Hname Hdir Hids.
  unfold update, call, update_body. unfold bind at 1.
  assert (R : resolve session self
              = (match stations with
                 | [] => Return
                 | _ :: _ =>
                     Raise (NoStationError (no_station_message (station_id self)))
                 end, self, [URL_STATIONS])).
  { unfold resolve. unfold bind at 1. unfold get at 1. rewrite Hname.
    cbn [negb]. unfold bind at 1. unfold _get_stations.
    rewrite async_get_run, Hdir. cbn [Z.eqb HTTP_OK Pos.eqb].
    destruct stations as [|st0 stations]; [reflexivity|].
    cbn [truthy negb]. unfold bind at 1. unfold pass, ret.
    unfold bind at 1. unfold eval at 1. cbn [iter].
    unfold bind at 1. rewrite (for_stations_no_match _ _ Hids).
    unfold bind, get, raise. now rewrite Hname. }
  rewrite R. now destruct stations.
Qed.

Lemma unknown_station_raises_witness :
  update (single [JInt 5] full_indexes) (__init__ (JStr "aa01"))
  = (Raised (NoStationError (Some "aa01 is not a valid measuring station ID.")),
     __init__ (JStr "aa01"), [URL_STATIONS]).
Proof.
  apply (unknown_station_raises (single [JInt 5] full_indexes) (__init__ (JStr "aa01"))
           "" [station (JInt 7) "other"; station (JInt 117) "Krakow"]).
  - reflexivity.
  - reflexivity.
  - intros st [<-|[<-|[]]]; eexists; split; reflexivity.
Defined.

(** ** The exceptions of a cycle and the requests behind them *)

Lemma getitem_raises (x : json) (k : string) (e : exn) :
  getitem x k = Throws e -> e = KeyError \/ e = TypeError.
Proof.
  destruct x; cbn; try (intros [= <-]; now right).
  destruct (dict_get string_dec m k); [discriminate | intros [= <-]; now left].
Qed.

Lemma getindex_raises (x : json) (i : nat) (e : exn) :
  getindex x i = Throws e -> e = IndexError \/ e = KeyError \/ e = TypeError.
Proof.
  unfold getindex.
  destruct x as [| | | |t|l|m]; try (intros [= <-]; tauto).
  - destruct (String.get i t); [discriminate | intros [= <-]; tauto].
  - destruct (nth_error l i); [discriminate | intros [= <-]; tauto].
Qed.

Lemma iter_raises (x : json) (e : exn) : iter x = Throws e -> e = TypeError.
Proof. destruct x; cbn; congruence. Qed.

Lemma hash_raises (x : json) (e : exn) : hash x = Throws e -> e = TypeError.
Proof. unfold hash. destruct (hash_key x); congruence. Qed.

Lemma subscript_raises {K V : Type} (dec : forall a b : K, {a = b} + {a <> b})
    (d : list (K * V)) (k : K) (e : exn) :
  subscript dec d k = Throws e -> e = KeyError.
Proof. unfold subscript. destruct (dict_get dec d k); congruence. Qed.

Lemma lower_method_raises (x : json) (e : exn) :
  lower_method x = Throws e -> e = AttributeError.
Proof. destruct x; cbn; congruence. Qed.

Lemma index_level_raises (k : hkey) (e : exn) :
  index_level k = Throws e -> e = AttributeError.
Proof. destruct k; cbn; congruence. Qed.

Section Behaviour.
Variable session : url -> reply.

Lemma run_ok_weaken {A} (P P' : exn -> bool) (c : completion A) (l : list url) :
  (forall e, P e = true -> P' e = true) ->
  run_ok session P c l -> run_ok session P' c l.
Proof.
  intros HP. destruct c as [a| |e]; cbn; try tauto.
  destruct e; intuition auto.
Qed.

Lemma run_ok_allowed {A} (P : exn -> bool) (e : exn) (l : list url) :
  run_ok (A := A) session P (Raise e) l -> P e = true.
Proof. destruct e; cbn; tauto. Qed.

Lemma run_ok_served {A} (P : exn -> bool) (c : completion A) (l : list url) :
  (forall e, c = Raise e -> fetch_error e = false) ->
  run_ok session P c l -> Forall (served session) l.
Proof.
  intros N. destruct c as [a| |e]; cbn; try tauto.
  specialize (N e eq_refl). destruct e; try tauto; discriminate.
Qed.

Lemma run_ok_app {A} (P : exn -> bool) (c : completion A) (l1 l2 : list url) :
  Forall (served session) l1 -> run_ok session P c l2 ->
  run_ok session P c (l1 ++ l2).
Proof.
  intros H1. destruct c as [a| |e]; cbn; try (intros; apply Forall_app; tauto).
  destruct e; try (intros [? ?]; split; [assumption | apply Forall_app; tauto]).
  - intros (Hp & l' & u & st & body & -> & Hl' & Hu & Hst). split; [assumption|].
    exists (l1 ++ l'), u, st, body. rewrite app_assoc.
    repeat split; try assumption. apply Forall_app. tauto.
  - intros (Hp & l' & u & text & -> & Hl' & Hu). split; [assumption|].
    exists (l1 ++ l'), u, text. rewrite app_assoc.
    repeat split; try assumption. apply Forall_app. tauto.
Qed.

Lemma behaves_weaken {A} (P P' : exn -> bool) (m : M A) :
  (forall e, P e = true -> P' e = true) ->
  behaves session P m -> behaves session P' m.
Proof.
  intros HP Hm s. specialize (Hm s). destruct (m s) as [[c s1] l].
  eapply run_ok_weaken; eassumption.
Qed.

Lemma behaves_bind {A B} (P : exn -> bool) (m : M A) (f : A -> M B) :
  behaves session P m -> (forall a, behaves session P (f a)) ->
  behaves session P (bind m f).
Proof.
  intros Hm Hf s. unfold bind. specialize (Hm s).
  destruct (m s) as [[[a| |e] s1] l1]; try exact Hm.
  specialize (Hf a s1). destruct (f a s1) as [[c s2] l2].
  apply run_ok_app; assumption.
Qed.

Lemma behaves_try {A} (P P' : exn -> bool) (body handler : M A)
    (classes : exn -> bool) :
  behaves session P body ->
  (forall e, P e = true -> classes e = true -> fetch_error e = false) ->
  (forall e, P e = true -> classes e = false -> P' e = true) ->
  behaves session P' handler ->
  behaves session P' (try_except body classes handler).
Proof.
  intros Hb Hf HP Hh s. unfold try_except. specialize (Hb s).
  destruct (body s) as [[[a| |e] s1] l1]; try exact Hb.
  destruct (classes e) eqn:Hc.
  - specialize (Hh s1). destruct (handler s1) as [[c s2] l2].
    apply run_ok_app; [|assumption].
    eapply run_ok_served; [|exact Hb].
    intros e' [= <-]. apply Hf; [|exact Hc]. eapply run_ok_allowed. exact Hb.
  - cbn in Hb |- *. destruct e; intuition auto.
Qed.

Lemma behaves_silent {A} (P : exn -> bool) (m : M A) :
  (forall s, match m s with
             | (Raise e, _, l) => P e = true /\ l = [] /\ fetch_error e = false
             | (_, _, l) => l = []
             end) ->
  behaves session P m.
Proof.
  intros H s. specialize (H s). destruct (m s) as [[[a| |e] s1] l]; cbn.
  - subst. constructor.
  - subst. constructor.
  - destruct H as (Hp & -> & N).
    destruct e; try (split; [assumption | constructor]); discriminate.
Qed.

Lemma behaves_ret {A} (P : exn -> bool) (a : A) : behaves session P (ret a).
Proof. apply behaves_silent. now intros s. Qed.

Lemma behaves_return {A} (P : exn -> bool) : behaves session P (@return_ A).
Proof. apply behaves_silent. now intros s. Qed.

Lemma behaves_get {A} (P : exn -> bool) (f : Gios -> A) : behaves session P (get f).
Proof. apply behaves_silent. now intros s. Qed.

Lemma behaves_modify (P : exn -> bool) (f : Gios -> Gios) :
  behaves session P (modify f).
Proof. apply behaves_silent. now intros s. Qed.

Lemma behaves_raise {A} (P : exn -> bool) (e : exn) :
  P e = true -> fetch_error e = false ->
  behaves session P (@raise A e).
Proof. intros Hp N. apply behaves_silent. now intros s. Qed.

Lemma behaves_eval {A} (P : exn -> bool) (r : result A) :
  (forall e, r = Throws e -> P e = true /\ fetch_error e = false) ->
  behaves session P (eval r).
Proof.
  intros H. apply behaves_silent. intros s. cbn.
  destruct r as [a|e]; try reflexivity.
  destruct (H e eq_refl). tauto.
Qed.

Lemma behaves_if {A} (P : exn -> bool) (b : bool) (m1 m2 : M A) :
  behaves session P m1 -> behaves session P m2 ->
  behaves session P (if b then m1 else m2).
Proof. now destruct b. Qed.

Lemma behaves_async_get (P : exn -> bool) (u : url) :
  (forall text, P (ApiError text) = true) ->
  P JSONDecodeError = true ->
  behaves session P (_async_get session u).
Proof.
  intros Hp Hj s. rewrite async_get_run.
  destruct (session u) as [|status text body|text] eqn:Eu.
  - cbn. constructor; [|constructor]. unfold served. now rewrite Eu.
  - destruct (status =? HTTP_OK)%Z eqn:Est.
    + cbn. constructor; [|constructor]. unfold served. rewrite Eu.
      now apply Z.eqb_eq.
    + cbn. split; [apply Hp|]. exists [], u, status, body.
      repeat split; [constructor | assumption | now apply Z.eqb_neq].
  - cbn. split; [exact Hj|]. exists [], u, text.
    repeat split; [constructor | assumption].
Qed.
End Behaviour.

Create HintDb behaves.

#[local] Hint Resolve behaves_ret behaves_return behaves_get behaves_modify
  behaves_bind behaves_if : behaves.

Ltac behaves_step :=
  first [ solve [auto with behaves]
        | apply behaves_bind; [solve [auto with behaves] | intros ?] ].

Section Exceptions.
Variable session : url -> reply.

Lemma behaves_getitem (P : exn -> bool) (x : json) (k : string) :
  P KeyError = true -> P TypeError = true ->
  behaves session P (eval (getitem x k)).
Proof.
  intros H1 H2. apply behaves_eval. intros e He.
  destruct (getitem_raises _ _ _ He) as [-> | ->]; now split.
Qed.

Lemma behaves_getindex (P : exn -> bool) (x : json) (i : nat) :
  P IndexError = true -> P KeyError = true -> P TypeError = true ->
  behaves session P (eval (getindex x i)).
Proof.
  intros H1 H2 H3. apply behaves_eval. intros e He.
  destruct (getindex_raises x i e He) as [-> | [-> | ->]]; now split.
Qed.

Lemma behaves_iter (P : exn -> bool) (x : json) :
  P TypeError = true -> behaves session P (eval (iter x)).
Proof.
  intros H. apply behaves_eval. intros e He.
  rewrite (iter_raises _ _ He). now split.
Qed.

Lemma behaves_hash (P : exn -> bool) (x : json) :
  P TypeError = true -> behaves session P (eval (hash x)).
Proof.
  intros H. apply behaves_eval. intros e He.
  rewrite (hash_raises _ _ He). now split.
Qed.

Lemma behaves_subscript {K V : Type} (dec : forall a b : K, {a = b} + {a <> b})
    (P : exn -> bool) (d : list (K * V)) (k : K) :
  P KeyError = true -> behaves session P (eval (subscript dec d k)).
Proof.
  intros H. apply behaves_eval. intros e He.
  rewrite (subscript_raises _ _ _ _ He). now split.
Qed.

Lemma behaves_lower_method (P : exn -> bool) (x : json) :
  P AttributeError = true -> behaves session P (eval (lower_method x)).
Proof.
  intros H. apply behaves_eval. intros e He.
  rewrite (lower_method_raises _ _ He). now split.
Qed.

Lemma behaves_index_level (P : exn -> bool) (k : hkey) :
  P AttributeError = true -> behaves session P (eval (index_level k)).
Proof.
  intros H. apply behaves_eval. intros e He.
  rewrite (index_level_raises _ _ He). now split.
Qed.

Hint Resolve behaves_getitem behaves_getindex behaves_iter behaves_hash
  behaves_subscript behaves_lower_method behaves_index_level : behaves.

Lemma behaves_store (P : exn -> bool) (sensor : hkey) (field : string) (v : json) :
  P KeyError = true -> behaves session P (store sensor field v).
Proof. intros H. unfold store. repeat behaves_step. Qed.

Lemma behaves_get_sensor (P : exn -> bool) (sensor : hkey) :
  P KeyError = true -> (forall text, P (ApiError text) = true) ->
  P JSONDecodeError = true ->
  behaves session P (_get_sensor session sensor).
Proof.
  intros H1 H2 H3. unfold _get_sensor. do 3 behaves_step.
  now apply behaves_async_get.
Qed.

Hint Resolve behaves_store behaves_get_sensor : behaves.

Lemma behaves_store_latest (sensor : hkey) (sensor_data : json) :
  behaves session escapes (store_latest sensor sensor_data).
Proof.
  unfold store_latest. apply (behaves_try session lookup_errors).
  - do 3 behaves_step. apply behaves_if; [auto with behaves|].
    do 2 behaves_step. apply behaves_if; [auto with behaves|].
    now apply behaves_raise.
  - now intros [].
  - now intros [].
  - repeat behaves_step.
Qed.

Lemma behaves_for_stations (l : list json) : behaves session escapes (for_stations l).
Proof.
  induction l as [|x l IH]; cbn [for_stations]; [apply behaves_ret|].
  do 2 behaves_step. apply behaves_bind; [|intros _; exact IH].
  apply behaves_if; [|apply behaves_ret]. repeat behaves_step.
Qed.

Lemma behaves_for_sensors (l : list json) : behaves session escapes (for_sensors l).
Proof.
  induction l as [|x l IH]; cbn [for_sensors]; [apply behaves_ret|].
  repeat behaves_step.
Qed.

Lemma behaves_for_values (ks : list hkey) :
  behaves session escapes (for_values session ks).
Proof.
  induction ks as [|k ks IH]; cbn [for_values]; [apply behaves_ret|].
  apply behaves_bind; [|intros _; exact IH].
  apply behaves_if; [apply behaves_ret|].
  apply behaves_bind; [now apply behaves_get_sensor|].
  intros sensor_data. apply behaves_store_latest.
Qed.

Lemma behaves_for_indexes (indexes : json) (ks : list hkey) :
  behaves session escapes (for_indexes indexes ks).
Proof.
  induction ks as [|k ks IH]; cbn [for_indexes]; [apply behaves_ret|].
  apply behaves_bind; [|intros _; exact IH].
  apply behaves_if; [apply behaves_ret|]. repeat behaves_step.
Qed.

Hint Resolve behaves_for_stations behaves_for_sensors behaves_for_values
  behaves_for_indexes : behaves.

Lemma behaves_resolve : behaves session escapes (resolve session).
Proof.
  unfold resolve. behaves_step. apply behaves_if; [|apply behaves_ret].
  apply behaves_bind; [now apply behaves_async_get | intros stations].
  apply behaves_bind;
    [apply behaves_if; [apply behaves_return | apply behaves_ret] | intros _].
  do 3 behaves_step. apply behaves_if; [|apply behaves_ret].
  behaves_step. now apply behaves_raise.
Qed.

Lemma behaves_assemble : behaves session escapes (assemble session).
Proof.
  unfold assemble.
  apply behaves_bind.
  { unfold _get_station. behaves_step. now apply behaves_async_get. }
  intros station_data.
  apply behaves_bind;
    [apply behaves_if; [repeat behaves_step | apply behaves_ret] | intros _].
  do 4 behaves_step.
  apply behaves_bind.
  { unfold _get_indexes. behaves_step. now apply behaves_async_get. }
  intros indexes.
  apply (behaves_try session escapes).
  - repeat behaves_step.
  - now intros [].
  - tauto.
  - repeat behaves_step.
Qed.

Lemma behaves_update_body : behaves session escapes (update_body session).
Proof.
  unfold update_body. apply behaves_bind;
    [apply behaves_resolve | intros _; apply behaves_assemble].
Qed.

(** Against an upstream that cannot be connected to, a cycle returns. *)
Lemma update_unconnected (s : Gios) :
  (forall u, session u = ClientError) -> result_of (update session s) = Returned.
Proof.
  intros H. unfold update, call, update_body, bind.
  unfold resolve. unfold bind at 1. unfold get at 1.
  destruct (truthy (station_name s)); cbn [negb].
  - unfold pass, ret, assemble. unfold bind at 1. unfold _get_station.
    unfold bind at 1. unfold get at 1. rewrite async_get_run, H. reflexivity.
  - unfold bind at 1. unfold _get_stations. rewrite async_get_run, H. reflexivity.
Qed.
End Exceptions.

Lemma app_last_eq {A : Type} (l l' : list A) (x y : A) :
  l ++ [x] = l' ++ [y] -> x = y.
Proof. intros H. apply app_inj_tail in H. tauto. Qed.

(** ** Dictionaries *)

Section DictFacts.
Context {K V : Type}.
Variable dec : forall a b : K, {a = b} + {a <> b}.
Implicit Types (d : list (K * V)) (k : K) (v : V).

Lemma dict_get_set_same d k v : dict_get dec (dict_set dec d k v) k = Some v.
Proof.
  induction d as [|[k' v'] d IH]; cbn.
  - now destruct (dec k k).
  - destruct (dec k k') as [->|N]; cbn.
    + now destruct (dec k' k').
    + now destruct (dec k k').
Qed.

Lemma dict_get_set_other d k k' v :
  k' <> k -> dict_get dec (dict_set dec d k v) k' = dict_get dec d k'.
Proof.
  intros N. induction d as [|[k0 v0] d IH]; cbn.
  - now destruct (dec k' k).
  - destruct (dec k k0) as [->|N0]; cbn.
    + now destruct (dec k' k0).
    + destruct (dec k' k0); [reflexivity | exact IH].
Qed.

Lemma dict_get_none d k : dict_get dec d k = None <-> ~ In k (keys d).
Proof.
  induction d as [|[k' v'] d IH]; cbn; [tauto|].
  destruct (dec k k') as [->|N].
  - split; [discriminate | tauto].
  - rewrite IH. intuition congruence.
Qed.

Lemma dict_get_some d k v : dict_get dec d k = Some v -> In k (keys d).
Proof.
  intros H. destruct (in_dec dec k (keys d)) as [I|N]; [exact I|].
  apply dict_get_none in N. congruence.
Qed.

Lemma keys_set_present d k v : In k (keys d) -> keys (dict_set dec d k v) = keys d.
Proof.
  induction d as [|[k' v'] d IH]; cbn; [tauto|].
  destruct (dec k k') as [->|N]; cbn; [reflexivity|].
  intros [E|I]; [congruence|]. f_equal. now apply IH.
Qed.

Lemma dict_set_absent d k v : ~ In k (keys d) -> dict_set dec d k v = d ++ [(k, v)].
Proof.
  induction d as [|[k' v'] d IH]; cbn; [reflexivity|].
  destruct (dec k k') as [->|N]; [tauto|].
  intros H. f_equal. apply IH. tauto.
Qed.

Lemma keys_set d k v :
  keys (dict_set dec d k v) = if in_dec dec k (keys d) then keys d else keys d ++ [k].
Proof.
  destruct (in_dec dec k (keys d)) as [I|N].
  - now apply keys_set_present.
  - rewrite (dict_set_absent d k v N). unfold keys. now rewrite map_app.
Qed.

Lemma in_keys_set d k v k' :
  In k' (keys (dict_set dec d k v)) <-> In k' (keys d) \/ k' = k.
Proof.
  rewrite keys_set. destruct (in_dec dec k (keys d)) as [I|N].
  - intuition congruence.
  - rewrite in_app_iff. cbn. intuition congruence.
Qed.

Lemma dict_get_app d d' k :
  dict_get dec (d ++ d') k =
  match dict_get dec d k with Some v => Some v | None => dict_get dec d' k end.
Proof.
  induction d as [|[k' v'] d IH]; cbn; [reflexivity|].
  now destruct (dec k k').
Qed.

Lemma dict_set_app d d' k v :
  In k (keys d) -> dict_set dec (d ++ d') k v = dict_set dec d k v ++ d'.
Proof.
  induction d as [|[k' v'] d IH]; cbn; [tauto|].
  destruct (dec k k') as [->|N]; [reflexivity|].
  intros [E|I]; [congruence|]. cbn. f_equal. now apply IH.
Qed.

Lemma nodup_keys_set d k v : NoDup (keys d) -> NoDup (keys (dict_set dec d k v)).
Proof.
  intros H. rewrite keys_set. destruct (in_dec dec k (keys d)) as [I|N];
    [assumption|].
  apply NoDup_app; [assumption | repeat constructor; tauto |].
  intros x Hx [<-|[]]. contradiction.
Qed.

Lemma dict_set_twice d k v v' :
  dict_set dec (dict_set dec d k v) k v' = dict_set dec d k v'.
Proof.
  induction d as [|[k0 v0] d IH]; cbn.
  - now destruct (dec k k).
  - destruct (dec k k0) as [->|N]; cbn.
    + now destruct (dec k0 k0).
    + destruct (dec k k0); [contradiction | now rewrite IH].
Qed.

(** Two dictionaries with the same keys in the same order and the same
    value under each key are equal. *)
Lemma dict_ext d d' :
  keys d = keys d' -> NoDup (keys d) ->
  (forall k, In k (keys d) -> dict_get dec d k = dict_get dec d' k) -> d = d'.
Proof.
  revert d'. induction d as [|[k v] d IH]; intros [|[k' v'] d'] Hk Hn Hg;
    try discriminate; [reflexivity|].
  cbn in Hk. injection Hk as -> Hk. inversion Hn as [|? ? Hnk Hn']; subst.
  pose proof (Hg k' (or_introl eq_refl)) as H0. cbn in H0.
  destruct (dec k' k') as [_|N]; [|congruence]. injection H0 as ->.
  f_equal. apply IH; try assumption.
  intros k Hin. specialize (Hg k (or_intror Hin)). cbn in Hg.
  destruct (dec k k') as [->|N]; [contradiction | exact Hg].
Qed.
End DictFacts.

(** ** The loops in closed form *)

Section Loops.
Variable session : url -> reply.

Lemma for_sensors_run (station_data : list json) (s : Gios) :
  for_sensors station_data s =
  (match snd (entries station_data) with None => Normal tt | Some e => Raise e end,
   set_data (insert_all (fst (entries station_data)) (_data s)) s, []).
Proof.
  revert s. induction station_data as [|sensor rest IH]; intros s.
  - cbn. now destruct s.
  - cbn [for_sensors entries]. unfold sensor_entry.
    unfold bind at 1. unfold eval at 1.
    destruct (getitem sensor ATTR_ID) as [id|e]; [|cbn; now destruct s].
    cbn [and_then]. unfold bind at 1. unfold eval at 1.
    destruct (getitem sensor "param") as [param|e]; [|cbn; now destruct s].
    cbn [and_then]. unfold bind at 1. unfold eval at 1.
    destruct (getitem param "paramName") as [name|e]; [|cbn; now destruct s].
    cbn [and_then]. unfold bind at 1. unfold eval at 1.
    unfold bind at 1. unfold eval at 1.
    destruct (getitem param "paramCode") as [code|e]; [|cbn; now destruct s].
    cbn [and_then]. unfold bind at 1. unfold eval at 1.
    destruct (hash code) as [key|e]; [|cbn; now destruct s].
    cbn [and_then]. unfold bind at 1. unfold get at 1.
    unfold bind at 1. unfold modify at 1. rewrite IH.
    destruct (entries rest) as [kvs err]. reflexivity.
Qed.

Lemma for_values_steps (ks : list hkey) (s : Gios) :
  for_values session ks s = steps ATTR_VALUE (value_plan session) ks s.
Proof.
  revert s. induction ks as [|k ks IH]; intros s; [reflexivity|].
  cbn [for_values steps]. unfold bind at 1 3.
  assert (E : (if is_aqi k then pass
               else sensor_data <- _get_sensor session k ;;
                    store_latest k sensor_data) s
              = run_step ATTR_VALUE
                  (value_plan session k (dict_get hkey_eq_dec (_data s) k)) k s).
  { unfold value_plan, run_step. destruct (is_aqi k); [reflexivity|].
    unfold bind. rewrite get_sensor_run.
    destruct (dict_get hkey_eq_dec (_data s) k) as [entry|] eqn:Ek; [|reflexivity].
    destruct (dict_get string_dec entry ATTR_ID) as [id|]; [|reflexivity].
    rewrite async_get_run.
    assert (P : forall body,
               (let (c, s2) := fst (store_latest k body s) in
                (c, s2, [URL_SENSOR id] ++ snd (store_latest k body s)))
               = match fst (picked (pick body), [URL_SENSOR id]) with
                 | Skip => (Normal tt, s, [URL_SENSOR id])
                 | Store v =>
                     match store k ATTR_VALUE v s with
                     | (c, s', _) => (c, s', [URL_SENSOR id])
                     end
                 | Clear => (Return, set_data [] s, [URL_SENSOR id])
                 | Fail e => (Raise e, s, [URL_SENSOR id])
                 end).
    { intros body. rewrite store_latest_run. unfold picked.
      destruct (pick body) as [v|e]; cbn [fst snd].
      - rewrite store_run, Ek. reflexivity.
      - now destruct (caught_84 e). }
    destruct (session (URL_SENSOR id)) as [|status text body|text].
    - specialize (P JNull).
      destruct (store_latest k JNull s) as [[c s2] l2]. exact P.
    - destruct (status =? HTTP_OK)%Z; [|reflexivity].
      specialize (P body).
      destruct (store_latest k body s) as [[c s2] l2]. exact P.
    - reflexivity. }
  rewrite E.
  destruct (run_step ATTR_VALUE
              (value_plan session k (dict_get hkey_eq_dec (_data s) k)) k s)
    as [[[[]| |e] s1] l1]; try reflexivity.
  now rewrite IH.
Qed.

Lemma for_indexes_steps (indexes : json) (ks : list hkey) (s : Gios) :
  for_indexes indexes ks s = steps ATTR_INDEX (index_plan indexes) ks s.
Proof.
  revert s. induction ks as [|k ks IH]; intros s; [reflexivity|].
  cbn [for_indexes steps]. unfold bind at 1 6.
  assert (E : (if is_aqi k then pass
               else key <- eval (index_level k) ;;
                    level <- eval (getitem indexes key) ;;
                    name <- eval (getitem level "indexLevelName") ;;
                    index <- eval (lower_method name) ;;
                    store k ATTR_INDEX (JStr index)) s
              = run_step ATTR_INDEX
                  (index_plan indexes k (dict_get hkey_eq_dec (_data s) k)) k s).
  { unfold index_plan, run_step, index_of. destruct (is_aqi k); [reflexivity|].
    unfold bind, eval.
    destruct (index_level k) as [key|e]; [|reflexivity]. cbn [and_then].
    destruct (getitem indexes key) as [level|e]; [|reflexivity]. cbn [and_then].
    destruct (getitem level "indexLevelName") as [name|e]; [|reflexivity].
    cbn [and_then].
    destruct (lower_method name) as [index|e]; [|reflexivity].
    cbn [fst snd]. rewrite store_run.
    now destruct (dict_get hkey_eq_dec (_data s) k). }
  rewrite E.
  destruct (run_step ATTR_INDEX
              (index_plan indexes k (dict_get hkey_eq_dec (_data s) k)) k s)
    as [[[[]| |e] s1] l1]; try reflexivity.
  now rewrite IH.
Qed.
End Loops.

(** ** Effects of the loops on the reading *)

Lemma effect_bind {A B} (m : M A) (f : A -> M B) (s : Gios) :
  effect (bind m f) s =
  match effect m s with
  | (Normal a, s1) => effect (f a) s1
  | (Return, s1) => (Return, s1)
  | (Raise e, s1) => (Raise e, s1)
  end.
Proof.
  unfold effect, bind. destruct (m s) as [[[a| |e] s1] l1]; try reflexivity.
  cbn. now destruct (f a s1) as [[c s2] l2].
Qed.

Lemma effect_try {A} (body handler : M A) (classes : exn -> bool) (s : Gios) :
  effect (try_except body classes handler) s =
  match effect body s with
  | (Raise e, s1) => if classes e then effect handler s1 else (Raise e, s1)
  | r => r
  end.
Proof.
  unfold effect, try_except. destruct (body s) as [[[a| |e] s1] l1]; try reflexivity.
  cbn. destruct (classes e); [|reflexivity].
  now destruct (handler s1) as [[c s2] l2].
Qed.

Lemma run_step_effect (field : string) (st : step * list url) (k : hkey) (s : Gios) :
  effect (run_step field st k) s =
  match fst st with
  | Skip => (Normal tt, s)
  | Store v =>
      match dict_get hkey_eq_dec (_data s) k with
      | Some entry =>
          (Normal tt,
           set_data (dict_set hkey_eq_dec (_data s) k
                       (dict_set string_dec entry field v)) s)
      | None => (Raise KeyError, s)
      end
  | Clear => (Return, set_data [] s)
  | Fail e => (Raise e, s)
  end.
Proof.
  unfold effect, run_step. destruct (fst st); try reflexivity.
  rewrite store_run. now destruct (dict_get hkey_eq_dec (_data s) k).
Qed.

Lemma steps_cons_effect (field : string)
    (plan : hkey -> option record -> step * list url)
    (k : hkey) (ks : list hkey) (s : Gios) :
  effect (steps field plan (k :: ks)) s =
  match effect (run_step field (plan k (dict_get hkey_eq_dec (_data s) k)) k) s with
  | (Normal _, s1) => effect (steps field plan ks) s1
  | (Return, s1) => (Return, s1)
  | (Raise e, s1) => (Raise e, s1)
  end.
Proof. cbn [steps]. now rewrite effect_bind. Qed.

Section StepsFacts.
Variable field : string.
Variable plan : hkey -> option record -> step * list url.

(** A loop of stores leaves the keys in place, unless it clears the
    reading, and touches no other field of the object. *)
Lemma steps_shape (ks : list hkey) (s : Gios) :
  match effect (steps field plan ks) s with
  | (Return, s') => s' = set_data [] s
  | (_, s') => s' = set_data (_data s') s /\ keys (_data s') = keys (_data s)
  end.
Proof.
  revert s. induction ks as [|k ks IH]; intros s.
  - cbn. split; [now destruct s | reflexivity].
  - rewrite steps_cons_effect, run_step_effect.
    destruct (fst (plan k (dict_get hkey_eq_dec (_data s) k))) as [|v| |e].
    + apply IH.
    + destruct (dict_get hkey_eq_dec (_data s) k) as [entry|] eqn:Ek.
      * specialize (IH (set_data (dict_set hkey_eq_dec (_data s) k
                                   (dict_set string_dec entry field v)) s)).
        assert (Hk : keys (dict_set hkey_eq_dec (_data s) k
                             (dict_set string_dec entry field v)) = keys (_data s))
          by (apply keys_set_present; eapply dict_get_some; eassumption).
        destruct (effect (steps field plan ks) _) as [[a| |e] s'];
          cbn [_data set_data] in IH |- *; [|exact IH|];
          (split; [apply IH | now rewrite (proj2 IH)]).
      * split; [now destruct s | reflexivity].
    + reflexivity.
    + split; [now destruct s | reflexivity].
Qed.

Lemma has_field_store (f' : string) (P' : json -> Prop) (d : reading)
    (k k0 : hkey) (entry : record) (v : json) :
  dict_get hkey_eq_dec d k = Some entry ->
  f' <> field \/ P' v ->
  has_field f' P' d k0 ->
  has_field f' P' (dict_set hkey_eq_dec d k (dict_set string_dec entry field v)) k0.
Proof.
  intros Ek Hv (entry0 & v0 & E0 & Ef & Hp).
  destruct (hkey_eq_dec k0 k) as [->|N].
  - rewrite Ek in E0. injection E0 as <-.
    destruct (string_dec f' field) as [->|Nf].
    + exists (dict_set string_dec entry field v), v.
      rewrite !dict_get_set_same. intuition congruence.
    + exists (dict_set string_dec entry field v), v0.
      rewrite dict_get_set_same, dict_get_set_other by assumption. tauto.
  - exists entry0, v0. rewrite dict_get_set_other by assumption. tauto.
Qed.

(** Fields present before a loop are present after it. *)
Lemma steps_keep (f' : string) (P' : json -> Prop) (k0 : hkey)
    (ks : list hkey) (s : Gios) :
  f' <> field \/ (forall k entry v l, plan k entry = (Store v, l) -> P' v) ->
  has_field f' P' (_data s) k0 ->
  match effect (steps field plan ks) s with
  | (Return, _) => True
  | (_, s') => has_field f' P' (_data s') k0
  end.
Proof.
  intros Hv. revert s. induction ks as [|k ks IH]; intros s H0.
  - exact H0.
  - rewrite steps_cons_effect, run_step_effect.
    destruct (plan k (dict_get hkey_eq_dec (_data s) k)) as [st l] eqn:Ep.
    cbn [fst]. destruct st as [|v| |e]; try exact H0; [now apply IH| |exact I].
    destruct (dict_get hkey_eq_dec (_data s) k) as [entry|] eqn:Ek; [|exact H0].
    apply IH. cbn [_data set_data]. apply has_field_store; try assumption.
    destruct Hv as [Hv|Hv]; [now left | right; eapply Hv; eassumption].
Qed.

(** After a loop that ran to its end, every key it visited (the overall
    index apart) has the field the loop stores. *)
Lemma steps_stored (P : json -> Prop) (ks : list hkey) (s : Gios) :
  (forall k entry v l, plan k entry = (Store v, l) -> P v) ->
  (forall k entry l, is_aqi k = false -> plan k entry <> (Skip, l)) ->
  match effect (steps field plan ks) s with
  | (Normal _, s') =>
      forall k, In k ks -> is_aqi k = false -> has_field field P (_data s') k
  | _ => True
  end.
Proof.
  intros Hst Hsk. revert s. induction ks as [|k ks IH]; intros s.
  - cbn. intros k [].
  - rewrite steps_cons_effect, run_step_effect.
    destruct (plan k (dict_get hkey_eq_dec (_data s) k)) as [st l] eqn:Ep.
    cbn [fst]. destruct st as [|v| |e]; try exact I.
    + specialize (IH s).
      destruct (effect (steps field plan ks) s) as [[a| |e] s']; try exact I.
      intros k' [<-|Hin] Hk'; [|now apply IH].
      now destruct (Hsk _ _ _ Hk' Ep).
    + destruct (dict_get hkey_eq_dec (_data s) k) as [entry|] eqn:Ek; [|exact I].
      set (s1 := set_data _ s).
      specialize (IH s1).
      pose proof (steps_keep field P k ks s1 (or_intror Hst)) as Hk.
      destruct (effect (steps field plan ks) s1) as [[a| |e] s']; try exact I.
      intros k' [<-|Hin] Hk'; [|now apply IH].
      apply Hk. subst s1. cbn [_data set_data].
      exists (dict_set string_dec entry field v), v.
      rewrite !dict_get_set_same. split; [reflexivity|]. split; [reflexivity|].
      eapply Hst; eassumption.
Qed.
End StepsFacts.

(** ** The end of the cycle in closed form *)

Section Finish.
Variable session : url -> reply.

Lemma async_get_effect (u : url) (s : Gios) :
  effect (_async_get session u) s =
  (match fetched session u with Ok b => Normal b | Throws e => Raise e end, s).
Proof.
  unfold effect, fetched. rewrite async_get_run.
  destruct (session u) as [|status text body|text]; [reflexivity| |reflexivity].
  now destruct (status =? HTTP_OK)%Z.
Qed.

Lemma clear_effect (s : Gios) :
  effect (modify (set_data []) ;; @return_ unit) s = (Return, set_data [] s).
Proof. reflexivity. Qed.

Lemma finish_effect (s : Gios) :
  effect (finish session) s =
  match effect (steps ATTR_VALUE (value_plan session) (keys (_data s))) s with
  | (Normal _, s1) =>
      match fetched session (URL_INDEXES (station_id s1)) with
      | Ok indexes =>
          match effect (steps ATTR_INDEX (index_plan indexes) (keys (_data s1))) s1 with
          | (Normal _, s2) =>
              match overall indexes with
              | Ok value =>
                  (Normal tt,
                   set_data (dict_set hkey_eq_dec (_data s2) (HStr ATTR_AQI)
                               (aqi_record value)) s2)
              | Throws e =>
                  if caught_104 e then (Return, set_data [] s2)
                  else (Raise e,
                        set_data (dict_set hkey_eq_dec (_data s2) (HStr ATTR_AQI)
                                    [(ATTR_NAME, JStr ATTR_AQI)]) s2)
              end
          | (Return, s2) => (Return, s2)
          | (Raise e, s2) =>
              if caught_104 e then (Return, set_data [] s2) else (Raise e, s2)
          end
      | Throws e => (Raise e, s1)
      end
  | (Return, s1) => (Return, s1)
  | (Raise e, s1) => (Raise e, s1)
  end.
Proof.
  unfold finish. rewrite effect_bind. cbn [effect get fst].
  rewrite effect_bind.
  replace (effect (for_values session (keys (_data s))) s)
    with (effect (steps ATTR_VALUE (value_plan session) (keys (_data s))) s)
    by (unfold effect; now rewrite for_values_steps).
  destruct (effect (steps ATTR_VALUE (value_plan session) (keys (_data s))) s)
    as [[[]| |e] s1]; try reflexivity.
  rewrite effect_bind. unfold _get_indexes. rewrite effect_bind.
  cbn [effect get fst]. fold (effect (_async_get session (URL_INDEXES (station_id s1))) s1).
  rewrite async_get_effect.
  destruct (fetched session (URL_INDEXES (station_id s1))) as [indexes|e];
    [|reflexivity].
  rewrite effect_try, effect_bind. cbn [effect get fst].
  fold (effect (for_indexes indexes (keys (_data s1)) ;;
                d <- get _data ;;
                modify (set_data (dict_set hkey_eq_dec d (HStr ATTR_AQI)
                                    [(ATTR_NAME, JStr ATTR_AQI)])) ;;
                level <- eval (getitem indexes "stIndexLevel") ;;
                name <- eval (getitem level "indexLevelName") ;;
                value <- eval (lower_method name) ;;
                store (HStr ATTR_AQI) ATTR_VALUE (JStr value)) s1).
  rewrite effect_bind.
  replace (effect (for_indexes indexes (keys (_data s1))) s1)
    with (effect (steps ATTR_INDEX (index_plan indexes) (keys (_data s1))) s1)
    by (unfold effect; now rewrite for_indexes_steps).
  destruct (effect (steps ATTR_INDEX (index_plan indexes) (keys (_data s1))) s1)
    as [[[]| |e] s2]; [|reflexivity|destruct (caught_104 e); reflexivity].
  unfold overall, effect, bind, get, modify, eval.
  destruct (getitem indexes "stIndexLevel") as [level|e];
    [|destruct e; reflexivity].
  cbn [and_then].
  destruct (getitem level "indexLevelName") as [name|e];
    [|destruct e; reflexivity].
  cbn [and_then].
  destruct (lower_method name) as [value|e]; [|destruct e; reflexivity].
  rewrite store_run. cbn [_data set_data].
  rewrite dict_get_set_same, dict_set_twice. reflexivity.
Qed.
End Finish.

(** ** The whole cycle in closed form *)

Section Whole.
Variable session : url -> reply.

Lemma assemble_effect (s : Gios) :
  effect (assemble session) s =
  match fetched session (URL_STATION (station_id s)) with
  | Throws e => (Raise e, s)
  | Ok station_data =>
      if negb (truthy station_data) then (Return, set_data [] s)
      else
        match iter station_data with
        | Throws e => (Raise e, s)
        | Ok items =>
            let s1 := set_data (insert_all (fst (entries items)) (_data s)) s in
            match snd (entries items) with
            | Some e => (Raise e, s1)
            | None => effect (finish session) s1
            end
        end
  end.
Proof.
  change (assemble session)
    with (station_data <- _get_station session ;;
          (if negb (truthy station_data)
           then modify (set_data []) ;; return_ else pass) ;;
          items <- eval (iter station_data) ;;
          for_sensors items ;;
          finish session).
  rewrite effect_bind. unfold _get_station at 1.
  rewrite effect_bind. cbn [effect get fst].
  fold (effect (_async_get session (URL_STATION (station_id s))) s).
  rewrite async_get_effect.
  destruct (fetched session (URL_STATION (station_id s))) as [station_data|e];
    [|reflexivity].
  rewrite effect_bind.
  destruct (truthy station_data); cbn [negb]; [|reflexivity].
  cbn [effect pass ret fst]. rewrite effect_bind. cbn [effect eval fst].
  destruct (iter station_data) as [items|e]; [|reflexivity].
  rewrite effect_bind. unfold effect at 1. rewrite for_sensors_run. cbn [fst].
  now destruct (snd (entries items)).
Qed.

Lemma for_stations_frame (stations : list json) (s : Gios) :
  match for_stations stations s with
  | (_, s', _) => _data s' = _data s /\ station_id s' = station_id s
  end.
Proof.
  revert s. induction stations as [|st stations IH]; intros s; [now cbn|].
  cbn [for_stations]. unfold bind at 1. unfold eval at 1.
  destruct (getitem st ATTR_ID) as [id|e]; [|now cbn].
  unfold bind at 1. unfold get at 1.
  destruct (py_eq id (station_id s)).
  - unfold bind at 1. unfold bind at 1. unfold eval at 1.
    destruct (getitem st "gegrLat") as [lat|e]; [|now cbn].
    unfold bind at 1. unfold modify at 1.
    unfold bind at 1. unfold eval at 1.
    destruct (getitem st "gegrLon") as [lon|e]; [|now cbn].
    unfold bind at 1. unfold modify at 1.
    unfold bind at 1. unfold eval at 1.
    destruct (getitem st "stationName") as [name|e]; [|now cbn].
    unfold modify.
    specialize (IH (set_station_name name (set_longitude lon (set_latitude lat s)))).
    destruct (for_stations stations _) as [[c s'] l]. exact IH.
  - unfold bind, pass, ret. specialize (IH s).
    destruct (for_stations stations s) as [[c s'] l]. exact IH.
Qed.

(** Lines 40-57 leave the reading alone, and fall through only with a
    name cached. *)
Lemma resolve_frame (s : Gios) :
  match effect (resolve session) s with
  | (c, s') =>
      _data s' = _data s /\ station_id s' = station_id s
      /\ (c = Normal tt -> truthy (station_name s') = true)
      /\ (truthy (station_name s) = true -> c = Normal tt /\ s' = s)
  end.
Proof.
  unfold effect, resolve. unfold bind at 1. unfold get at 1.
  destruct (truthy (station_name s)) eqn:Hn; cbn [negb].
  - cbn. rewrite Hn. tauto.
  - unfold bind at 1. unfold _get_stations. rewrite async_get_run.
    assert (Hret : forall c (s' : Gios), _data s' = _data s ->
                     station_id s' = station_id s ->
                     (c = Normal tt -> truthy (station_name s') = true) ->
                     _data s' = _data s /\ station_id s' = station_id s
                     /\ (c = Normal tt -> truthy (station_name s') = true)
                     /\ (false = true -> c = Normal tt /\ s' = s))
      by (intros; repeat split; auto; discriminate).
    destruct (session URL_STATIONS) as [|status text body|text];
      [| |cbn; apply Hret; auto; discriminate].
    + cbn. apply Hret; auto. discriminate.
    + destruct (status =? HTTP_OK)%Z; [|cbn; apply Hret; auto; discriminate].
      unfold bind at 1.
      destruct (truthy body); cbn [negb];
        [|cbn; apply Hret; auto; discriminate].
      unfold pass, ret. unfold bind at 1. unfold eval at 1.
      destruct (iter body) as [items|e]; [|cbn; apply Hret; auto; discriminate].
      unfold bind at 1. pose proof (for_stations_frame items s) as F.
      destruct (for_stations items s) as [[[[]| |e] s1] l1];
        try (cbn; apply Hret; try apply F; discriminate).
      unfold bind, get.
      destruct (truthy (station_name s1)) eqn:Hn1; cbn;
        apply Hret; try apply F; try discriminate. auto.
Qed.

Lemma update_effect (s : Gios) :
  (result_of (update session s), state_of (update session s)) =
  match effect (resolve session) s with
  | (Normal _, s0) =>
      match effect (assemble session) s0 with
      | (Raise e, s') => (Raised e, s')
      | (_, s') => (Returned, s')
      end
  | (Return, s0) => (Returned, s0)
  | (Raise e, s0) => (Raised e, s0)
  end.
Proof.
  unfold update, call, update_body, result_of, state_of, effect, bind.
  destruct (resolve session s) as [[[[]| |e] s0] l0]; try reflexivity.
  cbn [fst]. destruct (assemble session s0) as [[[[]| |e] s'] l']; reflexivity.
Qed.
End Whole.

(** ** What the loops store *)

Lemma pick_truthy (sensor_data v : json) : pick sensor_data = Ok v -> is_truthy v.
Proof.
  unfold pick, is_truthy.
  destruct (getitem sensor_data "values") as [values|e]; [|discriminate].
  cbn [and_then].
  destruct (getindex values 0) as [first|e]; [|discriminate]. cbn [and_then].
  destruct (getitem first ATTR_VALUE) as [v0|e]; [|discriminate]. cbn [and_then].
  destruct (truthy v0) eqn:T0; [congruence|].
  destruct (getindex values 1) as [second|e]; [|discriminate]. cbn [and_then].
  destruct (getitem second ATTR_VALUE) as [v1|e]; [|discriminate]. cbn [and_then].
  destruct (truthy v1) eqn:T1; [congruence | discriminate].
Qed.

Lemma picked_store (r : result json) (v : json) : picked r = Store v -> r = Ok v.
Proof.
  destruct r as [v'|e]; cbn; [congruence|]. now destruct (caught_84 e).
Qed.

Lemma picked_not_skip (r : result json) : picked r <> Skip.
Proof. destruct r as [v'|e]; cbn; [discriminate|]. now destruct (caught_84 e). Qed.

Lemma value_plan_store (session : url -> reply) (k : hkey) (entry : option record)
    (v : json) (l : list url) :
  value_plan session k entry = (Store v, l) -> is_truthy v.
Proof.
  unfold value_plan. destruct (is_aqi k); [discriminate|].
  destruct entry as [entry|]; [|discriminate].
  destruct (dict_get string_dec entry ATTR_ID) as [id|]; [|discriminate].
  destruct (session (URL_SENSOR id)) as [|status text body|text];
    [| |discriminate].
  - cbn. discriminate.
  - destruct (status =? HTTP_OK)%Z; [|discriminate].
    intros [= E _]. apply picked_store in E. eapply pick_truthy; eassumption.
Qed.

Lemma value_plan_not_skip (session : url -> reply) (k : hkey)
    (entry : option record) (l : list url) :
  is_aqi k = false -> value_plan session k entry <> (Skip, l).
Proof.
  intros Hk. unfold value_plan. rewrite Hk.
  destruct entry as [entry|]; [|discriminate].
  destruct (dict_get string_dec entry ATTR_ID) as [id|]; [|discriminate].
  destruct (session (URL_SENSOR id)) as [|status text body|text];
    [| |discriminate].
  - cbn. discriminate.
  - destruct (status =? HTTP_OK)%Z; [|discriminate].
    intros [= E _]. now apply picked_not_skip in E.
Qed.

Lemma index_plan_store (indexes : json) (k : hkey) (entry : option record)
    (v : json) (l : list url) :
  index_plan indexes k entry = (Store v, l) -> is_str v.
Proof.
  unfold index_plan. destruct (is_aqi k); [discriminate|].
  destruct (index_of indexes k) as [index|e]; [|discriminate].
  intros [= <- _]. now exists index.
Qed.

Lemma index_plan_not_skip (indexes : json) (k : hkey) (entry : option record)
    (l : list url) :
  is_aqi k = false -> index_plan indexes k entry <> (Skip, l).
Proof.
  intros Hk. unfold index_plan. rewrite Hk.
  destruct (index_of indexes k); discriminate.
Qed.

Lemma index_plan_no_clear (indexes : json) (k : hkey) (entry : option record) :
  fst (index_plan indexes k entry) <> Clear.
Proof.
  unfold index_plan. destruct (is_aqi k); [discriminate|].
  destruct (index_of indexes k); discriminate.
Qed.

Lemma keys_set_any {K V : Type} (dec : forall a b : K, {a = b} + {a <> b})
    (d d' : list (K * V)) (k : K) (v v' : V) :
  keys d = keys d' -> keys (dict_set dec d k v) = keys (dict_set dec d' k v').
Proof. intros E. rewrite !keys_set, E. reflexivity. Qed.

Section FinishFacts.
Variable session : url -> reply.

(** How the end of the cycle leaves the reading: complete, cleared, or,
    when an exception passes, with its keys and possibly the overall
    index added. *)
Lemma finish_cases (s : Gios) :
  match effect (finish session) s with
  | (Normal _, s') =>
      exists indexes value d2,
        fetched session (URL_INDEXES (station_id s)) = Ok indexes
        /\ overall indexes = Ok value
        /\ keys d2 = keys (_data s)
        /\ s' = set_data (dict_set hkey_eq_dec d2 (HStr ATTR_AQI) (aqi_record value)) s
        /\ forall k, In k (keys d2) -> is_aqi k = false ->
             has_field ATTR_VALUE is_truthy d2 k /\ has_field ATTR_INDEX is_str d2 k
  | (Return, s') => s' = set_data [] s
  | (Raise e, s') =>
      s' = set_data (_data s') s
      /\ (keys (_data s') = keys (_data s)
          \/ keys (_data s') = keys (dict_set hkey_eq_dec (_data s) (HStr ATTR_AQI) []))
  end.
Proof.
  rewrite finish_effect.
  pose proof (steps_shape ATTR_VALUE (value_plan session) (keys (_data s)) s) as Sh1.
  pose proof (steps_stored ATTR_VALUE (value_plan session) is_truthy (keys (_data s)) s
                (value_plan_store session) (value_plan_not_skip session)) as St1.
  destruct (effect (steps ATTR_VALUE (value_plan session) (keys (_data s))) s)
    as [[[]| |e] s1]; [|exact Sh1|split; [apply Sh1 | left; apply Sh1]].
  destruct Sh1 as [E1 K1].
  assert (Eid : station_id s1 = station_id s) by now rewrite E1.
  rewrite Eid.
  destruct (fetched session (URL_INDEXES (station_id s))) as [indexes|e];
    [|split; [exact E1 | now left]].
  pose proof (steps_shape ATTR_INDEX (index_plan indexes) (keys (_data s1)) s1) as Sh2.
  pose proof (steps_stored ATTR_INDEX (index_plan indexes) is_str (keys (_data s1)) s1
                (index_plan_store indexes) (index_plan_not_skip indexes)) as St2.
  assert (Kp : forall k, In k (keys (_data s)) -> is_aqi k = false ->
               match effect (steps ATTR_INDEX (index_plan indexes) (keys (_data s1))) s1 with
               | (Return, _) => True
               | (_, s2) => has_field ATTR_VALUE is_truthy (_data s2) k
               end).
  { intros k Hin Hk. apply steps_keep; [left; discriminate|]. now apply St1. }
  destruct (effect (steps ATTR_INDEX (index_plan indexes) (keys (_data s1))) s1)
    as [[[]| |e] s2].
  - destruct Sh2 as [E2 K2].
    assert (E2' : s2 = set_data (_data s2) s) by (rewrite E2, E1; reflexivity).
    destruct (overall indexes) as [value|e] eqn:Eo.
    + exists indexes, value, (_data s2).
      split; [reflexivity|]. split; [exact Eo|].
      split; [now rewrite K2|]. split; [rewrite E2'; reflexivity|].
      intros k Hin Hk. split.
      * apply Kp; [rewrite <- K1, <- K2|]; assumption.
      * apply St2; [rewrite <- K2|]; assumption.
    + destruct (caught_104 e).
      * rewrite E2'. reflexivity.
      * cbn [_data set_data]. split; [rewrite E2'; reflexivity|].
        right. apply keys_set_any. now rewrite K2.
  - rewrite Sh2, E1. reflexivity.
  - destruct Sh2 as [E2 K2]. destruct (caught_104 e).
    + rewrite E2, E1. reflexivity.
    + split; [rewrite E2, E1; reflexivity | left; now rewrite K2].
Qed.
End FinishFacts.

(** ** The sensor list *)

Lemma nodup_insert_all (kvs : list (hkey * record)) (d : reading) :
  NoDup (keys d) -> NoDup (keys (insert_all kvs d)).
Proof.
  revert d. induction kvs as [|[k v] kvs IH]; intros d H; [exact H|].
  cbn. apply IH. now apply nodup_keys_set.
Qed.

Lemma in_keys_insert_all (kvs : list (hkey * record)) (d : reading) (k : hkey) :
  In k (keys (insert_all kvs d)) <-> In k (keys d) \/ In k (map fst kvs).
Proof.
  revert d. induction kvs as [|[k0 v0] kvs IH]; intros d; [cbn; tauto|].
  change (insert_all ((k0, v0) :: kvs) d)
    with (insert_all kvs (dict_set hkey_eq_dec d k0 v0)).
  rewrite IH, in_keys_set. cbn. intuition congruence.
Qed.

Lemma entries_codes (items : list json) :
  snd (entries items) = None -> Forall2 code_of items (map fst (fst (entries items))).
Proof.
  induction items as [|sensor rest IH]; cbn [entries]; [constructor|].
  unfold sensor_entry.
  destruct (getitem sensor ATTR_ID) as [id|e]; [|discriminate]. cbn [and_then].
  destruct (getitem sensor "param") as [param|e] eqn:Ep; [|discriminate].
  cbn [and_then].
  destruct (getitem param "paramName") as [name|e]; [|discriminate].
  cbn [and_then].
  destruct (getitem param "paramCode") as [code|e] eqn:Ec; [|discriminate].
  cbn [and_then]. unfold hash.
  destruct (hash_key code) as [key|] eqn:Eh; [|discriminate]. cbn [and_then].
  destruct (entries rest) as [kvs err]. cbn [fst snd map] in *.
  intros H. constructor; [|now apply IH].
  exists param, code. rewrite Ep. auto.
Qed.

Lemma entries_of_array (x : json) (items : list json) :
  truthy x = true -> iter x = Ok items -> snd (entries items) = None ->
  x = JArr items.
Proof.
  destruct x; cbn; try discriminate.
  - destruct s as [|c s]; [discriminate|]. intros _ [= <-]. discriminate.
  - congruence.
  - destruct m as [|[k v] m]; [discriminate|]. intros _ [= <-]. discriminate.
Qed.

Lemma fetched_array (session : url -> reply) (u : url) (items : list json) :
  fetched session u = Ok (JArr items) ->
  exists text, session u = Response HTTP_OK text (JArr items).
Proof.
  unfold fetched.
  destruct (session u) as [|status text body|text]; [discriminate| |discriminate].
  destruct (status =? HTTP_OK)%Z eqn:E; [|discriminate].
  apply Z.eqb_eq in E. intros [= ->]. subst. now exists text.
Qed.

Lemma fetched_document (session : url -> reply) (u : url) (body : json) :
  fetched session u = Ok body -> body <> JNull ->
  exists text, session u = Response HTTP_OK text body.
Proof.
  unfold fetched.
  destruct (session u) as [|status text body'|text]; [congruence| |discriminate].
  destruct (status =? HTTP_OK)%Z eqn:E; [|discriminate].
  apply Z.eqb_eq in E. intros [= ->] _. subst. now exists text.
Qed.

Section AssembleFacts.
Variable session : url -> reply.

(** How lines 59-107 leave the reading. *)
Lemma assemble_cases (s : Gios) :
  match effect (assemble session) s with
  | (Normal _, s') =>
      exists text items indexes value d2,
        session (URL_STATION (station_id s)) = Response HTTP_OK text (JArr items)
        /\ snd (entries items) = None
        /\ fetched session (URL_INDEXES (station_id s)) = Ok indexes
        /\ overall indexes = Ok value
        /\ keys d2 = keys (insert_all (fst (entries items)) (_data s))
        /\ s' = set_data (dict_set hkey_eq_dec d2 (HStr ATTR_AQI) (aqi_record value)) s
        /\ forall k, In k (keys d2) -> is_aqi k = false ->
             has_field ATTR_VALUE is_truthy d2 k /\ has_field ATTR_INDEX is_str d2 k
  | (Return, s') => s' = set_data [] s
  | (Raise e, s') =>
      s' = set_data (_data s') s
      /\ (NoDup (keys (_data s)) -> NoDup (keys (_data s')))
  end.
Proof.
  rewrite assemble_effect.
  destruct (fetched session (URL_STATION (station_id s))) as [station_data|e] eqn:Ef;
    [|split; [now destruct s | tauto]].
  destruct (truthy station_data) eqn:Tr; cbn [negb]; [|reflexivity].
  destruct (iter station_data) as [items|e] eqn:Ei; [|split; [now destruct s | tauto]].
  cbv zeta.
  destruct (snd (entries items)) as [e|] eqn:Ee.
  { cbn [_data set_data]. split; [reflexivity | apply nodup_insert_all]. }
  set (s1 := set_data (insert_all (fst (entries items)) (_data s)) s).
  pose proof (finish_cases session s1) as F.
  destruct (effect (finish session) s1) as [[[]| |e] s'].
  - destruct F as (indexes & value & d2 & Hf & Ho & Hk & Hs & Hp).
    pose proof (entries_of_array _ _ Tr Ei Ee) as ->.
    destruct (fetched_array _ _ _ Ef) as [text Hst].
    exists text, items, indexes, value, d2.
    subst s1. cbn [_data set_data station_id] in *. auto 10.
  - subst s1. rewrite F. reflexivity.
  - subst s1. destruct F as [E [K|K]]; cbn [_data set_data] in *.
    + split; [rewrite E; reflexivity|]. intros N. rewrite K.
      now apply nodup_insert_all.
    + split; [rewrite E; reflexivity|]. intros N. rewrite K.
      now apply nodup_keys_set, nodup_insert_all.
Qed.

Lemma update_consistent (id : json) (s : Gios) :
  consistent id s -> consistent id (state_of (update session s)).
Proof.
  intros (Hid & He & Hn).
  pose proof (update_effect session s) as U.
  pose proof (resolve_frame session s) as R.
  destruct (effect (resolve session) s) as [c s0].
  destruct R as (Rd & Ri & Rn & Rc).
  assert (Stop : c <> Normal tt -> consistent id s0).
  { intros Hc. split; [congruence|]. split; [|now rewrite Rd].
    intros _. rewrite Rd. apply He.
    destruct (truthy (station_name s)); [|reflexivity].
    now destruct (Rc eq_refl). }
  destruct c as [[]| |e].
  - pose proof (assemble_cases s0) as A.
    assert (Name : forall d, truthy (station_name (set_data d s0)) = false ->
                     _data (set_data d s0) = [])
      by (intros d; cbn; rewrite (Rn eq_refl); discriminate).
    assert (Id : forall d, station_id (set_data d s0) = id)
      by (intros d; cbn; congruence).
    destruct (effect (assemble session) s0) as [[[]| |e] s'];
      injection U as _ ->.
    + destruct A as (text & items & indexes & value & d2 & _ & _ & _ & _ & K & -> & _).
      split; [apply Id|]. split; [apply Name|].
      cbn [_data set_data]. apply nodup_keys_set. rewrite K.
      apply nodup_insert_all. now rewrite Rd.
    + rewrite A. split; [apply Id|]. split; [apply Name | constructor].
    + destruct A as [E N]. rewrite E.
      split; [apply Id|]. split; [apply Name|].
      cbn [_data set_data]. apply N. now rewrite Rd.
  - injection U as _ ->. now apply Stop.
  - injection U as _ ->. now apply Stop.
Qed.
End AssembleFacts.

Lemma reachable_consistent (id : json) (s : Gios) :
  reachable id s -> consistent id s.
Proof.
  induction 1 as [|session self _ IH].
  - split; [reflexivity|]. split; [reflexivity | constructor].
  - now apply update_consistent.
Qed.

(** A cycle that returns with a reading ran lines 59-107 to their end. *)
Lemma update_success (session : url -> reply) (id : json) (self s' : Gios)
    (l : list url) :
  reachable id self ->
  update session self = (Returned, s', l) ->
  data s' <> [] ->
  exists s0,
    _data s0 = _data self /\ station_id s0 = id
    /\ effect (assemble session) s0 = (Normal tt, s').
Proof.
  intros Hr Hu Hd. apply reachable_consistent in Hr. destruct Hr as (Hid & He & Hn).
  pose proof (update_effect session self) as U. rewrite Hu in U.
  cbn [result_of state_of fst snd] in U.
  pose proof (resolve_frame session self) as R.
  destruct (effect (resolve session) self) as [c s0].
  destruct R as (Rd & Ri & Rn & Rc).
  destruct c as [[]| |e]; [| |discriminate].
  - exists s0. split; [exact Rd|]. split; [congruence|].
    pose proof (assemble_cases session s0) as A.
    destruct (effect (assemble session) s0) as [[[]| |e] s1]; [| |discriminate].
    + congruence.
    + injection U as <-. rewrite A in Hd. now destruct Hd.
  - injection U as <-. destruct Hd. unfold data. rewrite Rd. apply He.
    destruct (truthy (station_name self)); [|reflexivity].
    now destruct (Rc eq_refl).
Qed.

Lemma is_aqi_false (k : hkey) : k <> HStr ATTR_AQI -> is_aqi k = false.
Proof. intros N. unfold is_aqi. now destruct (hkey_eq_dec k (HStr ATTR_AQI)). Qed.

Lemma has_field_weaken (field : string) (P Q : json -> Prop) (d : reading) (k : hkey) :
  (forall v, P v -> Q v) -> has_field field P d k -> has_field field Q d k.
Proof. intros H (entry & v & E & F & Hp). exists entry, v. auto. Qed.

Lemma has_field_set_other (field : string) (P : json -> Prop) (d : reading)
    (k k0 : hkey) (r : record) :
  k <> k0 -> has_field field P d k ->
  has_field field P (dict_set hkey_eq_dec d k0 r) k.
Proof.
  intros N (entry & v & E & F & Hp). exists entry, v.
  rewrite dict_get_set_other by assumption. auto.
Qed.

Lemma overall_ok (indexes : json) (value : string) :
  overall indexes = Ok value ->
  exists level name,
    getitem indexes "stIndexLevel" = Ok level
    /\ getitem level "indexLevelName" = Ok (JStr name)
    /\ value = lower name.
Proof.
  unfold overall.
  destruct (getitem indexes "stIndexLevel") as [level|e] eqn:El; [|discriminate].
  cbn [and_then].
  destruct (getitem level "indexLevelName") as [name|e] eqn:En; [|discriminate].
  cbn [and_then]. destruct name; try discriminate.
  cbn. intros [= <-]. exists level, s. auto.
Qed.

(** C9. After a cycle that returns with a non-empty reading, every key but
    AQI holds a record whose value and index fields are present and not
    null, and the record under AQI is exactly name: AQI, value: the
    lowercased level name of the station's overall index. *)
Theorem successful_reading_complete (session : url -> reply) (id : json)
    (self s' : Gios) (l : list url) :
  reachable id self ->
  update session self = (Returned, s', l) ->
  data s' <> [] ->
  (forall k, In k (keys (data s')) -> k <> HStr ATTR_AQI ->
     has_field ATTR_VALUE (fun v => v <> JNull) (data s') k
     /\ has_field ATTR_INDEX (fun v => v <> JNull) (data s') k)
  /\ exists text indexes level name,
       session (URL_INDEXES id) = Response HTTP_OK text indexes
       /\ getitem indexes "stIndexLevel" = Ok level
       /\ getitem level "indexLevelName" = Ok (JStr name)
       /\ dict_get hkey_eq_dec (data s') (HStr ATTR_AQI)
          = Some [(ATTR_NAME, JStr ATTR_AQI); (ATTR_VALUE, JStr (lower name))].
Proof.
  intros Hr Hu Hd.
  destruct (update_success session id self s' l Hr Hu Hd) as (s0 & Ed & Eid & Ea).
  pose proof (assemble_cases session s0) as A. rewrite Ea in A.
  destruct A as (text & items & indexes & value & d2 & _ & _ & Hf & Ho & _ & -> & Hp).
  unfold data. cbn [_data set_data]. split.
  - intros k Hin Hk. apply in_keys_set in Hin. destruct Hin as [Hin|]; [|contradiction].
    destruct (Hp k Hin (is_aqi_false k Hk)) as [Hv Hi]. split.
    + apply has_field_set_other; [assumption|].
      apply (has_field_weaken _ is_truthy); [|assumption].
      intros v Hv' ->. discriminate.
    + apply has_field_set_other; [assumption|].
      apply (has_field_weaken _ is_str); [|assumption].
      intros v [i ->]. discriminate.
  - destruct (overall_ok _ _ Ho) as (level & name & Hl & Hn & ->).
    assert (Hnn : indexes <> JNull) by (intros ->; discriminate).
    rewrite Eid in Hf. destruct (fetched_document _ _ _ Hf Hnn) as [text' Hs].
    exists text', indexes, level, name. rewrite dict_get_set_same. auto.
Qed.

Lemma successful_reading_complete_witness :
  let self := __init__ (JInt 117) in
  let s' := state_of (update two_sensors self) in
  (forall k, In k (keys (data s')) -> k <> HStr ATTR_AQI ->
     has_field ATTR_VALUE (fun v => v <> JNull) (data s') k
     /\ has_field ATTR_INDEX (fun v => v <> JNull) (data s') k)
  /\ exists text indexes level name,
       two_sensors (URL_INDEXES (JInt 117)) = Response HTTP_OK text indexes
       /\ getitem indexes "stIndexLevel" = Ok level
       /\ getitem level "indexLevelName" = Ok (JStr name)
       /\ dict_get hkey_eq_dec (data s') (HStr ATTR_AQI)
          = Some [(ATTR_NAME, JStr ATTR_AQI); (ATTR_VALUE, JStr (lower name))].
Proof.
  apply (successful_reading_complete two_sensors (JInt 117) (__init__ (JInt 117))
           (state_of (update two_sensors (__init__ (JInt 117))))
           (requests_of (update two_sensors (__init__ (JInt 117))))).
  - apply reach_init.
  - vm_compute. reflexivity.
  - vm_compute. discriminate.
Defined.

(** C8, as the code has it. A cycle does not start from an empty mapping:
    line 65 files this cycle's sensors into the reading as it stands.  After
    a cycle that returns with a non-empty reading, the keys are those held
    before the call, the pollutant codes of this cycle's sensor list and
    AQI; on a reader whose reading was empty they are the codes and AQI
    alone. *)
Theorem reading_keys_after_success (session : url -> reply) (id : json)
    (self s' : Gios) (l : list url) :
  reachable id self ->
  update session self = (Returned, s', l) ->
  data s' <> [] ->
  exists text items codes,
    session (URL_STATION id) = Response HTTP_OK text (JArr items)
    /\ Forall2 code_of items codes
    /\ (forall k, In k (keys (data s')) <->
                  In k (keys (data self)) \/ In k codes \/ k = HStr ATTR_AQI)
    /\ (data self = [] ->
        forall k, In k (keys (data s')) <-> In k codes \/ k = HStr ATTR_AQI).
Proof.
  intros Hr Hu Hd.
  destruct (update_success session id self s' l Hr Hu Hd) as (s0 & Ed & Eid & Ea).
  pose proof (assemble_cases session s0) as A. rewrite Ea in A.
  destruct A as (text & items & indexes & value & d2 & Hs & He & _ & _ & K & -> & _).
  exists text, items, (map fst (fst (entries items))).
  rewrite Eid in Hs. split; [exact Hs|]. split; [now apply entries_codes|].
  unfold data in *. cbn [_data set_data].
  assert (M : forall k,
             In k (keys (dict_set hkey_eq_dec d2 (HStr ATTR_AQI) (aqi_record value))) <->
             In k (keys (_data self)) \/ In k (map fst (fst (entries items)))
             \/ k = HStr ATTR_AQI).
  { intros k. rewrite in_keys_set, K, in_keys_insert_all, Ed. tauto. }
  split; [exact M|].
  intros E k. rewrite M, E. cbn. tauto.
Qed.

Lemma reading_keys_after_success_witness :
  let self := state_of (update two_sensors (__init__ (JInt 117))) in
  let s' := state_of (update sensor_unlisted self) in
  exists text items codes,
    sensor_unlisted (URL_STATION (JInt 117)) = Response HTTP_OK text (JArr items)
    /\ Forall2 code_of items codes
    /\ (forall k, In k (keys (data s')) <->
                  In k (keys (data self)) \/ In k codes \/ k = HStr ATTR_AQI)
    /\ (data self = [] ->
        forall k, In k (keys (data s')) <-> In k codes \/ k = HStr ATTR_AQI).
Proof.
  apply (reading_keys_after_success sensor_unlisted (JInt 117)
           (state_of (update two_sensors (__init__ (JInt 117))))
           (state_of (update sensor_unlisted
                        (state_of (update two_sensors (__init__ (JInt 117))))))
           (requests_of (update sensor_unlisted
                           (state_of (update two_sensors (__init__ (JInt 117))))))).
  - apply reach_update, reach_init.
  - vm_compute. reflexivity.
  - vm_compute. discriminate.
Defined.

(** ** Filing the same sensor list twice *)

Lemma dict_set_app_absent {K V : Type} (dec : forall a b : K, {a = b} + {a <> b})
    (d : list (K * V)) (k : K) (r v : V) :
  ~ In k (keys d) -> dict_set dec (d ++ [(k, r)]) k v = d ++ [(k, v)].
Proof.
  induction d as [|[k' v'] d IH]; cbn.
  - intros _. now destruct (dec k k).
  - destruct (dec k k') as [->|N]; [tauto|]. intros H. f_equal. apply IH. tauto.
Qed.

Lemma dict_get_insert_all (kvs : list (hkey * record)) (d : reading) (k : hkey) :
  dict_get hkey_eq_dec (insert_all kvs d) k =
  match dict_get hkey_eq_dec (rev kvs) k with
  | Some v => Some v
  | None => dict_get hkey_eq_dec d k
  end.
Proof.
  revert d. induction kvs as [|[k0 v0] kvs IH]; intros d; [reflexivity|].
  change (insert_all ((k0, v0) :: kvs) d)
    with (insert_all kvs (dict_set hkey_eq_dec d k0 v0)).
  rewrite IH. cbn [rev]. rewrite dict_get_app.
  destruct (dict_get hkey_eq_dec (rev kvs) k); [reflexivity|].
  cbn. destruct (hkey_eq_dec k k0) as [->|N].
  - apply dict_get_set_same.
  - now apply dict_get_set_other.
Qed.

Lemma in_rev_keys (kvs : list (hkey * record)) (k : hkey) :
  In k (map fst kvs) -> exists v, dict_get hkey_eq_dec (rev kvs) k = Some v.
Proof.
  intros H. destruct (dict_get hkey_eq_dec (rev kvs) k) as [v|] eqn:E;
    [now exists v|].
  apply dict_get_none in E. destruct E. unfold keys.
  rewrite map_rev, <- in_rev. exact H.
Qed.

Lemma keys_insert_all_present (kvs : list (hkey * record)) (d : reading) :
  (forall k, In k (map fst kvs) -> In k (keys d)) ->
  keys (insert_all kvs d) = keys d.
Proof.
  revert d. induction kvs as [|[k0 v0] kvs IH]; intros d H; [reflexivity|].
  change (insert_all ((k0, v0) :: kvs) d)
    with (insert_all kvs (dict_set hkey_eq_dec d k0 v0)).
  assert (E : keys (dict_set hkey_eq_dec d k0 v0) = keys d)
    by (apply keys_set_present, H; now left).
  rewrite IH, E; [reflexivity|]. intros k Hk. rewrite E. apply H. now right.
Qed.

(** Filing a sensor list into a reading that has exactly the keys the list
    gives an empty reading restores the records of the list. *)
Lemma insert_all_restore (kvs : list (hkey * record)) (d : reading) :
  keys d = keys (insert_all kvs []) -> insert_all kvs d = insert_all kvs [].
Proof.
  intros Hk.
  assert (Hin : forall k, In k (keys d) <-> In k (map fst kvs)).
  { intros k. rewrite Hk, in_keys_insert_all. cbn. tauto. }
  assert (Hk' : keys (insert_all kvs d) = keys d)
    by (apply keys_insert_all_present; intros k; apply Hin).
  apply (dict_ext hkey_eq_dec).
  - congruence.
  - rewrite Hk', Hk. apply nodup_insert_all. constructor.
  - intros k Hik. rewrite Hk' in Hik. apply Hin in Hik.
    destruct (in_rev_keys _ _ Hik) as [v Hv].
    now rewrite !dict_get_insert_all, Hv.
Qed.

(** The same when the reading has one more key, at its end. *)
Lemma insert_all_restore_tail (kvs : list (hkey * record)) (d : reading)
    (k0 : hkey) (r : record) :
  keys d = keys (insert_all kvs []) ++ [k0] ->
  ~ In k0 (keys (insert_all kvs [])) ->
  dict_get hkey_eq_dec d k0 = Some r ->
  insert_all kvs d = insert_all kvs [] ++ [(k0, r)].
Proof.
  intros Hk Hn Hr.
  assert (Hin : forall k, In k (map fst kvs) <-> In k (keys (insert_all kvs []))).
  { intros k. rewrite in_keys_insert_all. cbn. tauto. }
  assert (Hk' : keys (insert_all kvs d) = keys d).
  { apply keys_insert_all_present. intros k Hik. rewrite Hk, in_app_iff.
    left. now apply Hin. }
  assert (Hka : keys (insert_all kvs [] ++ [(k0, r)]) = keys d)
    by (unfold keys; rewrite map_app; exact (eq_sym Hk)).
  apply (dict_ext hkey_eq_dec).
  - congruence.
  - rewrite Hk', Hk. apply NoDup_app.
    + apply nodup_insert_all. constructor.
    + repeat constructor. tauto.
    + intros x Hx [<-|[]]. contradiction.
  - intros k Hik. rewrite Hk', Hk, in_app_iff in Hik.
    rewrite dict_get_app, !dict_get_insert_all.
    destruct Hik as [Hik|[<-|[]]].
    + apply Hin in Hik. destruct (in_rev_keys _ _ Hik) as [v Hv]. now rewrite Hv.
    + assert (E : dict_get hkey_eq_dec (rev kvs) k0 = None).
      { apply dict_get_none. unfold keys. rewrite map_rev, <- in_rev.
        intros H. apply Hn. now apply Hin. }
      rewrite E, Hr. cbn. now destruct (hkey_eq_dec k0 k0).
Qed.

(** ** A reading with the overall index of the cycle before at its end *)

Lemma dict_get_tail (d : reading) (k : hkey) (r : record) :
  is_aqi k = false ->
  dict_get hkey_eq_dec (d ++ [(HStr ATTR_AQI, r)]) k = dict_get hkey_eq_dec d k.
Proof.
  intros Hk. rewrite dict_get_app.
  destruct (dict_get hkey_eq_dec d k); [reflexivity|].
  cbn. unfold is_aqi in Hk.
  now destruct (hkey_eq_dec k (HStr ATTR_AQI)).
Qed.

Lemma value_plan_skips (session : url -> reply) : skips_aqi (value_plan session).
Proof. intros k entry Hk. unfold value_plan. now rewrite Hk. Qed.

Lemma index_plan_skips (indexes : json) : skips_aqi (index_plan indexes).
Proof. intros k entry Hk. unfold index_plan. now rewrite Hk. Qed.

Section Tail.
Variable field : string.
Variable plan : hkey -> option record -> step * list url.
Hypothesis plan_skips : skips_aqi plan.
Variable r : record.

(** The loop runs on the longer reading as on the shorter one, the last
    entry staying where it is. *)
Lemma steps_tail (ks : list hkey) (s : Gios) :
  effect (steps field plan ks) (set_data (_data s ++ [(HStr ATTR_AQI, r)]) s) =
  match effect (steps field plan ks) s with
  | (Return, s') => (Return, s')
  | (c, s') => (c, set_data (_data s' ++ [(HStr ATTR_AQI, r)]) s')
  end.
Proof.
  revert s. induction ks as [|k ks IH]; intros s; [reflexivity|].
  rewrite !steps_cons_effect, !run_step_effect. cbn [_data set_data].
  destruct (is_aqi k) eqn:Hk.
  - rewrite !(plan_skips _ _ Hk). cbn [fst]. apply IH.
  - rewrite (dict_get_tail _ _ _ Hk).
    destruct (fst (plan k (dict_get hkey_eq_dec (_data s) k))) as [|v| |e];
      [apply IH| |reflexivity|reflexivity].
    destruct (dict_get hkey_eq_dec (_data s) k) as [entry|] eqn:Ek; [|reflexivity].
    rewrite dict_set_app by (eapply dict_get_some; eassumption).
    apply (IH (set_data (dict_set hkey_eq_dec (_data s) k
                           (dict_set string_dec entry field v)) s)).
Qed.

Lemma steps_snoc_aqi (ks : list hkey) (s : Gios) :
  effect (steps field plan (ks ++ [HStr ATTR_AQI])) s = effect (steps field plan ks) s.
Proof.
  revert s. induction ks as [|k ks IH]; intros s.
  - cbn [app]. rewrite steps_cons_effect, run_step_effect.
    now rewrite (plan_skips (HStr ATTR_AQI) _ eq_refl).
  - cbn [app]. rewrite !steps_cons_effect.
    destruct (effect (run_step field (plan k (dict_get hkey_eq_dec (_data s) k)) k) s)
      as [[[]| |e] s1]; [apply IH | reflexivity | reflexivity].
Qed.
End Tail.

Lemma keys_snoc (d : reading) (k : hkey) (r : record) :
  keys (d ++ [(k, r)]) = keys d ++ [k].
Proof. unfold keys. now rewrite map_app. Qed.

Section FinishTail.
Variable session : url -> reply.

(** The end of the cycle on a reading that has the overall index of the
    cycle before as its last entry: the same completion, and the same
    reading unless the run on the shorter reading stopped before line 100. *)
Lemma finish_tail (s : Gios) (r : record) :
  ~ In (HStr ATTR_AQI) (keys (_data s)) ->
  match effect (finish session) s,
        effect (finish session) (set_data (_data s ++ [(HStr ATTR_AQI, r)]) s) with
  | (ca, sa), (cb, sb) =>
      cb = ca /\ (sb = sa \/ keys (_data sa) = keys (_data s))
  end.
Proof.
  intros Hn. rewrite !finish_effect. cbn [_data set_data].
  rewrite keys_snoc, (steps_snoc_aqi _ _ (value_plan_skips session)),
    (steps_tail _ _ (value_plan_skips session)).
  pose proof (steps_shape ATTR_VALUE (value_plan session) (keys (_data s)) s) as Sh1.
  destruct (effect (steps ATTR_VALUE (value_plan session) (keys (_data s))) s)
    as [[[]| |e] s1]; [|now split; [|left]|split; [reflexivity | right; apply Sh1]].
  destruct Sh1 as [E1 K1]. cbn [_data set_data station_id].
  destruct (fetched session (URL_INDEXES (station_id s1))) as [indexes|e];
    [|split; [reflexivity | now right]].
  rewrite keys_snoc, (steps_snoc_aqi _ _ (index_plan_skips indexes)),
    (steps_tail _ _ (index_plan_skips indexes)).
  pose proof (steps_shape ATTR_INDEX (index_plan indexes) (keys (_data s1)) s1) as Sh2.
  destruct (effect (steps ATTR_INDEX (index_plan indexes) (keys (_data s1))) s1)
    as [[[]| |e] s2].
  - destruct Sh2 as [E2 K2]. cbn [_data set_data].
    assert (Hn2 : ~ In (HStr ATTR_AQI) (keys (_data s2))) by now rewrite K2, K1.
    assert (Eq : forall v,
               set_data (dict_set hkey_eq_dec (_data s2 ++ [(HStr ATTR_AQI, r)])
                           (HStr ATTR_AQI) v)
                 (set_data (_data s2 ++ [(HStr ATTR_AQI, r)]) s2)
               = set_data (dict_set hkey_eq_dec (_data s2) (HStr ATTR_AQI) v) s2).
    { intros v. rewrite dict_set_app_absent, dict_set_absent by assumption.
      reflexivity. }
    destruct (overall indexes) as [value|e].
    + split; [reflexivity | left; apply Eq].
    + destruct (caught_104 e); split; try reflexivity; left;
        [reflexivity | apply Eq].
  - split; [reflexivity | now left].
  - destruct Sh2 as [E2 K2]. destruct (caught_104 e).
    + split; [reflexivity | now left].
    + split; [reflexivity | right; now rewrite K2].
Qed.

(** How the end of the cycle leaves the keys. *)
Lemma finish_keys (s : Gios) :
  match effect (finish session) s with
  | (_, s') =>
      s' = set_data (_data s') s
      /\ (_data s' = []
          \/ keys (_data s') = keys (_data s)
          \/ keys (_data s') = keys (dict_set hkey_eq_dec (_data s) (HStr ATTR_AQI) []))
  end.
Proof.
  pose proof (finish_cases session s) as F.
  destruct (effect (finish session) s) as [[[]| |e] s'].
  - destruct F as (indexes & value & d2 & _ & _ & K & -> & _).
    cbn [_data set_data]. split; [reflexivity|]. right. right.
    now apply keys_set_any.
  - rewrite F. cbn. split; [reflexivity | now left].
  - destruct F as [E K]. split; [exact E | now right].
Qed.
End FinishTail.

(** ** A second cycle on what the first one left *)

Lemma snoc_neq {A : Type} (l : list A) (x : A) : l ++ [x] <> l.
Proof.
  intros H. apply (f_equal (@List.length A)) in H.
  rewrite length_app in H. cbn in H. lia.
Qed.

Section Again.
Variable session : url -> reply.

(** Lines 59-107, started on an empty reading and then on what they left,
    end both times the same way with the same reading. *)
Lemma assemble_again (s : Gios) :
  _data s = [] ->
  match effect (assemble session) s with
  | (c1, s1) => effect (assemble session) s1 = (c1, s1)
  end.
Proof.
  intros Hd. rewrite assemble_effect.
  destruct (fetched session (URL_STATION (station_id s))) as [station_data|e] eqn:Ef.
  2:{ now rewrite assemble_effect, Ef. }
  destruct (truthy station_data) eqn:Tr; cbn [negb].
  2:{ rewrite assemble_effect. cbn [station_id set_data]. now rewrite Ef, Tr. }
  destruct (iter station_data) as [items|e] eqn:Ei.
  2:{ now rewrite assemble_effect, Ef, Tr, Ei. }
  cbv zeta. rewrite Hd.
  set (kvs := fst (entries items)).
  destruct (snd (entries items)) as [e|] eqn:Ee.
  { rewrite assemble_effect. cbn [station_id set_data _data].
    rewrite Ef, Tr, Ei. cbn [negb]. cbv zeta. rewrite Ee. fold kvs.
    now rewrite insert_all_restore. }
  set (sa := set_data (insert_all kvs []) s).
  pose proof (finish_keys session sa) as F.
  destruct (effect (finish session) sa) as [c1 s1] eqn:Ea.
  destruct F as [E K]. remember (_data s1) as d1 eqn:Ed1. clear Ed1. subst s1.
  rewrite assemble_effect. unfold sa at 1 2. cbn [station_id set_data _data].
  rewrite Ef, Tr, Ei. cbn [negb]. cbv zeta. rewrite Ee. fold kvs.
  change (set_data (insert_all kvs d1) s)
    with (set_data (insert_all kvs d1) (set_data d1 sa)).
  change (set_data d1 s) with (set_data d1 sa).
  assert (Same : insert_all kvs d1 = insert_all kvs [] ->
                 effect (finish session)
                   (set_data (insert_all kvs d1) (set_data d1 sa))
                 = (c1, set_data d1 sa)).
  { intros ->. exact Ea. }
  unfold sa in K. cbn [_data set_data] in K.
  destruct K as [K|[K|K]].
  - apply Same. now rewrite K.
  - apply Same. now apply insert_all_restore.
  - rewrite keys_set in K.
    destruct (in_dec hkey_eq_dec (HStr ATTR_AQI) (keys (insert_all kvs []))) as [I|N].
    + apply Same. now apply insert_all_restore.
    + destruct (dict_get hkey_eq_dec d1 (HStr ATTR_AQI)) as [r|] eqn:Er.
      2:{ apply dict_get_none in Er. destruct Er. rewrite K, in_app_iff.
          right. now left. }
      rewrite (insert_all_restore_tail kvs d1 (HStr ATTR_AQI) r K N Er).
      pose proof (finish_tail session sa r N) as T. rewrite Ea in T.
      change (set_data (_data sa ++ [(HStr ATTR_AQI, r)]) sa)
        with (set_data (insert_all kvs [] ++ [(HStr ATTR_AQI, r)]) (set_data d1 sa)) in T.
      destruct (effect (finish session)
                  (set_data (insert_all kvs [] ++ [(HStr ATTR_AQI, r)])
                     (set_data d1 sa))) as [cb sb].
      destruct T as [-> [->|T]]; [reflexivity|].
      cbn [_data set_data] in T. rewrite K in T. now apply snoc_neq in T.
Qed.
End Again.

(** ** Resolving the station a second time *)

Lemma for_stations_cons_effect (st : json) (rest : list json) (s : Gios) :
  effect (for_stations (st :: rest)) s =
  match getitem st ATTR_ID with
  | Throws e => (Raise e, s)
  | Ok id =>
      if py_eq id (station_id s) then
        match getitem st "gegrLat" with
        | Throws e => (Raise e, s)
        | Ok lat =>
            match getitem st "gegrLon" with
            | Throws e => (Raise e, set_latitude lat s)
            | Ok lon =>
                match getitem st "stationName" with
                | Throws e => (Raise e, set_longitude lon (set_latitude lat s))
                | Ok name =>
                    effect (for_stations rest)
                      (set_station_name name (set_longitude lon (set_latitude lat s)))
                end
            end
        end
      else effect (for_stations rest) s
  end.
Proof.
  cbn [for_stations]. rewrite effect_bind. cbn [effect eval fst].
  destruct (getitem st ATTR_ID) as [id|e]; [|reflexivity].
  rewrite effect_bind. cbn [effect get fst]. rewrite effect_bind.
  destruct (py_eq id (station_id s)); [|reflexivity].
  rewrite effect_bind. cbn [effect eval fst].
  destruct (getitem st "gegrLat") as [lat|e]; [|reflexivity].
  rewrite effect_bind. cbn [effect modify fst].
  rewrite effect_bind. cbn [effect eval fst].
  destruct (getitem st "gegrLon") as [lon|e]; [|reflexivity].
  rewrite effect_bind. cbn [effect modify fst].
  rewrite effect_bind. cbn [effect eval fst].
  destruct (getitem st "stationName") as [name|e]; reflexivity.
Qed.

Lemma gios_eq (s s' : Gios) :
  _data s = _data s' -> station_id s = station_id s' ->
  station_fields s = station_fields s' -> s = s'.
Proof.
  destruct s, s'. unfold station_fields. cbn. intros -> -> [= -> -> ->].
  reflexivity.
Qed.

(** The loop over the directory never returns, raises only [KeyError] or
    [TypeError], and run for the same id from another object it ends the
    same way, with the same description unless no station matched. *)
Lemma for_stations_again (stations : list json) (s s' : Gios) :
  station_id s' = station_id s ->
  match effect (for_stations stations) s with
  | (Normal _, s1) =>
      exists s1',
        effect (for_stations stations) s' = (Normal tt, s1')
        /\ _data s1' = _data s' /\ station_id s1' = station_id s'
        /\ (station_fields s1' = station_fields s1
            \/ (station_fields s1 = station_fields s
                /\ station_fields s1' = station_fields s'))
  | (Return, _) => False
  | (Raise e, _) => e = KeyError \/ e = TypeError
  end.
Proof.
  revert s s'. induction stations as [|st rest IH]; intros s s' Hid.
  - exists s'. split; [reflexivity|]. split; [reflexivity|].
    split; [reflexivity|]. right. split; reflexivity.
  - rewrite !for_stations_cons_effect.
    destruct (getitem st ATTR_ID) as [id|e] eqn:E0;
      [|now apply getitem_raises in E0].
    replace (py_eq id (station_id s')) with (py_eq id (station_id s))
      by now rewrite Hid.
    destruct (py_eq id (station_id s)); [|now apply IH].
    destruct (getitem st "gegrLat") as [lat|e] eqn:E1;
      [|now apply getitem_raises in E1].
    destruct (getitem st "gegrLon") as [lon|e] eqn:E2;
      [|now apply getitem_raises in E2].
    destruct (getitem st "stationName") as [name|e] eqn:E3;
      [|now apply getitem_raises in E3].
    specialize (IH (set_station_name name (set_longitude lon (set_latitude lat s)))
                   (set_station_name name (set_longitude lon (set_latitude lat s')))
                   Hid).
    destruct (effect (for_stations rest) _) as [[[]| |e] s1]; try exact IH.
    destruct IH as (s1' & Ef & Ed & Ei & Hf). exists s1'.
    split; [exact Ef|]. split; [exact Ed|]. split; [exact Ei|].
    left. destruct Hf as [Hf|[Hf1 Hf2]]; [exact Hf|]. now rewrite Hf1, Hf2.
Qed.

Lemma fetched_raises (session : url -> reply) (u : url) (e : exn) :
  fetched session u = Throws e -> fetch_error e = true.
Proof.
  unfold fetched.
  destruct (session u) as [|status text body|text]; [discriminate| |now intros [= <-]].
  destruct (status =? HTTP_OK)%Z; [discriminate|]. now intros [= <-].
Qed.

Section ResolveAgain.
Variable session : url -> reply.

Lemma resolve_effect (s : Gios) :
  effect (resolve session) s =
  if truthy (station_name s) then (Normal tt, s)
  else
    match fetched session URL_STATIONS with
    | Throws e => (Raise e, s)
    | Ok stations =>
        if negb (truthy stations) then (Return, s)
        else
          match iter stations with
          | Throws e => (Raise e, s)
          | Ok items =>
              match effect (for_stations items) s with
              | (Normal _, s1) =>
                  if negb (truthy (station_name s1))
                  then (Raise (NoStationError (no_station_message (station_id s1))), s1)
                  else (Normal tt, s1)
              | (Return, s1) => (Return, s1)
              | (Raise e, s1) => (Raise e, s1)
              end
          end
    end.
Proof.
  unfold resolve. rewrite effect_bind. cbn [effect get fst].
  destruct (truthy (station_name s)); cbn [negb]; [reflexivity|].
  rewrite effect_bind. unfold _get_stations. rewrite async_get_effect.
  destruct (fetched session URL_STATIONS) as [stations|e]; [|reflexivity].
  rewrite effect_bind.
  destruct (truthy stations); cbn [negb]; [|reflexivity].
  cbn [effect pass ret fst]. rewrite effect_bind. cbn [effect eval fst].
  destruct (iter stations) as [items|e]; [|reflexivity].
  rewrite effect_bind.
  destruct (effect (for_stations items) s) as [[[]| |e] s1]; try reflexivity.
  rewrite effect_bind. cbn [effect get fst].
  destruct (truthy (station_name s1)); reflexivity.
Qed.

End ResolveAgain.

(** ** Selecting the latest value *)

Lemma pick_slots (sensor_data : json) (slots vs : list json) :
  getitem sensor_data "values" = Ok (JArr slots) ->
  Forall2 (fun slot v => getitem slot ATTR_VALUE = Ok v) slots vs ->
  pick sensor_data =
  match spec_select truthy vs with
  | Some v => Ok v
  | None =>
      match vs with
      | [] | [_] => Throws IndexError
      | _ => Throws ValueError
      end
  end.
Proof.
  intros Hv Hs. unfold pick. rewrite Hv. cbn [and_then getindex].
  destruct Hs as [|slot0 v0 slots vs H0 Hs]; [reflexivity|].
  cbn [nth_error and_then spec_select]. rewrite H0. cbn [and_then].
  destruct (truthy v0); [reflexivity|].
  destruct Hs as [|slot1 v1 slots vs H1 Hs]; [reflexivity|].
  cbn [nth_error and_then]. rewrite H1. cbn [and_then].
  now destruct (truthy v1).
Qed.

(** C3, as the code has it. The first slot's value is stored if it is
    truthy, otherwise the second slot's value if that is truthy; when
    neither is, or the slots run out, the reading is cleared and the loop
    over the sensors returns at once, after the one request for this
    sensor.  With values null, 42 the cycle stores 42; with null, null it
    ends with an empty reading and sends no further request. *)
Theorem latest_value_rule :
  (forall (s : Gios) (sensor : hkey) (entry : record) (sensor_data : json)
          (slots vs : list json),
      dict_get hkey_eq_dec (_data s) sensor = Some entry ->
      getitem sensor_data "values" = Ok (JArr slots) ->
      Forall2 (fun slot v => getitem slot ATTR_VALUE = Ok v) slots vs ->
      store_latest sensor sensor_data s =
      match spec_select truthy vs with
      | Some v =>
          (Normal tt,
           set_data (dict_set hkey_eq_dec (_data s) sensor
                       (dict_set string_dec entry ATTR_VALUE v)) s, [])
      | None => (Return, set_data [] s, [])
      end)
  /\ (forall (session : url -> reply) (s : Gios) (sensor : hkey)
             (rest : list hkey) (entry : record) (id : json) (text : string)
             (sensor_data : json) (slots vs : list json),
         sensor <> HStr ATTR_AQI ->
         dict_get hkey_eq_dec (_data s) sensor = Some entry ->
         dict_get string_dec entry ATTR_ID = Some id ->
         session (URL_SENSOR id) = Response HTTP_OK text sensor_data ->
         getitem sensor_data "values" = Ok (JArr slots) ->
         Forall2 (fun slot v => getitem slot ATTR_VALUE = Ok v) slots vs ->
         spec_select truthy vs = None ->
         for_values session (sensor :: rest) s
         = (Return, set_data [] s, [URL_SENSOR id]))
  /\ data (state_of (update (single [JNull; JInt 42] full_indexes) (__init__ (JInt 117))))
     = [(HStr "PM10", [("id", JInt 14); ("name", JStr "pyl zawieszony PM10");
                       ("value", JInt 42); ("index", JStr "bardzo dobry")]);
        (HStr "AQI", [("name", JStr "AQI"); ("value", JStr "dobry")])]
  /\ update (single [JNull; JNull] full_indexes) (__init__ (JInt 117))
     = (Returned,
        set_data [] (state_of (update (single [JNull; JNull] full_indexes)
                                 (__init__ (JInt 117)))),
        [URL_STATIONS; URL_STATION (JInt 117); URL_SENSOR (JInt 14)]).
Proof.
  split; [|split; [|split; vm_compute; reflexivity]].
  - intros s sensor entry sensor_data slots vs Hentry Hv Hs.
    rewrite store_latest_run, (pick_slots _ _ _ Hv Hs).
    destruct (spec_select truthy vs) as [v|].
    + rewrite store_run. now rewrite Hentry.
    + destruct vs as [|v0 [|v1 vs]]; reflexivity.
  - intros session s sensor rest entry id text sensor_data slots vs
      Hk Hentry Hid Hsession Hv Hs Hsel.
    cbn [for_values]. unfold bind at 1. rewrite (is_aqi_false _ Hk).
    unfold bind at 1.
    rewrite get_sensor_run, Hentry, Hid, async_get_run, Hsession.
    cbn [Z.eqb HTTP_OK Pos.eqb].
    rewrite store_latest_run, (pick_slots _ _ _ Hv Hs), Hsel.
    destruct vs as [|v0 [|v1 vs]]; reflexivity.
Qed.

Lemma latest_value_rule_witness :
  let s := set_data [(HStr "PM10", [("id", JInt 14)])] (__init__ (JInt 117)) in
  store_latest (HStr "PM10") (values [JNull; JInt 42]) s
  = (Normal tt, set_data [(HStr "PM10", [("id", JInt 14); ("value", JInt 42)])] s, [])
  /\ for_values (single [JNull; JNull] full_indexes) [HStr "PM10"; HStr "NO2"] s
     = (Return, set_data [] s, [URL_SENSOR (JInt 14)]).
Proof.
  split.
  - apply (proj1 latest_value_rule
             (set_data [(HStr "PM10", [("id", JInt 14)])] (__init__ (JInt 117)))
             (HStr "PM10") [("id", JInt 14)] (values [JNull; JInt 42])
             [JObj [("date", JStr "d"); ("value", JNull)];
              JObj [("date", JStr "d"); ("value", JInt 42)]]
             [JNull; JInt 42]).
    + reflexivity.
    + reflexivity.
    + repeat constructor.
  - apply (proj1 (proj2 latest_value_rule)
             (single [JNull; JNull] full_indexes)
             (set_data [(HStr "PM10", [("id", JInt 14)])] (__init__ (JInt 117)))
             (HStr "PM10") [HStr "NO2"] [("id", JInt 14)] (JInt 14) ""
             (values [JNull; JNull])
             [JObj [("date", JStr "d"); ("value", JNull)];
              JObj [("date", JStr "d"); ("value", JNull)]]
             [JNull; JNull]).
    + discriminate.
    + reflexivity.
    + reflexivity.
    + reflexivity.
    + reflexivity.
    + repeat constructor.
    + reflexivity.
Defined.

(** ** Falsy readings *)

Lemma pick_null_if_falsy (body : json) : pick (null_if_falsy body) = pick body.
Proof.
  unfold null_if_falsy.
  destruct (getitem body "values") as [values|e] eqn:Ev; [|reflexivity].
  destruct values as [| | | | |slots|]; try reflexivity.
  destruct slots as [|first rest]; [reflexivity|].
  destruct (getitem first ATTR_VALUE) as [v0|e] eqn:E0; [|reflexivity].
  destruct (truthy v0) eqn:T0; [reflexivity|].
  unfold pick at 2. rewrite Ev. cbn [and_then getindex nth_error].
  rewrite E0. cbn [and_then]. rewrite T0. reflexivity.
Qed.

Lemma value_plan_falsy (session : url -> reply) (k : hkey) (entry : option record) :
  value_plan (falsy_as_null session) k entry = value_plan session k entry.
Proof.
  unfold value_plan. destruct (is_aqi k); [reflexivity|].
  destruct entry as [entry|]; [|reflexivity].
  destruct (dict_get string_dec entry ATTR_ID) as [id|]; [|reflexivity].
  cbn [falsy_as_null].
  destruct (session (URL_SENSOR id)) as [|status text body|text];
    [reflexivity| |reflexivity].
  now rewrite pick_null_if_falsy.
Qed.

Lemma steps_ext (field : string) (plan plan' : hkey -> option record -> step * list url)
    (ks : list hkey) (s : Gios) :
  (forall k entry, plan k entry = plan' k entry) ->
  steps field plan ks s = steps field plan' ks s.
Proof.
  intros H. revert s. induction ks as [|k ks IH]; intros s; [reflexivity|].
  cbn [steps]. unfold bind. rewrite H.
  destruct (run_step field (plan' k (dict_get hkey_eq_dec (_data s) k)) k s)
    as [[[[]| |e] s1] l1]; try reflexivity.
  now rewrite IH.
Qed.

Lemma bind_ext {A B} (m m' : M A) (f f' : A -> M B) (s : Gios) :
  m s = m' s -> (forall a s1, f a s1 = f' a s1) -> bind m f s = bind m' f' s.
Proof.
  intros Hm Hf. unfold bind. rewrite Hm.
  destruct (m' s) as [[[a| |e] s1] l1]; try reflexivity. now rewrite Hf.
Qed.

(** A cycle runs against an upstream as against the one whose falsy newest
    values are null. *)
Lemma update_falsy_as_null (session : url -> reply) (self : Gios) :
  update (falsy_as_null session) self = update session self.
Proof.
  unfold update, call.
  replace (update_body (falsy_as_null session) self) with (update_body session self);
    [reflexivity|].
  unfold update_body.
  change (resolve (falsy_as_null session)) with (resolve session).
  apply bind_ext; [reflexivity | intros _ s0].
  unfold assemble.
  change (_get_station (falsy_as_null session)) with (_get_station session).
  change (_get_indexes (falsy_as_null session)) with (_get_indexes session).
  apply bind_ext; [reflexivity | intros station_data s1].
  apply bind_ext; [reflexivity | intros _ s2].
  apply bind_ext; [reflexivity | intros items s3].
  apply bind_ext; [reflexivity | intros _ s4].
  apply bind_ext; [reflexivity | intros d s5].
  apply bind_ext; [|reflexivity].
  rewrite !for_values_steps. apply steps_ext. intros k entry.
  symmetry. apply value_plan_falsy.
Qed.

(** C10. The test on a slot is truthiness: a newest value of 0, 0.0 or any
    other falsy value is handled exactly as a null one, by the [try]
    statement and by the whole cycle, against every upstream.  With values
    0, 42 the cycle stores 42; with 0, null or a lone 0 it ends with an
    empty reading, although 0 is not null. *)
Theorem falsy_reading_is_absent :
  (forall (s : Gios) (sensor : hkey) (sensor_data first : json)
          (rest : list json) (v0 : json),
      getitem sensor_data "values" = Ok (JArr (first :: rest)) ->
      getitem first ATTR_VALUE = Ok v0 ->
      truthy v0 = false ->
      store_latest sensor sensor_data s
      = store_latest sensor
          (JObj [("values", JArr (JObj [(ATTR_VALUE, JNull)] :: rest))]) s)
  /\ (forall (session : url -> reply) (self : Gios),
         update (falsy_as_null session) self = update session self)
  /\ truthy (JInt 0) = false /\ truthy (JFloat 0) = false
  /\ non_null (JInt 0) = true /\ non_null (JFloat 0) = true
  /\ (forall v0,
        In v0 [JInt 0; JFloat 0; JBool false; JStr ""; JArr []; JObj []] ->
        let run vals := update (single vals full_indexes) (__init__ (JInt 117)) in
        data (state_of (run [v0; JInt 42]))
        = [(HStr "PM10", [("id", JInt 14); ("name", JStr "pyl zawieszony PM10");
                          ("value", JInt 42); ("index", JStr "bardzo dobry")]);
           (HStr "AQI", [("name", JStr "AQI"); ("value", JStr "dobry")])]
        /\ result_of (run [v0; JNull]) = Returned
        /\ data (state_of (run [v0; JNull])) = []
        /\ result_of (run [v0]) = Returned
        /\ data (state_of (run [v0])) = []).
Proof.
  split; [|split; [exact update_falsy_as_null|]].
  - intros s sensor sensor_data first rest v0 Hv H0 T0.
    rewrite !store_latest_run. unfold pick. rewrite Hv.
    cbn [getitem dict_get getindex nth_error and_then].
    destruct (string_dec "values" "values") as [_|N]; [|congruence].
    cbn [and_then nth_error]. rewrite H0.
    destruct (string_dec ATTR_VALUE ATTR_VALUE) as [_|N]; [|congruence].
    cbn [and_then truthy]. now rewrite T0.
  - do 4 (split; [reflexivity|]).
    intros v0 H.
    destruct H as [<-|[<-|[<-|[<-|[<-|[<-|[]]]]]]]; vm_compute;
      repeat split; reflexivity.
Qed.

Lemma falsy_reading_is_absent_witness :
  let s := set_data [(HStr "PM10", [("id", JInt 14)])] (__init__ (JInt 117)) in
  store_latest (HStr "PM10") (values [JInt 0; JInt 42]) s
  = store_latest (HStr "PM10")
      (JObj [("values",
              JArr [JObj [(ATTR_VALUE, JNull)];
                    JObj [("date", JStr "d"); ("value", JInt 42)]])]) s.
Proof.
  apply (proj1 falsy_reading_is_absent
           (set_data [(HStr "PM10", [("id", JInt 14)])] (__init__ (JInt 117)))
           (HStr "PM10") (values [JInt 0; JInt 42])
           (JObj [("date", JStr "d"); ("value", JInt 0)])
           [JObj [("date", JStr "d"); ("value", JInt 42)]] (JInt 0)).
  - reflexivity.
  - reflexivity.
  - reflexivity.
Defined.

(** * Further properties of the module *)

(** ** The shape of the records *)

Lemma lower_char_idem (c : ascii) : lower_char (lower_char c) = lower_char c.
Proof. destruct c as [[] [] [] [] [] [] [] []]; reflexivity. Qed.

Lemma lower_idem (s : string) : lower (lower s) = lower s.
Proof.
  induction s as [|c s IH]; [reflexivity|].
  cbn [lower]. now rewrite lower_char_idem, IH.
Qed.

Lemma lower_method_lower (x : json) (t : string) :
  lower_method x = Ok t -> is_lower (JStr t).
Proof.
  destruct x; cbn; try discriminate. intros [= <-].
  exists (lower s). split; [reflexivity | apply lower_idem].
Qed.

Lemma sound_set (d : reading) (k : hkey) (r : record) :
  sound_reading d -> sound_record k r ->
  sound_reading (dict_set hkey_eq_dec d k r).
Proof.
  intros Hd Hr k' e. destruct (hkey_eq_dec k' k) as [->|N].
  - rewrite dict_get_set_same. now intros [= <-].
  - rewrite dict_get_set_other by assumption. apply Hd.
Qed.

Lemma sound_insert_all (kvs : list (hkey * record)) (d : reading) :
  sound_reading d ->
  (forall kv, In kv kvs -> sound_record (fst kv) (snd kv)) ->
  sound_reading (insert_all kvs d).
Proof.
  revert d. induction kvs as [|[k r] kvs IH]; intros d Hd Hk; [exact Hd|].
  change (insert_all ((k, r) :: kvs) d)
    with (insert_all kvs (dict_set hkey_eq_dec d k r)).
  apply IH.
  - apply sound_set; [exact Hd|]. apply (Hk (k, r)). now left.
  - intros kv Hin. apply Hk. now right.
Qed.

Lemma sensor_entry_sound (sensor : json) (k : hkey) (r : record) :
  sensor_entry sensor = Ok (k, r) -> sound_record k r.
Proof.
  unfold sensor_entry.
  destruct (getitem sensor ATTR_ID) as [id|e]; [|discriminate]. cbn [and_then].
  destruct (getitem sensor "param") as [param|e]; [|discriminate]. cbn [and_then].
  destruct (getitem param "paramName") as [name|e]; [|discriminate].
  cbn [and_then].
  destruct (getitem param "paramCode") as [code|e]; [|discriminate].
  cbn [and_then].
  destruct (hash code) as [key|e]; [|discriminate]. cbn [and_then].
  intros [= <- <-]. split; [now exists name|]. split; [now exists id|].
  split; discriminate.
Qed.

Lemma entries_sound (items : list json) (kv : hkey * record) :
  In kv (fst (entries items)) -> sound_record (fst kv) (snd kv).
Proof.
  induction items as [|sensor rest IH]; cbn [entries]; [intros []|].
  destruct (sensor_entry sensor) as [[k r]|e] eqn:E; [|intros []].
  destruct (entries rest) as [kvs err]. cbn [fst] in *.
  intros [<-|Hin]; [|now apply IH].
  eapply sensor_entry_sound; eassumption.
Qed.

(** A loop of stores keeps every record sound when the values it stores
    fit the field. *)
Lemma steps_sound (field : string) (plan : hkey -> option record -> step * list url)
    (ks : list hkey) (s : Gios) :
  (forall k e v l, sound_record k e -> plan k (Some e) = (Store v, l) ->
                   sound_record k (dict_set string_dec e field v)) ->
  sound_reading (_data s) ->
  sound_reading (_data (snd (effect (steps field plan ks) s))).
Proof.
  intros Hp. revert s. induction ks as [|k ks IH]; intros s Hs; [exact Hs|].
  rewrite steps_cons_effect, run_step_effect.
  destruct (plan k (dict_get hkey_eq_dec (_data s) k)) as [st l] eqn:Ep.
  cbn [fst]. destruct st as [|v| |e]; [now apply IH| | |exact Hs].
  - destruct (dict_get hkey_eq_dec (_data s) k) as [entry|] eqn:Ek; [|exact Hs].
    apply IH. cbn [_data set_data]. apply sound_set; [exact Hs|].
    eapply Hp; [|eassumption]. now apply Hs.
  - intros k' e'. discriminate.
Qed.

Lemma value_plan_sound (session : url -> reply) (k : hkey) (e : record)
    (v : json) (l : list url) :
  sound_record k e -> value_plan session k (Some e) = (Store v, l) ->
  sound_record k (dict_set string_dec e ATTR_VALUE v).
Proof.
  intros (Hn & Hi & Hv & Hx) Hp.
  pose proof (value_plan_store _ _ _ _ _ Hp) as Tv.
  assert (Hk : is_aqi k = false).
  { destruct (is_aqi k) eqn:E; [|reflexivity].
    rewrite (value_plan_skips session k (Some e) E) in Hp. discriminate. }
  split; [|split; [|split]].
  - rewrite dict_get_set_other by discriminate. exact Hn.
  - intros _. rewrite dict_get_set_other by discriminate. now apply Hi.
  - rewrite dict_get_set_same, Hk. now intros v' [= <-].
  - intros i. rewrite dict_get_set_other by discriminate. apply Hx.
Qed.

Lemma index_plan_sound (indexes : json) (k : hkey) (e : record)
    (v : json) (l : list url) :
  sound_record k e -> index_plan indexes k (Some e) = (Store v, l) ->
  sound_record k (dict_set string_dec e ATTR_INDEX v).
Proof.
  intros (Hn & Hi & Hv & Hx). unfold index_plan.
  destruct (is_aqi k) eqn:Hk; [discriminate|].
  destruct (index_of indexes k) as [index|err] eqn:Eo; [|discriminate].
  intros [= <- _].
  assert (L : is_lower (JStr index)).
  { unfold index_of in Eo.
    destruct (index_level k) as [key|?]; [|discriminate]. cbn [and_then] in Eo.
    destruct (getitem indexes key) as [level|?]; [|discriminate].
    cbn [and_then] in Eo.
    destruct (getitem level "indexLevelName") as [name|?]; [|discriminate].
    cbn [and_then] in Eo. eapply lower_method_lower; eassumption. }
  split; [|split; [|split]].
  - rewrite dict_get_set_other by discriminate. exact Hn.
  - intros _. rewrite dict_get_set_other by discriminate. now apply Hi.
  - intros v'. rewrite dict_get_set_other by discriminate. rewrite Hk. apply Hv.
  - rewrite dict_get_set_same. now intros i [= <-].
Qed.

Lemma aqi_name_sound : sound_record (HStr ATTR_AQI) [(ATTR_NAME, JStr ATTR_AQI)].
Proof.
  split; [now exists (JStr ATTR_AQI)|]. split; [discriminate|].
  split; discriminate.
Qed.

Lemma aqi_record_sound (indexes : json) (value : string) :
  overall indexes = Ok value -> sound_record (HStr ATTR_AQI) (aqi_record value).
Proof.
  intros Ho. split; [now exists (JStr ATTR_AQI)|]. split; [discriminate|].
  split; [|discriminate].
  intros v [= <-]. cbn.
  unfold overall in Ho.
  destruct (getitem indexes "stIndexLevel") as [level|?]; [|discriminate].
  cbn [and_then] in Ho.
  destruct (getitem level "indexLevelName") as [name|?]; [|discriminate].
  cbn [and_then] in Ho. eapply lower_method_lower; eassumption.
Qed.

Lemma sound_nil : sound_reading [].
Proof. intros k e. discriminate. Qed.

Section Sound.
Variable session : url -> reply.

Lemma finish_sound (s : Gios) :
  sound_reading (_data s) ->
  sound_reading (_data (snd (effect (finish session) s))).
Proof.
  intros Hs. rewrite finish_effect.
  pose proof (steps_sound ATTR_VALUE (value_plan session) (keys (_data s)) s
                (value_plan_sound session) Hs) as S1.
  destruct (effect (steps ATTR_VALUE (value_plan session) (keys (_data s))) s)
    as [[[]| |e] s1]; cbn [snd] in *; try exact S1.
  destruct (fetched session (URL_INDEXES (station_id s1))) as [indexes|e];
    [|exact S1].
  pose proof (steps_sound ATTR_INDEX (index_plan indexes) (keys (_data s1)) s1
                (index_plan_sound indexes) S1) as S2.
  destruct (effect (steps ATTR_INDEX (index_plan indexes) (keys (_data s1))) s1)
    as [[[]| |e] s2]; cbn [snd] in *.
  - destruct (overall indexes) as [value|e] eqn:Eo.
    + cbn [_data set_data]. apply sound_set; [exact S2|].
      eapply aqi_record_sound; eassumption.
    + destruct (caught_104 e); cbn [snd _data set_data];
        [apply sound_nil | apply sound_set; [exact S2 | apply aqi_name_sound]].
  - exact S2.
  - destruct (caught_104 e); [apply sound_nil | exact S2].
Qed.

Lemma assemble_sound (s : Gios) :
  sound_reading (_data s) ->
  sound_reading (_data (snd (effect (assemble session) s))).
Proof.
  intros Hs. rewrite assemble_effect.
  destruct (fetched session (URL_STATION (station_id s))) as [station_data|e];
    [|exact Hs].
  destruct (truthy station_data); cbn [negb]; [|apply sound_nil].
  destruct (iter station_data) as [items|e]; [|exact Hs].
  cbv zeta.
  assert (S1 : sound_reading (insert_all (fst (entries items)) (_data s)))
    by (apply sound_insert_all; [exact Hs | apply entries_sound]).
  destruct (snd (entries items)) as [e|]; [exact S1|].
  now apply finish_sound.
Qed.

Lemma update_sound (s : Gios) :
  sound_reading (_data s) ->
  sound_reading (_data (state_of (update session s))).
Proof.
  intros Hs.
  pose proof (update_effect session s) as U.
  pose proof (resolve_frame session s) as R.
  destruct (effect (resolve session) s) as [c s0].
  destruct R as (Rd & _).
  destruct c as [[]| |e].
  - assert (H0 : sound_reading (_data s0)) by now rewrite Rd.
    pose proof (assemble_sound s0 H0) as A.
    destruct (effect (assemble session) s0) as [[[]| |e] s'];
      injection U as _ ->; exact A.
  - injection U as _ ->. now rewrite Rd.
  - injection U as _ ->. now rewrite Rd.
Qed.
End Sound.

Lemma reachable_sound (id : json) (s : Gios) :
  reachable id s -> sound_reading (_data s).
Proof.
  induction 1 as [|session self _ IH]; [apply sound_nil|].
  now apply update_sound.
Qed.

(** X1. On every object a caller can hold, the station id is the one given
    to the constructor, no key occurs twice in the reading, and available
    is true only when a station name is cached. *)
Theorem reader_invariant (id : json) (s : Gios) :
  reachable id s ->
  station_id s = id
  /\ NoDup (keys (data s))
  /\ (available s = true -> truthy (station_name s) = true).
Proof.
  intros H. destruct (reachable_consistent id s H) as (Hid & He & Hn).
  split; [exact Hid|]. split; [exact Hn|].
  intros Ha. destruct (truthy (station_name s)); [reflexivity|].
  unfold available in Ha. rewrite (He eq_refl) in Ha. discriminate.
Qed.

Lemma reader_invariant_witness :
  let s := state_of (update sensor_unlisted
                       (state_of (update two_sensors (__init__ (JInt 117))))) in
  station_id s = JInt 117
  /\ NoDup (keys (data s))
  /\ (available s = true -> truthy (station_name s) = true).
Proof.
  apply (reader_invariant (JInt 117)).
  apply reach_update, reach_update, reach_init.
Defined.

(** X2. On every object a caller can hold, each record of the reading has a
    name, and each record under a key other than AQI has an id, so that
    _get_sensor on such a key goes straight to the request for that id. *)
Theorem records_have_name_and_id (id : json) (s : Gios) (k : hkey) (e : record) :
  reachable id s ->
  dict_get hkey_eq_dec (data s) k = Some e ->
  (exists name, dict_get string_dec e ATTR_NAME = Some name)
  /\ (k <> HStr ATTR_AQI ->
      exists sid,
        dict_get string_dec e ATTR_ID = Some sid
        /\ forall session,
             _get_sensor session k s = _async_get session (URL_SENSOR sid) s).
Proof.
  intros Hr Hk. destruct (reachable_sound id s Hr k e Hk) as (Hn & Hi & _).
  split; [exact Hn|]. intros Na.
  destruct (Hi (is_aqi_false k Na)) as [sid Hs]. exists sid. split; [exact Hs|].
  intros session. rewrite get_sensor_run. unfold data in Hk. now rewrite Hk, Hs.
Qed.

Lemma records_have_name_and_id_witness :
  let s := state_of (update two_sensors (__init__ (JInt 117))) in
  let e := [("id", JInt 15); ("name", JStr "dwutlenek azotu");
            ("value", JInt 11); ("index", JStr "umiarkowany")] in
  (exists name, dict_get string_dec e ATTR_NAME = Some name)
  /\ (HStr "NO2" <> HStr ATTR_AQI ->
      exists sid,
        dict_get string_dec e ATTR_ID = Some sid
        /\ forall session,
             _get_sensor session (HStr "NO2") s
             = _async_get session (URL_SENSOR sid) s).
Proof.
  apply (records_have_name_and_id (JInt 117)
           (state_of (update two_sensors (__init__ (JInt 117)))) (HStr "NO2")).
  - apply reach_update, reach_init.
  - vm_compute. reflexivity.
Defined.

(** X3. On every object a caller can hold, a value stored under a pollutant
    code is truthy, an index is a lowercase string, and the value stored
    under AQI is a lowercase string. *)
Theorem stored_fields_typed (id : json) (s : Gios) (k : hkey) (e : record) :
  reachable id s ->
  dict_get hkey_eq_dec (data s) k = Some e ->
  (forall v, dict_get string_dec e ATTR_VALUE = Some v ->
     (k <> HStr ATTR_AQI -> truthy v = true)
     /\ (k = HStr ATTR_AQI -> is_lower v))
  /\ (forall i, dict_get string_dec e ATTR_INDEX = Some i -> is_lower i).
Proof.
  intros Hr Hk. destruct (reachable_sound id s Hr k e Hk) as (_ & _ & Hv & Hx).
  split; [|exact Hx]. intros v Ev. specialize (Hv v Ev). split.
  - intros Na. now rewrite (is_aqi_false k Na) in Hv.
  - intros ->. exact Hv.
Qed.

Lemma stored_fields_typed_witness :
  let s := state_of (update two_sensors (__init__ (JInt 117))) in
  let e := [("name", JStr "AQI"); ("value", JStr "dobry")] in
  (forall v, dict_get string_dec e ATTR_VALUE = Some v ->
     (HStr "AQI" <> HStr ATTR_AQI -> truthy v = true)
     /\ (HStr "AQI" = HStr ATTR_AQI -> is_lower v))
  /\ (forall i, dict_get string_dec e ATTR_INDEX = Some i -> is_lower i).
Proof.
  apply (stored_fields_typed (JInt 117)
           (state_of (update two_sensors (__init__ (JInt 117)))) (HStr "AQI")).
  - apply reach_update, reach_init.
  - vm_compute. reflexivity.
Defined.

(** ** Keys are added, never dropped one by one *)

Lemma keys_set_extends {K V : Type} (dec : forall a b : K, {a = b} + {a <> b})
    (d : list (K * V)) (k : K) (v : V) :
  exists extra, keys (dict_set dec d k v) = keys d ++ extra.
Proof.
  rewrite keys_set. destruct (in_dec dec k (keys d)).
  - exists []. now rewrite app_nil_r.
  - now exists [k].
Qed.

Lemma keys_insert_all_extends (kvs : list (hkey * record)) (d : reading) :
  exists extra, keys (insert_all kvs d) = keys d ++ extra.
Proof.
  revert d. induction kvs as [|[k r] kvs IH]; intros d.
  - exists []. now rewrite app_nil_r.
  - change (insert_all ((k, r) :: kvs) d)
      with (insert_all kvs (dict_set hkey_eq_dec d k r)).
    destruct (IH (dict_set hkey_eq_dec d k r)) as [x Hx].
    destruct (keys_set_extends hkey_eq_dec d k r) as [y Hy].
    exists (y ++ x). now rewrite Hx, Hy, app_assoc.
Qed.

Lemma assemble_extends (session : url -> reply) (s : Gios) :
  let s' := snd (effect (assemble session) s) in
  _data s' = [] \/ exists extra, keys (_data s') = keys (_data s) ++ extra.
Proof.
  cbv zeta. rewrite assemble_effect.
  assert (Same : exists extra, keys (_data s) = keys (_data s) ++ extra)
    by (exists []; now rewrite app_nil_r).
  destruct (fetched session (URL_STATION (station_id s))) as [station_data|e];
    [|now right].
  destruct (truthy station_data); cbn [negb]; [|now left].
  destruct (iter station_data) as [items|e]; [|now right].
  cbv zeta.
  destruct (keys_insert_all_extends (fst (entries items)) (_data s)) as [x Hx].
  destruct (snd (entries items)) as [e|]; [right; now exists x|].
  pose proof (finish_keys session
                (set_data (insert_all (fst (entries items)) (_data s)) s)) as F.
  destruct (effect (finish session) _) as [c s']. cbn [snd].
  destruct F as [_ [F|[F|F]]]; cbn [_data set_data] in F.
  - now left.
  - right. exists x. now rewrite F.
  - right.
    destruct (keys_set_extends hkey_eq_dec
                (insert_all (fst (entries items)) (_data s)) (HStr ATTR_AQI) [])
      as [y Hy].
    exists (x ++ y). now rewrite F, Hy, Hx, app_assoc.
Qed.

(** X4. Whatever the upstream answers and however the call ends, update
    either leaves the reading empty or leaves the keys it found in place,
    in their order, with the new keys after them: no single key is ever
    dropped. *)
Theorem update_extends_or_clears (session : url -> reply) (self : Gios) :
  let s' := state_of (update session self) in
  data s' = []
  \/ exists extra, keys (data s') = keys (data self) ++ extra.
Proof.
  cbv zeta. unfold data.
  pose proof (update_effect session self) as U.
  pose proof (resolve_frame session self) as R.
  destruct (effect (resolve session) self) as [c s0].
  destruct R as (Rd & _).
  assert (Same : exists extra, keys (_data s0) = keys (_data self) ++ extra)
    by (exists []; now rewrite app_nil_r, Rd).
  destruct c as [[]| |e].
  - pose proof (assemble_extends session s0) as A. cbv zeta in A.
    destruct (effect (assemble session) s0) as [c1 s1]. cbn [snd] in A.
    assert (E : state_of (update session self) = s1)
      by (destruct c1 as [[]| |e]; now injection U).
    rewrite E, <- Rd. exact A.
  - injection U as _ ->. now right.
  - injection U as _ ->. now right.
Qed.

(** ** What a cycle that succeeds has stored *)

Section Settle.
Variable field : string.
Variable plan : hkey -> option record -> step * list url.

(** A loop leaves the records of the keys it does not visit alone. *)
Lemma steps_frame (k : hkey) (ks : list hkey) (s : Gios) :
  ~ In k ks ->
  match effect (steps field plan ks) s with
  | (Return, _) => True
  | (_, s') => dict_get hkey_eq_dec (_data s') k = dict_get hkey_eq_dec (_data s) k
  end.
Proof.
  revert s. induction ks as [|k0 ks IH]; intros s Hk; [reflexivity|].
  assert (N : k <> k0) by (intros ->; apply Hk; now left).
  assert (Hk' : ~ In k ks) by (intros I; apply Hk; now right).
  rewrite steps_cons_effect, run_step_effect.
  destruct (fst (plan k0 (dict_get hkey_eq_dec (_data s) k0))) as [|v| |e];
    [now apply IH| |exact I|reflexivity].
  destruct (dict_get hkey_eq_dec (_data s) k0) as [entry|]; [|reflexivity].
  specialize (IH (set_data (dict_set hkey_eq_dec (_data s) k0
                              (dict_set string_dec entry field v)) s) Hk').
  destruct (effect (steps field plan ks) _) as [[[]| |e] s']; [|exact I|];
    cbn [_data set_data] in IH; now rewrite IH, dict_get_set_other.
Qed.

(** After a loop that ran to its end over keys that are all different, the
    record of each key is the one found under it with the value of its pass
    stored in the field of the loop. *)
Lemma steps_settle (ks : list hkey) (s s' : Gios) :
  NoDup ks ->
  effect (steps field plan ks) s = (Normal tt, s') ->
  forall k, In k ks ->
    match fst (plan k (dict_get hkey_eq_dec (_data s) k)) with
    | Skip => dict_get hkey_eq_dec (_data s') k = dict_get hkey_eq_dec (_data s) k
    | Store v =>
        exists e,
          dict_get hkey_eq_dec (_data s) k = Some e
          /\ dict_get hkey_eq_dec (_data s') k = Some (dict_set string_dec e field v)
    | _ => False
    end.
Proof.
  revert s. induction ks as [|k0 ks IH]; intros s Hn H k Hk; [destruct Hk|].
  inversion Hn as [|? ? Hk0 Hn']; subst.
  rewrite steps_cons_effect, run_step_effect in H.
  destruct (fst (plan k0 (dict_get hkey_eq_dec (_data s) k0))) as [|v| |e] eqn:Ep;
    [| |discriminate|discriminate].
  - destruct Hk as [<-|Hk]; [|now apply IH].
    rewrite Ep. pose proof (steps_frame k0 ks s Hk0) as F. now rewrite H in F.
  - destruct (dict_get hkey_eq_dec (_data s) k0) as [entry|] eqn:Ek;
      [|discriminate].
    destruct Hk as [<-|Hk].
    + rewrite ?Ek, Ep. exists entry. split; [reflexivity|].
      pose proof (steps_frame k0 ks
                    (set_data (dict_set hkey_eq_dec (_data s) k0
                                 (dict_set string_dec entry field v)) s) Hk0) as F.
      rewrite H in F.
      cbn [_data set_data] in F. now rewrite F, dict_get_set_same.
    + assert (N : k <> k0) by (intros ->; contradiction).
      specialize (IH _ Hn' H k Hk). cbn [_data set_data] in IH.
      now rewrite dict_get_set_other in IH.
Qed.
End Settle.

Lemma index_of_ok (indexes : json) (k : hkey) (i : string) :
  index_of indexes k = Ok i ->
  exists key level name,
    index_level k = Ok key
    /\ getitem indexes key = Ok level
    /\ getitem level "indexLevelName" = Ok (JStr name)
    /\ i = lower name.
Proof.
  unfold index_of.
  destruct (index_level k) as [key|e]; [|discriminate]. cbn [and_then].
  destruct (getitem indexes key) as [level|e] eqn:El; [|discriminate].
  cbn [and_then].
  destruct (getitem level "indexLevelName") as [name|e] eqn:En; [|discriminate].
  cbn [and_then]. destruct name; try discriminate.
  cbn. intros [= <-]. exists key, level, s. auto.
Qed.

Lemma value_plan_served (session : url -> reply) (k : hkey) (e : record) (v : json) :
  fst (value_plan session k (Some e)) = Store v ->
  exists sid text body,
    dict_get string_dec e ATTR_ID = Some sid
    /\ session (URL_SENSOR sid) = Response HTTP_OK text body
    /\ pick body = Ok v.
Proof.
  unfold value_plan. destruct (is_aqi k); [discriminate|].
  destruct (dict_get string_dec e ATTR_ID) as [sid|]; [|discriminate].
  destruct (session (URL_SENSOR sid)) as [|status text body|text] eqn:Es;
    [| |discriminate].
  - cbn. discriminate.
  - destruct (status =? HTTP_OK)%Z eqn:Est; [|discriminate].
    apply Z.eqb_eq in Est. subst status. cbn [fst]. intros H.
    apply picked_store in H. now exists sid, text, body.
Qed.

Section Stored.
Variable session : url -> reply.

(** Lines 70-107 run to their end: what they leave under each key. *)
Lemma finish_stores (s s' : Gios) :
  NoDup (keys (_data s)) ->
  effect (finish session) s = (Normal tt, s') ->
  exists indexes,
    fetched session (URL_INDEXES (station_id s)) = Ok indexes
    /\ forall k, is_aqi k = false ->
         match dict_get hkey_eq_dec (_data s) k with
         | None => dict_get hkey_eq_dec (_data s') k = None
         | Some e1 =>
             exists sid text body v i,
               dict_get string_dec e1 ATTR_ID = Some sid
               /\ session (URL_SENSOR sid) = Response HTTP_OK text body
               /\ pick body = Ok v
               /\ index_of indexes k = Ok i
               /\ dict_get hkey_eq_dec (_data s') k
                  = Some (dict_set string_dec (dict_set string_dec e1 ATTR_VALUE v)
                            ATTR_INDEX (JStr i))
         end.
Proof.
  intros Hn H. rewrite finish_effect in H.
  pose proof (steps_shape ATTR_VALUE (value_plan session) (keys (_data s)) s) as S1.
  destruct (effect (steps ATTR_VALUE (value_plan session) (keys (_data s))) s)
    as [[[]| |e] s1] eqn:E1; [|discriminate|discriminate].
  destruct S1 as [S1 K1].
  assert (Hid : station_id s1 = station_id s) by now rewrite S1.
  rewrite Hid in H.
  destruct (fetched session (URL_INDEXES (station_id s))) as [indexes|e];
    [|discriminate].
  pose proof (steps_shape ATTR_INDEX (index_plan indexes) (keys (_data s1)) s1) as S2.
  destruct (effect (steps ATTR_INDEX (index_plan indexes) (keys (_data s1))) s1)
    as [[[]| |e] s2] eqn:E2;
    [|discriminate|destruct (caught_104 e); discriminate].
  destruct S2 as [_ K2].
  destruct (overall indexes) as [value|e];
    [|destruct (caught_104 e); discriminate].
  injection H as <-. exists indexes. split; [reflexivity|].
  intros k Hk. cbn [_data set_data].
  assert (Na : k <> HStr ATTR_AQI).
  { intros ->. unfold is_aqi in Hk.
    now destruct (hkey_eq_dec (HStr ATTR_AQI) (HStr ATTR_AQI)). }
  rewrite dict_get_set_other by exact Na.
  destruct (dict_get hkey_eq_dec (_data s) k) as [e1|] eqn:Ek.
  - assert (I : In k (keys (_data s))) by (eapply dict_get_some; exact Ek).
    pose proof (steps_settle _ _ _ _ _ Hn E1 k I) as T1. rewrite Ek in T1.
    destruct (value_plan session k (Some e1)) as [st l1] eqn:Ep. cbn [fst] in T1.
    destruct st as [|v| |e]; try contradiction.
    { now destruct (value_plan_not_skip session k (Some e1) l1 Hk). }
    destruct T1 as (e1' & [= <-] & G1).
    destruct (value_plan_served session k e1 v) as (sid & text & body & Hs & Hr & Hp);
      [now rewrite Ep|].
    rewrite <- K1 in Hn, I.
    pose proof (steps_settle _ _ _ _ _ Hn E2 k I) as T2. rewrite G1 in T2.
    unfold index_plan in T2. rewrite Hk in T2.
    destruct (index_of indexes k) as [i|e] eqn:Ei; cbn [fst] in T2;
      [|contradiction].
    destruct T2 as (e2 & [= <-] & G2).
    now exists sid, text, body, v, i.
  - apply dict_get_none. rewrite K2, K1. apply dict_get_none in Ek. exact Ek.
Qed.

(** Lines 59-107 run to their end: the sensor list that was served, and
    what is left under each key of the reading as line 68 leaves it. *)
Lemma assemble_settles (s s' : Gios) :
  NoDup (keys (_data s)) ->
  effect (assemble session) s = (Normal tt, s') ->
  exists text items indexes,
    session (URL_STATION (station_id s)) = Response HTTP_OK text (JArr items)
    /\ snd (entries items) = None
    /\ fetched session (URL_INDEXES (station_id s)) = Ok indexes
    /\ forall k, is_aqi k = false ->
         match dict_get hkey_eq_dec (insert_all (fst (entries items)) (_data s)) k with
         | None => dict_get hkey_eq_dec (_data s') k = None
         | Some e1 =>
             exists sid text body v i,
               dict_get string_dec e1 ATTR_ID = Some sid
               /\ session (URL_SENSOR sid) = Response HTTP_OK text body
               /\ pick body = Ok v
               /\ index_of indexes k = Ok i
               /\ dict_get hkey_eq_dec (_data s') k
                  = Some (dict_set string_dec (dict_set string_dec e1 ATTR_VALUE v)
                            ATTR_INDEX (JStr i))
         end.
Proof.
  intros Hn H. rewrite assemble_effect in H.
  destruct (fetched session (URL_STATION (station_id s))) as [station_data|e0] eqn:Ef;
    [|discriminate].
  destruct (truthy station_data) eqn:Et; cbn [negb] in H; [|discriminate].
  destruct (iter station_data) as [items|e0] eqn:Ei; [|discriminate].
  cbv zeta in H.
  destruct (snd (entries items)) as [e0|] eqn:Ee; [discriminate|].
  rewrite (entries_of_array station_data items Et Ei Ee) in Ef.
  destruct (fetched_array session _ items Ef) as [text Hs].
  apply finish_stores in H; [|cbn [_data set_data]; now apply nodup_insert_all].
  destruct H as (indexes & Hf & H).
  replace (station_id (set_data (insert_all (fst (entries items)) (_data s)) s))
    with (station_id s) in Hf by now destruct s.
  exists text, items, indexes. split; [exact Hs|]. split; [exact Ee|].
  split; [exact Hf | exact H].
Qed.

Lemma assemble_stores (s s' : Gios) :
  NoDup (keys (_data s)) ->
  effect (assemble session) s = (Normal tt, s') ->
  forall k e, dict_get hkey_eq_dec (_data s') k = Some e -> is_aqi k = false ->
    exists indexes sid text body v i,
      fetched session (URL_INDEXES (station_id s)) = Ok indexes
      /\ dict_get string_dec e ATTR_ID = Some sid
      /\ session (URL_SENSOR sid) = Response HTTP_OK text body
      /\ pick body = Ok v
      /\ dict_get string_dec e ATTR_VALUE = Some v
      /\ index_of indexes k = Ok i
      /\ dict_get string_dec e ATTR_INDEX = Some (JStr i).
Proof.
  intros Hn H k e Hk Ha.
  destruct (assemble_settles s s' Hn H) as (_ & items & indexes & _ & _ & Hf & G).
  specialize (G k Ha).
  destruct (dict_get hkey_eq_dec (insert_all (fst (entries items)) (_data s)) k)
    as [e1|]; [|congruence].
  destruct G as (sid & text & body & v & i & Hs & Hr & Hp & Hi & G).
  rewrite G in Hk. injection Hk as <-.
  exists indexes, sid, text, body, v, i.
  split; [exact Hf|]. split.
  { rewrite !dict_get_set_other by discriminate. exact Hs. }
  split; [exact Hr|]. split; [exact Hp|]. split.
  { rewrite dict_get_set_other by discriminate. apply dict_get_set_same. }
  split; [exact Hi | apply dict_get_set_same].
Qed.
End Stored.

(** X5. After a cycle that returns, every record of the reading under a key
    other than AQI holds the value that lines 74-83 select from the document
    served in this very cycle, with status 200, for the record's own id, and
    the lowercased level name that the index document of this cycle has
    under the key computed from the record's key. *)
Theorem stored_value_is_selected (session : url -> reply) (id : json)
    (self s' : Gios) (l : list url) (k : hkey) (e : record) :
  reachable id self ->
  update session self = (Returned, s', l) ->
  dict_get hkey_eq_dec (data s') k = Some e ->
  k <> HStr ATTR_AQI ->
  (exists sid text body v,
     dict_get string_dec e ATTR_ID = Some sid
     /\ session (URL_SENSOR sid) = Response HTTP_OK text body
     /\ pick body = Ok v
     /\ dict_get string_dec e ATTR_VALUE = Some v)
  /\ (exists text indexes key level name,
        session (URL_INDEXES id) = Response HTTP_OK text indexes
        /\ index_level k = Ok key
        /\ getitem indexes key = Ok level
        /\ getitem level "indexLevelName" = Ok (JStr name)
        /\ dict_get string_dec e ATTR_INDEX = Some (JStr (lower name))).
Proof.
  intros Hr Hu Hk Na.
  assert (Hd : data s' <> []) by (intros E; now rewrite E in Hk).
  destruct (update_success session id self s' l Hr Hu Hd) as (s0 & Hd0 & Hi0 & A).
  destruct (reachable_consistent id self Hr) as (_ & _ & Hn).
  rewrite <- Hd0 in Hn.
  destruct (assemble_stores session s0 s' Hn A k e Hk (is_aqi_false k Na))
    as (indexes & sid & text & body & v & i & Hf & Hs & Hb & Hp & Hv & Hi & Hx).
  split; [now exists sid, text, body, v|].
  destruct (index_of_ok indexes k i Hi) as (key & level & name & Hl & Hg & Hm & ->).
  rewrite Hi0 in Hf.
  destruct (fetched_document session (URL_INDEXES id) indexes Hf) as [text' Ht].
  { intros ->. discriminate. }
  now exists text', indexes, key, level, name.
Qed.

Lemma stored_value_is_selected_witness :
  let r := update two_sensors (__init__ (JInt 117)) in
  let e := [("id", JInt 15); ("name", JStr "dwutlenek azotu");
            ("value", JInt 11); ("index", JStr "umiarkowany")] in
  (exists sid text body v,
     dict_get string_dec e ATTR_ID = Some sid
     /\ two_sensors (URL_SENSOR sid) = Response HTTP_OK text body
     /\ pick body = Ok v
     /\ dict_get string_dec e ATTR_VALUE = Some v)
  /\ (exists text indexes key level name,
        two_sensors (URL_INDEXES (JInt 117)) = Response HTTP_OK text indexes
        /\ index_level (HStr "NO2") = Ok key
        /\ getitem indexes key = Ok level
        /\ getitem level "indexLevelName" = Ok (JStr name)
        /\ dict_get string_dec e ATTR_INDEX = Some (JStr (lower name))).
Proof.
  apply (stored_value_is_selected two_sensors (JInt 117) (__init__ (JInt 117))
           (state_of (update two_sensors (__init__ (JInt 117))))
           (requests_of (update two_sensors (__init__ (JInt 117))))
           (HStr "NO2")).
  - apply reach_init.
  - vm_compute. reflexivity.
  - vm_compute. reflexivity.
  - discriminate.
Defined.

(** ** Where the id and the name of a record come from *)

Lemma sensor_entry_ok (x : json) (k : hkey) (r : record) :
  sensor_entry x = Ok (k, r) ->
  exists sid param name,
    getitem x ATTR_ID = Ok sid
    /\ getitem x "param" = Ok param
    /\ getitem param "paramName" = Ok name
    /\ code_of x k
    /\ r = [(ATTR_ID, sid); (ATTR_NAME, name)].
Proof.
  unfold sensor_entry, code_of.
  destruct (getitem x ATTR_ID) as [sid|e]; [|discriminate]. cbn [and_then].
  destruct (getitem x "param") as [param|e]; [|discriminate]. cbn [and_then].
  destruct (getitem param "paramName") as [name|e] eqn:En; [|discriminate].
  cbn [and_then].
  destruct (getitem param "paramCode") as [code|e] eqn:Ec; [|discriminate].
  cbn [and_then]. unfold hash.
  destruct (hash_key code) as [key|] eqn:Eh; [|discriminate].
  cbn [and_then]. intros [= <- <-].
  exists sid, param, name. split; [reflexivity|]. split; [reflexivity|].
  split; [exact En|]. split; [|reflexivity]. now exists param, code.
Qed.

Lemma code_of_entry (x : json) (k : hkey) (kv : hkey * record) :
  sensor_entry x = Ok kv -> code_of x k -> fst kv = k.
Proof.
  destruct kv as [k' r]. intros H (param & code & Hp & Hc & Hh).
  apply sensor_entry_ok in H.
  destruct H as (_ & _ & _ & _ & _ & _ & (param' & code' & Hp' & Hc' & Hh') & _).
  cbn [fst]. congruence.
Qed.

Lemma entries_aligned (items : list json) :
  snd (entries items) = None ->
  Forall2 (fun x kv => sensor_entry x = Ok kv) items (fst (entries items)).
Proof.
  induction items as [|x items IH]; cbn [entries]; [constructor|].
  destruct (sensor_entry x) as [kv|e] eqn:Ex; [|discriminate].
  destruct (entries items) as [kvs err]. cbn [fst snd] in *.
  intros H. constructor; [exact Ex | now apply IH].
Qed.

(** The entry a key ends up with when a list of entries is filed: the
    last one of the list under that key. *)
Lemma dict_get_rev_last (kvs : list (hkey * record)) (k : hkey) (r : record) :
  dict_get hkey_eq_dec (rev kvs) k = Some r ->
  exists kvb kva, kvs = kvb ++ (k, r) :: kva /\ ~ In k (map fst kva).
Proof.
  induction kvs as [|[k0 r0] kvs IH]; [discriminate|].
  cbn [rev]. rewrite dict_get_app.
  destruct (dict_get hkey_eq_dec (rev kvs) k) as [v|] eqn:E.
  - intros [= ->]. destruct (IH eq_refl) as (kvb & kva & -> & N).
    now exists ((k0, r0) :: kvb), kva.
  - cbn. destruct (hkey_eq_dec k k0) as [->|N]; [|discriminate].
    intros [= ->]. exists [], kvs. split; [reflexivity|].
    apply dict_get_none in E. unfold keys in E.
    now rewrite map_rev, <- in_rev in E.
Qed.

Lemma dict_get_rev_none (kvs : list (hkey * record)) (k : hkey) :
  dict_get hkey_eq_dec (rev kvs) k = None -> ~ In k (map fst kvs).
Proof.
  intros E. apply dict_get_none in E. unfold keys in E.
  now rewrite map_rev, <- in_rev in E.
Qed.

Lemma aligned_in (items : list json) (kvs : list (hkey * record)) (x : json) :
  Forall2 (fun x kv => sensor_entry x = Ok kv) items kvs ->
  In x items -> exists kv, In kv kvs /\ sensor_entry x = Ok kv.
Proof.
  induction 1 as [|x0 kv0 items kvs H0 _ IH]; [intros []|].
  intros [<-|I].
  - exists kv0. split; [now left | exact H0].
  - destruct (IH I) as (kv & Hin & Hk). exists kv. split; [now right | exact Hk].
Qed.

(** X6. After a cycle that returns, the id and the name of a record under a
    key other than AQI are those of the last sensor of the list served in
    this cycle whose code gives that key; when the list has no such sensor,
    they are those of the record the reading had under the key before the
    call, which is kept and read on. *)
Theorem record_provenance (session : url -> reply) (id : json)
    (self s' : Gios) (l : list url) (k : hkey) (e : record) :
  reachable id self ->
  update session self = (Returned, s', l) ->
  dict_get hkey_eq_dec (data s') k = Some e ->
  k <> HStr ATTR_AQI ->
  exists text items,
    session (URL_STATION id) = Response HTTP_OK text (JArr items)
    /\ ((exists before sensor after sid param name,
           items = before ++ sensor :: after
           /\ code_of sensor k
           /\ (forall x, In x after -> ~ code_of x k)
           /\ getitem sensor ATTR_ID = Ok sid
           /\ getitem sensor "param" = Ok param
           /\ getitem param "paramName" = Ok name
           /\ dict_get string_dec e ATTR_ID = Some sid
           /\ dict_get string_dec e ATTR_NAME = Some name)
        \/ ((forall x, In x items -> ~ code_of x k)
            /\ exists e0,
                 dict_get hkey_eq_dec (data self) k = Some e0
                 /\ dict_get string_dec e ATTR_ID = dict_get string_dec e0 ATTR_ID
                 /\ dict_get string_dec e ATTR_NAME
                    = dict_get string_dec e0 ATTR_NAME)).
Proof.
  intros Hr Hu Hk Na.
  assert (Hd : data s' <> []) by (intros E; now rewrite E in Hk).
  destruct (update_success session id self s' l Hr Hu Hd) as (s0 & Hd0 & Hi0 & A).
  destruct (reachable_consistent id self Hr) as (_ & _ & Hn).
  rewrite <- Hd0 in Hn.
  destruct (assemble_settles session s0 s' Hn A)
    as (text & items & indexes & Hs & Ee & _ & G).
  specialize (G k (is_aqi_false k Na)).
  rewrite Hi0 in Hs. exists text, items. split; [exact Hs|].
  pose proof (entries_aligned items Ee) as Al.
  rewrite dict_get_insert_all in G. unfold data in Hk.
  assert (Keep : forall e1 v i,
             dict_get hkey_eq_dec (_data s') k
             = Some (dict_set string_dec (dict_set string_dec e1 ATTR_VALUE v)
                       ATTR_INDEX (JStr i)) ->
             dict_get string_dec e ATTR_ID = dict_get string_dec e1 ATTR_ID
             /\ dict_get string_dec e ATTR_NAME = dict_get string_dec e1 ATTR_NAME).
  { intros e1 v i E. rewrite E in Hk. injection Hk as <-.
    now rewrite !dict_get_set_other by discriminate. }
  destruct (dict_get hkey_eq_dec (rev (fst (entries items))) k) as [r|] eqn:Er.
  - left. destruct G as (_ & _ & _ & v & i & _ & _ & _ & _ & G).
    destruct (Keep r v i G) as [Ki Kn].
    destruct (dict_get_rev_last _ _ _ Er) as (kvb & kva & Ekv & Nk).
    rewrite Ekv in Al. apply Forall2_app_inv_r in Al.
    destruct Al as (before & rest & Hb & Hrest & ->).
    inversion Hrest as [|sensor kv after kva' Hx Ha]; subst.
    destruct (sensor_entry_ok sensor k r Hx)
      as (sid & param & name & Hsid & Hp & Hname & Hc & ->).
    exists before, sensor, after, sid, param, name.
    split; [reflexivity|]. split; [exact Hc|]. split.
    { intros x Hin Hcx. destruct (aligned_in after kva x Ha Hin) as (kv & Hkv & Hex).
      apply Nk. rewrite <- (code_of_entry x k kv Hex Hcx). now apply in_map. }
    split; [exact Hsid|]. split; [exact Hp|]. split; [exact Hname|].
    rewrite Ki, Kn. split; reflexivity.
  - right. split.
    { intros x Hin Hcx.
      destruct (aligned_in items _ x Al Hin) as (kv & Hkv & Hex).
      apply (dict_get_rev_none _ _ Er).
      rewrite <- (code_of_entry x k kv Hex Hcx). now apply in_map. }
    rewrite Hd0 in G. unfold data.
    destruct (dict_get hkey_eq_dec (_data self) k) as [e0|]; [|congruence].
    destruct G as (_ & _ & _ & v & i & _ & _ & _ & _ & G).
    exists e0. split; [reflexivity|]. exact (Keep e0 v i G).
Qed.

Lemma record_provenance_witness :
  let self := state_of (update two_sensors (__init__ (JInt 117))) in
  let e := [("id", JInt 15); ("name", JStr "dwutlenek azotu");
            ("value", JInt 11); ("index", JStr "umiarkowany")] in
  exists text items,
    sensor_unlisted (URL_STATION (JInt 117)) = Response HTTP_OK text (JArr items)
    /\ ((exists before sensor after sid param name,
           items = before ++ sensor :: after
           /\ code_of sensor (HStr "NO2")
           /\ (forall x, In x after -> ~ code_of x (HStr "NO2"))
           /\ getitem sensor ATTR_ID = Ok sid
           /\ getitem sensor "param" = Ok param
           /\ getitem param "paramName" = Ok name
           /\ dict_get string_dec e ATTR_ID = Some sid
           /\ dict_get string_dec e ATTR_NAME = Some name)
        \/ ((forall x, In x items -> ~ code_of x (HStr "NO2"))
            /\ exists e0,
                 dict_get hkey_eq_dec (data self) (HStr "NO2") = Some e0
                 /\ dict_get string_dec e ATTR_ID = dict_get string_dec e0 ATTR_ID
                 /\ dict_get string_dec e ATTR_NAME
                    = dict_get string_dec e0 ATTR_NAME)).
Proof.
  apply (record_provenance sensor_unlisted (JInt 117)
           (state_of (update two_sensors (__init__ (JInt 117))))
           (state_of (update sensor_unlisted
                        (state_of (update two_sensors (__init__ (JInt 117))))))
           (requests_of (update sensor_unlisted
                           (state_of (update two_sensors (__init__ (JInt 117))))))
           (HStr "NO2")).
  - apply reach_update, reach_init.
  - vm_compute. reflexivity.
  - vm_compute. reflexivity.
  - discriminate.
Defined.

(** ** Bodies that send no request *)

Create HintDb silent.

Lemma silent_ret {A} (a : A) : silent (ret a).
Proof. intros s. reflexivity. Qed.

Lemma silent_return {A} : silent (@return_ A).
Proof. intros s. reflexivity. Qed.

Lemma silent_raise {A} (e : exn) : silent (@raise A e).
Proof. intros s. reflexivity. Qed.

Lemma silent_eval {A} (r : result A) : silent (eval r).
Proof. intros s. reflexivity. Qed.

Lemma silent_get {A} (f : Gios -> A) : silent (get f).
Proof. intros s. reflexivity. Qed.

Lemma silent_modify (f : Gios -> Gios) : silent (modify f).
Proof. intros s. reflexivity. Qed.

Lemma requests_bind {A B} (m : M A) (f : A -> M B) (s : Gios) :
  requests (bind m f) s =
  requests m s ++ match effect m s with
                  | (Normal a, s1) => requests (f a) s1
                  | _ => []
                  end.
Proof.
  unfold requests, effect, bind.
  destruct (m s) as [[[a| |e] s1] l1]; cbn; try now rewrite app_nil_r.
  now destruct (f a s1) as [[c s2] l2].
Qed.

Lemma requests_try {A} (body handler : M A) (classes : exn -> bool) (s : Gios) :
  requests (try_except body classes handler) s =
  requests body s ++ match effect body s with
                     | (Raise e, s1) => if classes e then requests handler s1 else []
                     | _ => []
                     end.
Proof.
  unfold requests, effect, try_except.
  destruct (body s) as [[[a| |e] s1] l1]; cbn; try now rewrite app_nil_r.
  destruct (classes e); [|now rewrite app_nil_r].
  now destruct (handler s1) as [[c s2] l2].
Qed.

Lemma silent_bind {A B} (m : M A) (f : A -> M B) :
  silent m -> (forall a, silent (f a)) -> silent (bind m f).
Proof.
  intros Hm Hf s. rewrite requests_bind, Hm.
  destruct (effect m s) as [[a| |e] s1]; try reflexivity. apply Hf.
Qed.

Lemma silent_try {A} (body handler : M A) (classes : exn -> bool) :
  silent body -> silent handler -> silent (try_except body classes handler).
Proof.
  intros Hb Hh s. rewrite requests_try, Hb.
  destruct (effect body s) as [[a| |e] s1]; try reflexivity.
  destruct (classes e); [apply Hh | reflexivity].
Qed.

Lemma silent_if {A} (b : bool) (m1 m2 : M A) :
  silent m1 -> silent m2 -> silent (if b then m1 else m2).
Proof. now destruct b. Qed.

#[local] Hint Resolve silent_ret silent_return silent_raise silent_eval silent_get
  silent_modify silent_bind silent_try silent_if : silent.

Ltac silent_step :=
  first [ solve [auto with silent]
        | apply silent_bind; [solve [auto with silent] | intros ?] ].

Lemma silent_store (sensor : hkey) (field : string) (v : json) :
  silent (store sensor field v).
Proof. unfold store. repeat silent_step. Qed.

#[local] Hint Resolve silent_store : silent.

Lemma silent_for_stations (l : list json) : silent (for_stations l).
Proof.
  induction l as [|x l IH]; cbn [for_stations]; [apply silent_ret|].
  do 2 silent_step. apply silent_bind; [|intros _; exact IH].
  apply silent_if; [|apply silent_ret]. repeat silent_step.
Qed.

Lemma silent_for_sensors (l : list json) : silent (for_sensors l).
Proof. intros s. unfold requests. now rewrite for_sensors_run. Qed.

Lemma silent_for_indexes (indexes : json) (ks : list hkey) :
  silent (for_indexes indexes ks).
Proof.
  induction ks as [|k ks IH]; cbn [for_indexes]; [apply silent_ret|].
  apply silent_bind; [|intros _; exact IH].
  apply silent_if; [apply silent_ret|]. repeat silent_step.
Qed.

Lemma silent_store_latest (sensor : hkey) (sensor_data : json) :
  silent (store_latest sensor sensor_data).
Proof.
  intros s. unfold requests. rewrite store_latest_run.
  destruct (pick sensor_data) as [v|e].
  - apply silent_store.
  - now destruct (caught_84 e).
Qed.

#[local] Hint Resolve silent_for_stations silent_for_sensors silent_for_indexes
  silent_store_latest : silent.

(** A run is its completion, the fields it leaves and its requests. *)
Lemma run_of_effect {A} (m : M A) (s s' : Gios) (c : completion A) (l : list url) :
  effect m s = (c, s') -> requests m s = l -> m s = (c, s', l).
Proof.
  unfold effect, requests. destruct (m s) as [[c0 s0] l0]. cbn.
  now intros [= -> ->] ->.
Qed.

Section Requests.
Variable session : url -> reply.

Lemma requests_async_get (u : url) (s : Gios) :
  requests (_async_get session u) s = [u].
Proof.
  unfold requests. rewrite async_get_run.
  destruct (session u) as [|status text body|text]; [reflexivity| |reflexivity].
  now destruct (status =? HTTP_OK)%Z.
Qed.

(** Lines 40-57 ask for the directory, once, when no name is cached, and
    for nothing else. *)
Lemma resolve_requests (s : Gios) :
  requests (resolve session) s
  = if truthy (station_name s) then [] else [URL_STATIONS].
Proof.
  unfold resolve. rewrite requests_bind. cbn [requests effect get fst snd app].
  destruct (truthy (station_name s)); cbn [negb]; [reflexivity|].
  rewrite requests_bind. unfold _get_stations. rewrite requests_async_get.
  destruct (effect (_async_get session URL_STATIONS) s) as [[stations| |e] s1];
    try reflexivity.
  cbn [app]. f_equal.
  assert (S : silent ((if negb (truthy stations) then return_ else pass) ;;
                      items <- eval (iter stations) ;;
                      for_stations items ;;
                      name <- get station_name ;;
                      if negb (truthy name)
                      then sid <- get station_id ;;
                           raise (NoStationError (no_station_message sid))
                      else pass)).
  { apply silent_bind; [apply silent_if; [apply silent_return | apply silent_ret]|].
    intros _. do 3 silent_step. apply silent_if; [|apply silent_ret].
    repeat silent_step. }
  apply S.
Qed.
End Requests.

(** ** Caching the station of the directory *)

Lemma for_stations_last (before after : list json) (st lat lon name : json)
    (s : Gios) :
  (forall x, In x before -> readable_station (station_id s) x) ->
  (exists v, getitem st ATTR_ID = Ok v /\ py_eq v (station_id s) = true) ->
  getitem st "gegrLat" = Ok lat ->
  getitem st "gegrLon" = Ok lon ->
  getitem st "stationName" = Ok name ->
  (forall x, In x after -> other_station (station_id s) x) ->
  effect (for_stations (before ++ st :: after)) s
  = (Normal tt, set_station_name name (set_longitude lon (set_latitude lat s))).
Proof.
  revert s. induction before as [|x before IH];
    intros s Hb (v & Hv & Hm) Hlat Hlon Hname Ha.
  - cbn [app]. rewrite for_stations_cons_effect, Hv, Hm, Hlat, Hlon, Hname.
    unfold effect. now rewrite for_stations_no_match.
  - cbn [app]. rewrite for_stations_cons_effect.
    destruct (Hb x (or_introl eq_refl)) as (vx & Hvx & Hf). rewrite Hvx.
    assert (Hb' : forall y, In y before -> readable_station (station_id s) y)
      by (intros y Hy; apply Hb; now right).
    destruct (py_eq vx (station_id s)).
    + destruct (Hf eq_refl) as (a & b & c & -> & -> & ->).
      rewrite IH; try assumption; [reflexivity|]. now exists v.
    + apply IH; try assumption. now exists v.
Qed.

(** X7. While no name is cached, when the directory is served with status
    200 and holds an entry with the configured id whose name is truthy,
    after entries that can be read and before entries with other ids, the
    cycle caches the coordinates and the name of that entry and goes on as a
    cycle on an object that has them cached, the directory request put
    before the requests of that cycle. *)
Theorem station_resolved (session : url -> reply) (self : Gios) (text : string)
    (before after : list json) (st lat lon name : json) :
  truthy (station_name self) = false ->
  session URL_STATIONS = Response HTTP_OK text (JArr (before ++ st :: after)) ->
  (forall x, In x before -> readable_station (station_id self) x) ->
  (exists v, getitem st ATTR_ID = Ok v /\ py_eq v (station_id self) = true) ->
  getitem st "gegrLat" = Ok lat ->
  getitem st "gegrLon" = Ok lon ->
  getitem st "stationName" = Ok name ->
  truthy name = true ->
  (forall x, In x after -> other_station (station_id self) x) ->
  let r := update session
             (set_station_name name (set_longitude lon (set_latitude lat self))) in
  update session self = (result_of r, state_of r, URL_STATIONS :: requests_of r)
  /\ station_fields (state_of (update session self)) = (lat, lon, name).
Proof.
  intros Hn Hs Hb Hm Hlat Hlon Hname Ht Ha.
  set (s1 := set_station_name name (set_longitude lon (set_latitude lat self))).
  cbv zeta.
  assert (R : resolve session self = (Normal tt, s1, [URL_STATIONS])).
  { apply run_of_effect; [|now rewrite resolve_requests, Hn].
    rewrite resolve_effect, Hn. unfold fetched. rewrite Hs, Z.eqb_refl.
    assert (T : truthy (JArr (before ++ st :: after)) = true)
      by now destruct before.
    rewrite T. cbn [negb iter].
    rewrite (for_stations_last before after st lat lon name self)
      by assumption.
    fold s1. replace (station_name s1) with name by reflexivity.
    now rewrite Ht. }
  assert (E : update session self
              = (result_of (update session s1), state_of (update session s1),
                 URL_STATIONS :: requests_of (update session s1))).
  { rewrite (update_cached session s1) by exact Ht.
    unfold update, call, update_body, bind, result_of, state_of, requests_of.
    rewrite R. now destruct (assemble session s1) as [[[[]| |e] s2] l2]. }
  split; [exact E|].
  rewrite E. unfold state_of at 1. cbn [fst snd].
  destruct (update_keeps_station session s1 Ht) as [K _].
  rewrite K. reflexivity.
Qed.

Lemma station_resolved_witness :
  let self := __init__ (JInt 117) in
  let r := update two_sensors
             (set_station_name (JStr "Krakow")
                (set_longitude (JStr "19.9") (set_latitude (JStr "50.0") self))) in
  update two_sensors self = (result_of r, state_of r, URL_STATIONS :: requests_of r)
  /\ station_fields (state_of (update two_sensors self))
     = (JStr "50.0", JStr "19.9", JStr "Krakow").
Proof.
  apply (station_resolved two_sensors (__init__ (JInt 117)) ""
           [station (JInt 7) "other"] [] (station (JInt 117) "Krakow")).
  - reflexivity.
  - reflexivity.
  - intros x [<-|[]]. exists (JInt 7). split; [reflexivity | discriminate].
  - exists (JInt 117). split; reflexivity.
  - reflexivity.
  - reflexivity.
  - reflexivity.
  - reflexivity.
  - intros x [].
Defined.

(** ** The exceptions of lines 59-107 *)

Section Raises.
Variable session : url -> reply.

Hint Resolve behaves_getitem behaves_getindex behaves_iter behaves_hash
  behaves_subscript behaves_lower_method behaves_index_level behaves_store
  behaves_get_sensor : behaves.

Lemma errors_store_latest (sensor : hkey) (sensor_data : json) :
  behaves session data_errors (store_latest sensor sensor_data).
Proof.
  unfold store_latest. apply (behaves_try session lookup_errors).
  - do 3 behaves_step. apply behaves_if; [auto with behaves|].
    do 2 behaves_step. apply behaves_if; [auto with behaves|].
    now apply behaves_raise.
  - now intros [].
  - now intros [].
  - repeat behaves_step.
Qed.

Lemma errors_for_sensors (l : list json) : behaves session data_errors (for_sensors l).
Proof.
  induction l as [|x l IH]; cbn [for_sensors]; [apply behaves_ret|].
  repeat behaves_step.
Qed.

Lemma errors_for_values (ks : list hkey) :
  behaves session data_errors (for_values session ks).
Proof.
  induction ks as [|k ks IH]; cbn [for_values]; [apply behaves_ret|].
  apply behaves_bind; [|intros _; exact IH].
  apply behaves_if; [apply behaves_ret|].
  apply behaves_bind; [now apply behaves_get_sensor|].
  intros sensor_data. apply errors_store_latest.
Qed.

Lemma errors_for_indexes (indexes : json) (ks : list hkey) :
  behaves session data_errors (for_indexes indexes ks).
Proof.
  induction ks as [|k ks IH]; cbn [for_indexes]; [apply behaves_ret|].
  apply behaves_bind; [|intros _; exact IH].
  apply behaves_if; [apply behaves_ret|]. repeat behaves_step.
Qed.

Hint Resolve errors_for_sensors errors_for_values errors_for_indexes : behaves.

(** Lines 59-107 raise nothing but the errors of a lookup in upstream data
    and the [ApiError] of a request. *)
Lemma errors_assemble : behaves session data_errors (assemble session).
Proof.
  unfold assemble.
  apply behaves_bind.
  { unfold _get_station. behaves_step. now apply behaves_async_get. }
  intros station_data.
  apply behaves_bind;
    [apply behaves_if; [repeat behaves_step | apply behaves_ret] | intros _].
  do 4 behaves_step.
  apply behaves_bind.
  { unfold _get_indexes. behaves_step. now apply behaves_async_get. }
  intros indexes.
  apply (behaves_try session data_errors).
  - repeat behaves_step.
  - now intros [].
  - tauto.
  - repeat behaves_step.
Qed.

Lemma guarded_store_latest (sensor : hkey) (sensor_data : json) :
  behaves session guarded_errors (store_latest sensor sensor_data).
Proof.
  unfold store_latest. apply (behaves_try session lookup_errors).
  - do 3 behaves_step. apply behaves_if; [auto with behaves|].
    do 2 behaves_step. apply behaves_if; [auto with behaves|].
    now apply behaves_raise.
  - now intros [].
  - now intros [].
  - repeat behaves_step.
Qed.

Lemma guarded_for_values (ks : list hkey) :
  behaves session guarded_errors (for_values session ks).
Proof.
  induction ks as [|k ks IH]; cbn [for_values]; [apply behaves_ret|].
  apply behaves_bind; [|intros _; exact IH].
  apply behaves_if; [apply behaves_ret|].
  apply behaves_bind; [now apply behaves_get_sensor|].
  intros sensor_data. apply guarded_store_latest.
Qed.

(** From line 70 on, a cycle raises nothing that the handlers of lines 84
    and 104 list: no [ValueError], no [IndexError], no [TypeError]. *)
Lemma guarded_finish : behaves session guarded_errors (finish session).
Proof.
  unfold finish. behaves_step.
  apply behaves_bind; [apply guarded_for_values | intros _].
  apply behaves_bind.
  { unfold _get_indexes. behaves_step. now apply behaves_async_get. }
  intros indexes.
  apply (behaves_try session data_errors).
  - repeat behaves_step.
  - now intros [].
  - now intros [].
  - repeat behaves_step.
Qed.

Lemma assemble_no_station_error (s s' : Gios) (x : option string) (l : list url) :
  assemble session s <> (Raise (NoStationError x), s', l).
Proof.
  intros E. pose proof (errors_assemble s) as B. rewrite E in B.
  cbn in B. destruct B. discriminate.
Qed.
End Raises.

(** A [NoStationError] out of a cycle: where it comes from and what it
    carries. *)
Lemma no_station_error_run (session : url -> reply) (self : Gios)
    (x : option string) :
  result_of (update session self) = Raised (NoStationError x) ->
  let r := update session self in
  x = no_station_message (station_id self)
  /\ truthy (station_name self) = false
  /\ truthy (station_name (state_of r)) = false
  /\ data (state_of r) = data self
  /\ requests_of r = [URL_STATIONS]
  /\ exists text body,
       session URL_STATIONS = Response HTTP_OK text body /\ truthy body = true.
Proof.
  cbv zeta. intros H.
  pose proof (resolve_effect session self) as Re.
  pose proof (resolve_requests session self) as Rq.
  pose proof (resolve_frame session self) as Rf.
  unfold update, call, update_body, bind, result_of, state_of, requests_of in *.
  unfold effect in Re, Rf. unfold requests in Rq.
  destruct (resolve session self) as [[c s1] l1]. cbn [fst snd] in *.
  destruct c as [[]| |e].
  - exfalso. pose proof (assemble_no_station_error session s1) as N.
    destruct (assemble session s1) as [[[[]| |e] s2] l2]; cbn in H;
      try discriminate.
    injection H as ->. now apply (N s2 x l2).
  - discriminate.
  - cbn in H. injection H as ->. cbn [fst snd].
    destruct Rf as (Rd & Ri & _ & _).
    destruct (truthy (station_name self)) eqn:Hn; [discriminate|].
    destruct (fetched session URL_STATIONS) as [stations|e] eqn:Ef.
    2:{ injection Re as Re _. pose proof (fetched_raises _ _ _ Ef) as Fe.
        destruct e; discriminate. }
    destruct (truthy stations) eqn:Ht; cbn [negb] in Re; [|discriminate].
    destruct (iter stations) as [items|e] eqn:Ei.
    2:{ injection Re as Re _. rewrite (iter_raises _ _ Ei) in Re. discriminate. }
    assert (Nn : stations <> JNull) by (intros ->; discriminate).
    destruct (fetched_document session URL_STATIONS stations Ef Nn) as [text Hs].
    pose proof (for_stations_again items self self eq_refl) as F.
    unfold effect in Re, F.
    destruct (for_stations items self) as [[[[]| |e] s2] l2]; cbn [fst] in Re, F;
      [|discriminate|].
    + destruct (truthy (station_name s2)) eqn:Hn2; cbn [negb] in Re;
        [discriminate|].
      injection Re as E1 E2.
      split; [congruence|]. split; [reflexivity|]. split; [congruence|].
      split; [exact Rd|]. split; [exact Rq|]. now exists text, stations.
    + injection Re as Re _. subst e. destruct F; discriminate.
Qed.

(** X8. update raises NoStationError only from the look-up of the station:
    no name was cached and none is cached now, the directory was served
    with status 200 and was truthy, the error carries the message that
    lines 55-57 format from the configured id, the directory request is the
    only request of the call, and the reading is as it was. *)
Theorem no_station_error_only_unresolved (session : url -> reply) (self : Gios)
    (x : option string) :
  result_of (update session self) = Raised (NoStationError x) ->
  let r := update session self in
  x = no_station_message (station_id self)
  /\ truthy (station_name self) = false
  /\ truthy (station_name (state_of r)) = false
  /\ data (state_of r) = data self
  /\ requests_of r = [URL_STATIONS]
  /\ exists text body,
       session URL_STATIONS = Response HTTP_OK text body /\ truthy body = true.
Proof. exact (no_station_error_run session self x). Qed.

Lemma no_station_error_only_unresolved_witness :
  let self := __init__ (JStr "aa01") in
  let r := update (single [JInt 5] full_indexes) self in
  Some "aa01 is not a valid measuring station ID." = no_station_message (station_id self)
  /\ truthy (station_name self) = false
  /\ truthy (station_name (state_of r)) = false
  /\ data (state_of r) = data self
  /\ requests_of r = [URL_STATIONS]
  /\ exists text body,
       single [JInt 5] full_indexes URL_STATIONS = Response HTTP_OK text body
       /\ truthy body = true.
Proof.
  apply (no_station_error_only_unresolved (single [JInt 5] full_indexes)
           (__init__ (JStr "aa01"))
           (Some "aa01 is not a valid measuring station ID.")).
  vm_compute. reflexivity.
Defined.

(** ** When the sensor list is not served *)

(** X9. With a station name cached, a cycle whose request for the sensor
    list meets a connection error, or is answered with status 200 and a
    falsy body, returns after that one request with the reading thrown
    away; answered with another status, it raises ApiError with the text of
    the answer after that one request and leaves the object as it was,
    reading included. *)
Theorem sensor_list_not_served (session : url -> reply) (self : Gios) :
  truthy (station_name self) = true ->
  let u := URL_STATION (station_id self) in
  (session u = ClientError ->
   update session self = (Returned, set_data [] self, [u]))
  /\ (forall text body,
        session u = Response HTTP_OK text body -> truthy body = false ->
        update session self = (Returned, set_data [] self, [u]))
  /\ (forall status text body,
        session u = Response status text body -> status <> HTTP_OK ->
        update session self = (Raised (ApiError text), self, [u])).
Proof.
  intros Hn. cbv zeta.
  split; [|split];
    [intros H | intros text body H Hb | intros status text body H Hst];
    rewrite (update_cached session self Hn);
    unfold call, assemble; unfold bind at 1; unfold _get_station;
    unfold bind at 1; unfold get at 1; rewrite async_get_run, H.
  - reflexivity.
  - rewrite Z.eqb_refl. cbn [app]. unfold bind at 1. rewrite Hb. reflexivity.
  - apply Z.eqb_neq in Hst. now rewrite Hst.
Qed.

Lemma sensor_list_not_served_witness :
  let self := state_of (update two_sensors (__init__ (JInt 117))) in
  let u := URL_STATION (station_id self) in
  (server_error u = ClientError ->
   update server_error self = (Returned, set_data [] self, [u]))
  /\ (forall text body,
        server_error u = Response HTTP_OK text body -> truthy body = false ->
        update server_error self = (Returned, set_data [] self, [u]))
  /\ (forall status text body,
        server_error u = Response status text body -> status <> HTTP_OK ->
        update server_error self = (Raised (ApiError text), self, [u])).
Proof.
  apply (sensor_list_not_served server_error
           (state_of (update two_sensors (__init__ (JInt 117))))).
  reflexivity.
Defined.

(** ** The requests of a cycle that succeeds *)

Lemma flat_map_ext_in {A B : Type} (f g : A -> list B) (l : list A) :
  (forall a, In a l -> f a = g a) -> flat_map f l = flat_map g l.
Proof.
  induction l as [|a l IH]; intros H; [reflexivity|]. cbn [flat_map].
  rewrite (H a (or_introl eq_refl)), IH; [reflexivity|].
  intros b Hb. apply H. now right.
Qed.

(** Line 72 asks for the values of the sensor whose id the record has,
    whatever the answer turns out to be. *)
Lemma value_plan_requests (session : url -> reply) (k : hkey) (e : option record) :
  snd (value_plan session k e) = sensor_url k e.
Proof.
  unfold value_plan, sensor_url. destruct (is_aqi k); [reflexivity|].
  destruct e as [e|]; [|reflexivity].
  destruct (dict_get string_dec e ATTR_ID) as [id|]; [|reflexivity].
  destruct (session (URL_SENSOR id)) as [|status text body|text];
    [reflexivity| |reflexivity].
  now destruct (status =? HTTP_OK)%Z.
Qed.

Lemma sensor_url_store (d : reading) (k0 k : hkey) (entry : record) (field : string)
    (v : json) :
  field <> ATTR_ID ->
  dict_get hkey_eq_dec d k0 = Some entry ->
  sensor_url k (dict_get hkey_eq_dec
                  (dict_set hkey_eq_dec d k0 (dict_set string_dec entry field v)) k)
  = sensor_url k (dict_get hkey_eq_dec d k).
Proof.
  intros Hf Hk. destruct (hkey_eq_dec k k0) as [->|N].
  - rewrite dict_get_set_same, Hk. unfold sensor_url.
    rewrite dict_get_set_other by (intros E; apply Hf; now rewrite E).
    reflexivity.
  - now rewrite dict_get_set_other.
Qed.

Lemma sensor_urls_keys (d : reading) :
  NoDup (keys d) ->
  flat_map (fun k => sensor_url k (dict_get hkey_eq_dec d k)) (keys d)
  = sensor_urls d.
Proof.
  induction d as [|[k e] d IH]; intros Hn; [reflexivity|].
  inversion Hn as [|? ? Hk Hn']; subst.
  change (sensor_urls ((k, e) :: d)) with (sensor_url k (Some e) ++ sensor_urls d).
  cbn [keys map flat_map fst snd dict_get].
  destruct (hkey_eq_dec k k) as [_|N]; [|contradiction].
  f_equal. rewrite <- (IH Hn'). apply flat_map_ext_in. intros k' Hk'.
  destruct (hkey_eq_dec k' k) as [->|N]; [contradiction | reflexivity].
Qed.

Lemma run_step_requests (field : string) (st : step * list url) (k : hkey) (s : Gios) :
  requests (run_step field st k) s = snd st.
Proof.
  unfold requests, run_step. destruct (fst st); try reflexivity.
  now destruct (store k field v s) as [[c s'] l].
Qed.

Lemma steps_cons_requests (field : string)
    (plan : hkey -> option record -> step * list url)
    (k : hkey) (ks : list hkey) (s : Gios) :
  requests (steps field plan (k :: ks)) s =
  snd (plan k (dict_get hkey_eq_dec (_data s) k))
  ++ match effect (run_step field (plan k (dict_get hkey_eq_dec (_data s) k)) k) s with
     | (Normal _, s1) => requests (steps field plan ks) s1
     | _ => []
     end.
Proof.
  cbn [steps]. rewrite requests_bind. f_equal. apply run_step_requests.
Qed.

Lemma steps_silent (field : string) (plan : hkey -> option record -> step * list url)
    (ks : list hkey) :
  (forall k e, snd (plan k e) = []) -> silent (steps field plan ks).
Proof.
  intros H. induction ks as [|k ks IH]; intros s; [reflexivity|].
  rewrite steps_cons_requests, H.
  destruct (effect (run_step field _ k) s) as [[[]| |e] s1]; try reflexivity.
  apply IH.
Qed.

Section Sequence.
Variable session : url -> reply.

(** The loop of lines 70-87, run to its end, has asked for the values of
    each record it found, in the order of the reading. *)
Lemma steps_value_requests (ks : list hkey) (s s' : Gios) :
  effect (steps ATTR_VALUE (value_plan session) ks) s = (Normal tt, s') ->
  requests (steps ATTR_VALUE (value_plan session) ks) s
  = flat_map (fun k => sensor_url k (dict_get hkey_eq_dec (_data s) k)) ks.
Proof.
  revert s. induction ks as [|k ks IH]; intros s H; [reflexivity|].
  rewrite steps_cons_requests, value_plan_requests.
  rewrite steps_cons_effect in H. cbn [flat_map]. f_equal.
  rewrite run_step_effect in H |- *.
  destruct (fst (value_plan session k (dict_get hkey_eq_dec (_data s) k)))
    as [|v| |e]; [now apply IH| |discriminate|discriminate].
  destruct (dict_get hkey_eq_dec (_data s) k) as [entry|] eqn:Ek;
    [|discriminate].
  rewrite (IH _ H). cbn [_data set_data]. apply flat_map_ext. intros k'.
  now apply sensor_url_store.
Qed.

Lemma requests_get_indexes (s : Gios) :
  requests (_get_indexes session) s = [URL_INDEXES (station_id s)].
Proof.
  unfold _get_indexes. rewrite requests_bind. cbn [requests effect get fst snd app].
  apply requests_async_get.
Qed.

Lemma requests_get_station (s : Gios) :
  requests (_get_station session) s = [URL_STATION (station_id s)].
Proof.
  unfold _get_station. rewrite requests_bind. cbn [requests effect get fst snd app].
  apply requests_async_get.
Qed.

(** The requests of lines 70-107: those of the first loop and then, when
    that loop ran to its end, the one for the index document. *)
Lemma finish_requests (s : Gios) :
  requests (finish session) s =
  requests (steps ATTR_VALUE (value_plan session) (keys (_data s))) s
  ++ match effect (steps ATTR_VALUE (value_plan session) (keys (_data s))) s with
     | (Normal _, s1) => [URL_INDEXES (station_id s1)]
     | _ => []
     end.
Proof.
  unfold finish. rewrite requests_bind. cbn [requests effect get fst snd app].
  fold (requests (for_values session (keys (_data s)) ;;
                  indexes <- _get_indexes session ;;
                  try_except
                    (d <- get _data ;;
                     for_indexes indexes (keys d) ;;
                     d <- get _data ;;
                     modify (set_data (dict_set hkey_eq_dec d (HStr ATTR_AQI)
                                         [(ATTR_NAME, JStr ATTR_AQI)])) ;;
                     level <- eval (getitem indexes "stIndexLevel") ;;
                     name <- eval (getitem level "indexLevelName") ;;
                     value <- eval (lower_method name) ;;
                     store (HStr ATTR_AQI) ATTR_VALUE (JStr value))
                    caught_104
                    (modify (set_data []) ;; return_)) s).
  rewrite requests_bind.
  replace (requests (for_values session (keys (_data s))) s)
    with (requests (steps ATTR_VALUE (value_plan session) (keys (_data s))) s)
    by (unfold requests; now rewrite for_values_steps).
  replace (effect (for_values session (keys (_data s))) s)
    with (effect (steps ATTR_VALUE (value_plan session) (keys (_data s))) s)
    by (unfold effect; now rewrite for_values_steps).
  f_equal.
  destruct (effect (steps ATTR_VALUE (value_plan session) (keys (_data s))) s)
    as [[[]| |e] s1]; try reflexivity.
  rewrite requests_bind, requests_get_indexes. cbn [app]. f_equal.
  destruct (effect (_get_indexes session) s1) as [[indexes| |e] s2];
    try reflexivity.
  assert (S : silent
                (try_except
                   (d <- get _data ;;
                    for_indexes indexes (keys d) ;;
                    d <- get _data ;;
                    modify (set_data (dict_set hkey_eq_dec d (HStr ATTR_AQI)
                                        [(ATTR_NAME, JStr ATTR_AQI)])) ;;
                    level <- eval (getitem indexes "stIndexLevel") ;;
                    name <- eval (getitem level "indexLevelName") ;;
                    value <- eval (lower_method name) ;;
                    store (HStr ATTR_AQI) ATTR_VALUE (JStr value))
                   caught_104
                   (modify (set_data []) ;; return_)))
    by (apply silent_try; repeat silent_step).
  apply S.
Qed.

(** The end of the cycle changes no id, and adds no record that has one. *)
Lemma finish_sensor_urls (s s' : Gios) :
  NoDup (keys (_data s)) ->
  effect (finish session) s = (Normal tt, s') ->
  sensor_urls (_data s') = sensor_urls (_data s).
Proof.
  intros Hn H.
  destruct (finish_stores session s s' Hn H) as (indexes & _ & G).
  pose proof (finish_cases session s) as C. rewrite H in C.
  destruct C as (_ & value & d2 & _ & _ & K2 & -> & _).
  cbn [_data set_data] in *.
  assert (Hn2 : NoDup (keys d2)) by now rewrite K2.
  rewrite <- (sensor_urls_keys _ (nodup_keys_set hkey_eq_dec d2 (HStr ATTR_AQI)
                                    (aqi_record value) Hn2)).
  rewrite <- (sensor_urls_keys _ Hn).
  assert (E : forall k,
             sensor_url k (dict_get hkey_eq_dec
                             (dict_set hkey_eq_dec d2 (HStr ATTR_AQI)
                                (aqi_record value)) k)
             = sensor_url k (dict_get hkey_eq_dec (_data s) k)).
  { intros k. destruct (is_aqi k) eqn:Hk.
    - unfold sensor_url. now rewrite Hk.
    - specialize (G k Hk).
      destruct (dict_get hkey_eq_dec (_data s) k) as [e1|].
      + destruct G as (sid & text & body & v & i & _ & _ & _ & _ & ->).
        unfold sensor_url. rewrite Hk.
        now rewrite !dict_get_set_other by discriminate.
      + now rewrite G. }
  rewrite (flat_map_ext _ _ E). rewrite keys_set, K2.
  destruct (in_dec hkey_eq_dec (HStr ATTR_AQI) (keys (_data s))) as [I|N];
    [reflexivity|].
  rewrite flat_map_app. cbn [flat_map]. unfold sensor_url at 2.
  replace (is_aqi (HStr ATTR_AQI)) with true by reflexivity.
  now rewrite !app_nil_r.
Qed.

Lemma assemble_requests (s s' : Gios) :
  NoDup (keys (_data s)) ->
  effect (assemble session) s = (Normal tt, s') ->
  requests (assemble session) s
  = URL_STATION (station_id s) :: sensor_urls (_data s')
    ++ [URL_INDEXES (station_id s)].
Proof.
  intros Hn H.
  change (assemble session)
    with (station_data <- _get_station session ;;
          (if negb (truthy station_data)
           then modify (set_data []) ;; return_ else pass) ;;
          items <- eval (iter station_data) ;;
          for_sensors items ;;
          finish session).
  rewrite assemble_effect in H.
  rewrite requests_bind, requests_get_station. cbn [app]. f_equal.
  unfold _get_station at 1. rewrite effect_bind. cbn [effect get fst].
  fold (effect (_async_get session (URL_STATION (station_id s))) s).
  rewrite async_get_effect.
  destruct (fetched session (URL_STATION (station_id s))) as [station_data|e];
    [|discriminate].
  rewrite requests_bind.
  destruct (truthy station_data); cbn [negb] in H |- *; [|discriminate].
  cbn [requests effect pass ret fst snd app].
  rewrite requests_bind. cbn [requests effect eval fst snd app].
  destruct (iter station_data) as [items|e]; [|discriminate].
  cbv zeta in H. rewrite requests_bind, silent_for_sensors. cbn [app].
  unfold effect at 1. rewrite for_sensors_run. cbn [fst].
  destruct (snd (entries items)) as [e|]; [discriminate|].
  set (s1 := set_data (insert_all (fst (entries items)) (_data s)) s) in *.
  assert (Hn1 : NoDup (keys (_data s1))) by now apply nodup_insert_all.
  rewrite finish_requests.
  pose proof (finish_effect session s1) as F. rewrite H in F.
  pose proof (steps_shape ATTR_VALUE (value_plan session) (keys (_data s1)) s1) as Sh.
  destruct (effect (steps ATTR_VALUE (value_plan session) (keys (_data s1))) s1)
    as [[[]| |e] s2] eqn:E1; [|discriminate|discriminate].
  rewrite (steps_value_requests _ _ _ E1), (sensor_urls_keys _ Hn1).
  rewrite (finish_sensor_urls s1 s' Hn1 H).
  destruct Sh as [Sh _]. rewrite Sh. reflexivity.
Qed.
End Sequence.

(** A cycle that returns with a reading ran lines 40-57 and then lines
    59-107 to their end. *)
Lemma update_success_run (session : url -> reply) (id : json) (self s' : Gios)
    (l : list url) :
  reachable id self ->
  update session self = (Returned, s', l) ->
  data s' <> [] ->
  exists s0 l0 l1,
    resolve session self = (Normal tt, s0, l0)
    /\ assemble session s0 = (Normal tt, s', l1)
    /\ l = l0 ++ l1
    /\ _data s0 = _data self /\ station_id s0 = id.
Proof.
  intros Hr Hu Hd.
  destruct (reachable_consistent id self Hr) as (Hid & He & Hn).
  pose proof (resolve_frame session self) as Rf.
  unfold update, call, update_body, bind in Hu. unfold effect in Rf.
  destruct (resolve session self) as [[c s0] l0]. cbn [fst snd] in Rf.
  destruct Rf as (Rd & Ri & _ & Rc).
  destruct c as [[]| |e]; [| |discriminate].
  - pose proof (assemble_cases session s0) as C. unfold effect in C.
    destruct (assemble session s0) as [[[[]| |e] s1] l1] eqn:A; cbn [fst snd] in *;
      [| |discriminate].
    + injection Hu as <- <-. exists s0, l0, l1.
      split; [reflexivity|]. split; [exact A|]. split; [reflexivity|].
      split; [exact Rd | congruence].
    + injection Hu as <- _. rewrite C in Hd. now destruct Hd.
  - injection Hu as <- _. destruct Hd. unfold data. rewrite Rd. apply He.
    destruct (truthy (station_name self)); [|reflexivity].
    now destruct (Rc eq_refl).
Qed.

(** X10. A cycle that returns with a reading has sent the directory request
    if no name was cached before, then the request for the sensor list,
    then one request for the values of each record of the reading it
    leaves, in the order of that reading and by the id of the record, and
    last the request for the index document. *)
Theorem requests_of_success (session : url -> reply) (id : json)
    (self s' : Gios) (l : list url) :
  reachable id self ->
  update session self = (Returned, s', l) ->
  data s' <> [] ->
  l = (if truthy (station_name self) then [] else [URL_STATIONS])
      ++ URL_STATION id :: sensor_urls (data s') ++ [URL_INDEXES id].
Proof.
  intros Hr Hu Hd.
  destruct (update_success_run session id self s' l Hr Hu Hd)
    as (s0 & l0 & l1 & R & A & -> & Rd & Ri).
  destruct (reachable_consistent id self Hr) as (_ & _ & Hn).
  rewrite <- Rd in Hn.
  pose proof (resolve_requests session self) as Rq.
  pose proof (assemble_requests session s0 s' Hn) as Aq.
  unfold requests, effect in Rq, Aq. rewrite R in Rq. rewrite A in Aq.
  cbn [fst snd] in Rq, Aq. rewrite Rq, (Aq eq_refl), Ri. reflexivity.
Qed.

Lemma requests_of_success_witness :
  let self := state_of (update two_sensors (__init__ (JInt 117))) in
  let r := update sensor_unlisted self in
  requests_of r
  = (if truthy (station_name self) then [] else [URL_STATIONS])
    ++ URL_STATION (JInt 117) :: sensor_urls (data (state_of r))
    ++ [URL_INDEXES (JInt 117)].
Proof.
  apply (requests_of_success sensor_unlisted (JInt 117)
           (state_of (update two_sensors (__init__ (JInt 117))))).
  - apply reach_update, reach_init.
  - vm_compute. reflexivity.
  - vm_compute. discriminate.
Defined.

(** ** A reading is delivered only when every request was served *)

Lemma in_sensor_urls (d : reading) (u : url) :
  In u (sensor_urls d) ->
  exists k e sid,
    In (k, e) d /\ is_aqi k = false
    /\ dict_get string_dec e ATTR_ID = Some sid /\ u = URL_SENSOR sid.
Proof.
  unfold sensor_urls. rewrite in_flat_map. intros ([k e] & Hin & Hu).
  unfold sensor_url in Hu. cbn [fst snd] in Hu.
  destruct (is_aqi k) eqn:Hk; [destruct Hu|].
  destruct (dict_get string_dec e ATTR_ID) as [sid|] eqn:Es; [|destruct Hu].
  destruct Hu as [<-|[]]. now exists k, e, sid.
Qed.

Lemma in_dict_get {K V : Type} (dec : forall a b : K, {a = b} + {a <> b})
    (d : list (K * V)) (k : K) (v : V) :
  NoDup (keys d) -> In (k, v) d -> dict_get dec d k = Some v.
Proof.
  induction d as [|[k0 v0] d IH]; intros Hn Hin; [destruct Hin|].
  inversion Hn as [|? ? Hk Hn']; subst. cbn.
  destruct Hin as [[= -> ->]|Hin].
  - now destruct (dec k k).
  - destruct (dec k k0) as [->|N]; [|now apply IH].
    destruct Hk. change k0 with (fst (k0, v)). now apply in_map.
Qed.

(** X11. A cycle that returns with a reading has had every one of its
    requests answered with status 200: no reading is ever delivered from a
    cycle in which a request met a connection error or another status. *)
Theorem reading_needs_every_request_served (session : url -> reply) (id : json)
    (self s' : Gios) (l : list url) :
  reachable id self ->
  update session self = (Returned, s', l) ->
  data s' <> [] ->
  Forall (fun u => exists text body, session u = Response HTTP_OK text body) l.
Proof.
  intros Hr Hu Hd.
  destruct (update_success_run session id self s' l Hr Hu Hd)
    as (s0 & l0 & l1 & R & A & -> & Rd & Ri).
  destruct (reachable_consistent id self Hr) as (_ & _ & Hn).
  rewrite <- Rd in Hn.
  assert (Hn' : NoDup (keys (_data s'))).
  { replace s' with (state_of (update session self)) by now rewrite Hu.
    apply (reachable_consistent id). now apply reach_update. }
  pose proof (resolve_requests session self) as Rq.
  pose proof (resolve_effect session self) as Re.
  pose proof (assemble_requests session s0 s' Hn) as Aq.
  pose proof (assemble_cases session s0) as C.
  unfold requests, effect in Rq, Re, Aq, C. rewrite R in Rq, Re.
  rewrite A in Aq, C. cbn [fst snd] in Rq, Re, Aq, C.
  specialize (Aq eq_refl).
  assert (A' : effect (assemble session) s0 = (Normal tt, s'))
    by (unfold effect; now rewrite A).
  apply Forall_app. split.
  - rewrite Rq. destruct (truthy (station_name self)); [constructor|].
    constructor; [|constructor].
    destruct (fetched session URL_STATIONS) as [stations|e] eqn:Ef;
      [|discriminate].
    destruct (truthy stations) eqn:Ht; cbn [negb] in Re; [|discriminate].
    destruct (fetched_document session URL_STATIONS stations Ef) as [text Hs];
      [intros ->; discriminate|].
    now exists text, stations.
  - rewrite Aq. constructor; [|apply Forall_app; split].
    + destruct (assemble_settles session s0 s' Hn A')
        as (text & items & _ & Hs & _).
      now exists text, (JArr items).
    + apply Forall_forall. intros u Hin.
      destruct (in_sensor_urls _ u Hin) as (k & e & sid & Hke & Hk & Hs & ->).
      pose proof (in_dict_get hkey_eq_dec _ k e Hn' Hke) as G.
      destruct (assemble_stores session s0 s' Hn A' k e G Hk)
        as (_ & sid' & text & body & _ & _ & _ & Hs' & Hb & _).
      rewrite Hs in Hs'. injection Hs' as <-. now exists text, body.
    + constructor; [|constructor].
      destruct C as (_ & _ & indexes & value & _ & _ & _ & Hf & Ho & _).
      destruct (fetched_document session _ indexes Hf) as [text Hs];
        [intros ->; discriminate|].
      now exists text, indexes.
Qed.

Lemma reading_needs_every_request_served_witness :
  let r := update two_sensors (__init__ (JInt 117)) in
  Forall (fun u => exists text body, two_sensors u = Response HTTP_OK text body)
    (requests_of r).
Proof.
  apply (reading_needs_every_request_served two_sensors (JInt 117)
           (__init__ (JInt 117))
           (state_of (update two_sensors (__init__ (JInt 117))))).
  - apply reach_init.
  - vm_compute. reflexivity.
  - vm_compute. discriminate.
Defined.

(** ** When the directory is not served *)

(** X12. While no station name is cached, a cycle whose directory request
    meets a connection error, or is answered with status 200 and a falsy
    body, returns after that one request and leaves the object as it was;
    answered with another status, it raises ApiError with the text of the
    answer, again after that one request and with the object as it was. *)
Theorem directory_not_served (session : url -> reply) (self : Gios) :
  truthy (station_name self) = false ->
  (session URL_STATIONS = ClientError ->
   update session self = (Returned, self, [URL_STATIONS]))
  /\ (forall text body,
        session URL_STATIONS = Response HTTP_OK text body -> truthy body = false ->
        update session self = (Returned, self, [URL_STATIONS]))
  /\ (forall status text body,
        session URL_STATIONS = Response status text body -> status <> HTTP_OK ->
        update session self = (Raised (ApiError text), self, [URL_STATIONS])).
Proof.
  intros Hn.
  split; [|split];
    [intros H | intros text body H Hb | intros status text body H Hst];
    unfold update, call, update_body; unfold bind at 1; unfold resolve;
    unfold bind at 1; unfold get at 1; rewrite Hn; cbn [negb];
    unfold bind at 1; unfold _get_stations; rewrite async_get_run, H.
  - reflexivity.
  - rewrite Z.eqb_refl. unfold bind at 1. rewrite Hb. reflexivity.
  - apply Z.eqb_neq in Hst. now rewrite Hst.
Qed.

Lemma directory_not_served_witness :
  let self := __init__ (JInt 117) in
  (unreachable URL_STATIONS = ClientError ->
   update unreachable self = (Returned, self, [URL_STATIONS]))
  /\ (forall text body,
        unreachable URL_STATIONS = Response HTTP_OK text body ->
        truthy body = false ->
        update unreachable self = (Returned, self, [URL_STATIONS]))
  /\ (forall status text body,
        unreachable URL_STATIONS = Response status text body ->
        status <> HTTP_OK ->
        update unreachable self = (Raised (ApiError text), self, [URL_STATIONS])).
Proof.
  apply (directory_not_served unreachable (__init__ (JInt 117))).
  reflexivity.
Defined.

(** * The exceptions and the soft failures of a cycle *)

(** ** A cycle as its two parts *)

Lemma update_run (session : url -> reply) (self : Gios) :
  update session self =
  match effect (resolve session) self with
  | (Normal _, s0) =>
      (match fst (effect (assemble session) s0) with
       | Raise e => Raised e
       | _ => Returned
       end,
       snd (effect (assemble session) s0),
       requests (resolve session) self ++ requests (assemble session) s0)
  | (Return, s0) => (Returned, s0, requests (resolve session) self)
  | (Raise e, s0) => (Raised e, s0, requests (resolve session) self)
  end.
Proof.
  unfold update, call, update_body, bind, effect, requests.
  destruct (resolve session self) as [[[[]| |e] s0] l0]; cbn; try reflexivity.
  destruct (assemble session s0) as [[[[]| |e] s1] l1]; reflexivity.
Qed.

Section Stages.
Variable session : url -> reply.

(** The requests of lines 59-107: the one for the sensor list and then,
    when that list was filed, those of lines 70-107. *)
Lemma assemble_requests_all (s : Gios) :
  requests (assemble session) s =
  URL_STATION (station_id s)
  :: match fetched session (URL_STATION (station_id s)) with
     | Ok station_data =>
         if negb (truthy station_data) then []
         else
           match iter station_data with
           | Ok items =>
               match snd (entries items) with
               | None =>
                   requests (finish session)
                     (set_data (insert_all (fst (entries items)) (_data s)) s)
               | Some _ => []
               end
           | Throws _ => []
           end
     | Throws _ => []
     end.
Proof.
  change (assemble session)
    with (station_data <- _get_station session ;;
          (if negb (truthy station_data)
           then modify (set_data []) ;; return_ else pass) ;;
          items <- eval (iter station_data) ;;
          for_sensors items ;;
          finish session).
  rewrite requests_bind, requests_get_station. cbn [app]. f_equal.
  unfold _get_station at 1. rewrite effect_bind. cbn [effect get fst].
  fold (effect (_async_get session (URL_STATION (station_id s))) s).
  rewrite async_get_effect.
  destruct (fetched session (URL_STATION (station_id s))) as [station_data|e];
    [|reflexivity].
  rewrite requests_bind.
  destruct (truthy station_data); cbn [negb]; [|reflexivity].
  cbn [requests effect pass ret fst snd app].
  rewrite requests_bind. cbn [requests effect eval fst snd app].
  destruct (iter station_data) as [items|e]; [|reflexivity].
  rewrite requests_bind, silent_for_sensors. cbn [app].
  unfold effect at 1. rewrite for_sensors_run. cbn [fst].
  now destruct (snd (entries items)).
Qed.

(** The first loop asks for the values of sensors only. *)
Lemma steps_value_sensor_only (ks : list hkey) (s : Gios) (u : url) :
  In u (requests (steps ATTR_VALUE (value_plan session) ks) s) ->
  exists sid, u = URL_SENSOR sid.
Proof.
  revert s. induction ks as [|k ks IH]; intros s; [intros []|].
  rewrite steps_cons_requests, value_plan_requests, in_app_iff.
  intros [H|H].
  - unfold sensor_url in H. destruct (is_aqi k); [destruct H|].
    destruct (dict_get hkey_eq_dec (_data s) k) as [e|]; [|destruct H].
    destruct (dict_get string_dec e ATTR_ID) as [sid|]; [|destruct H].
    destruct H as [<-|[]]. now exists sid.
  - destruct (effect (run_step ATTR_VALUE _ k) s) as [[[]| |e] s1];
      try destruct H. now apply (IH s1).
Qed.

Lemma value_plan_fetched (k : hkey) (e : record) (sid body : json) :
  is_aqi k = false ->
  dict_get string_dec e ATTR_ID = Some sid ->
  fetched session (URL_SENSOR sid) = Ok body ->
  fst (value_plan session k (Some e)) = picked (pick body).
Proof.
  intros Hk Hs. unfold value_plan, fetched. rewrite Hk, Hs.
  destruct (session (URL_SENSOR sid)) as [|status text body'|text];
    [now intros [= <-]| |discriminate].
  destruct (status =? HTTP_OK)%Z; [now intros [= <-] | discriminate].
Qed.

(** A sensor document on which lines 74-83 raise one of the exceptions of
    line 84 ends the loop: the reading is cleared and the cycle returns. *)
Lemma steps_value_clear (ks : list hkey) (s : Gios) (sid body : json) (e : exn) :
  In (URL_SENSOR sid) (requests (steps ATTR_VALUE (value_plan session) ks) s) ->
  fetched session (URL_SENSOR sid) = Ok body ->
  pick body = Throws e -> caught_84 e = true ->
  effect (steps ATTR_VALUE (value_plan session) ks) s = (Return, set_data [] s).
Proof.
  intros Hin Hf Hp Hc. revert s Hin.
  induction ks as [|k ks IH]; intros s Hin; [destruct Hin|].
  rewrite steps_cons_requests, value_plan_requests, in_app_iff in Hin.
  rewrite steps_cons_effect, run_step_effect.
  destruct Hin as [H|H].
  - unfold sensor_url in H. destruct (is_aqi k) eqn:Hk; [destruct H|].
    destruct (dict_get hkey_eq_dec (_data s) k) as [entry|]; [|destruct H].
    destruct (dict_get string_dec entry ATTR_ID) as [sid'|] eqn:Es; [|destruct H].
    destruct H as [[= ->]|[]].
    rewrite (value_plan_fetched k entry sid body Hk Es Hf).
    unfold picked. now rewrite Hp, Hc.
  - rewrite run_step_effect in H.
    destruct (fst (value_plan session k (dict_get hkey_eq_dec (_data s) k)))
      as [|v| |e']; [now apply IH| |reflexivity|destruct H].
    destruct (dict_get hkey_eq_dec (_data s) k) as [entry|]; [|destruct H].
    now rewrite (IH _ H).
Qed.

Lemma finish_clear_sensor (s : Gios) (sid body : json) (e : exn) :
  In (URL_SENSOR sid) (requests (finish session) s) ->
  fetched session (URL_SENSOR sid) = Ok body ->
  pick body = Throws e -> caught_84 e = true ->
  effect (finish session) s = (Return, set_data [] s).
Proof.
  intros Hin Hf Hp Hc. rewrite finish_requests, in_app_iff in Hin.
  rewrite finish_effect.
  destruct Hin as [H|H].
  - now rewrite (steps_value_clear _ _ sid body e H Hf Hp Hc).
  - destruct (effect (steps ATTR_VALUE (value_plan session) (keys (_data s))) s)
      as [[[]| |e'] s1]; [|destruct H|destruct H].
    destruct H as [H|[]]. discriminate.
Qed.

(** On an index document that is no object, the second loop stores
    nothing: it ends, or raises at the first key that is not the one of
    the overall index. *)
Lemma steps_index_no_object (indexes : json) (ks : list hkey) (s : Gios) :
  (forall key, getitem indexes key = Throws TypeError) ->
  effect (steps ATTR_INDEX (index_plan indexes) ks) s = (Normal tt, s)
  \/ effect (steps ATTR_INDEX (index_plan indexes) ks) s = (Raise TypeError, s)
  \/ effect (steps ATTR_INDEX (index_plan indexes) ks) s = (Raise AttributeError, s).
Proof.
  intros Hno. induction ks as [|k ks IH]; [now left|].
  rewrite steps_cons_effect, run_step_effect.
  unfold index_plan. destruct (is_aqi k); cbn [fst]; [exact IH|].
  unfold index_of. destruct (index_level k) as [key|e] eqn:El; cbn [and_then fst].
  - rewrite Hno. cbn [and_then fst]. now right; left.
  - rewrite (index_level_raises _ _ El). now right; right.
Qed.

Lemma finish_index_no_object (s : Gios) (indexes : json) (id : json) :
  In (URL_INDEXES id) (requests (finish session) s) ->
  fetched session (URL_INDEXES (station_id s)) = Ok indexes ->
  (forall key, getitem indexes key = Throws TypeError) ->
  (exists s', effect (finish session) s = (Return, s') /\ _data s' = [])
  \/ exists s', effect (finish session) s = (Raise AttributeError, s').
Proof.
  intros Hin Hf Hno. rewrite finish_requests, in_app_iff in Hin.
  rewrite finish_effect.
  pose proof (steps_shape ATTR_VALUE (value_plan session) (keys (_data s)) s) as Sh.
  destruct Hin as [H|H].
  { destruct (steps_value_sensor_only _ _ _ H). discriminate. }
  destruct (effect (steps ATTR_VALUE (value_plan session) (keys (_data s))) s)
    as [[[]| |e'] s1]; [|destruct H|destruct H].
  destruct Sh as [Sh _].
  replace (station_id s1) with (station_id s) by now rewrite Sh.
  rewrite Hf.
  destruct (steps_index_no_object indexes (keys (_data s1)) s1 Hno)
    as [E|[E|E]]; rewrite E.
  - unfold overall. rewrite Hno. cbn. left. now eexists.
  - cbn. left. now eexists.
  - cbn. right. now eexists.
Qed.
End Stages.

(** ** Which exceptions leave a cycle, and from where *)

Lemma update_fetch_errors (session : url -> reply) (self : Gios) :
  let r := update session self in
  (forall text,
      result_of r = Raised (ApiError text) <->
      exists l u status body,
        requests_of r = l ++ [u]
        /\ session u = Response status text body /\ status <> HTTP_OK)
  /\ (result_of r = Raised JSONDecodeError <->
      exists l u text, requests_of r = l ++ [u] /\ session u = Undecodable text)
  /\ result_of r <> Raised ValueError
  /\ result_of r <> Raised IndexError.
Proof.
  cbv zeta. pose proof (behaves_update_body session self) as B.
  unfold update, call, result_of, requests_of.
  assert (Last : forall (l l' : list url) (u : url),
             Forall (served session) l -> l = l' ++ [u] -> served session u).
  { intros l l' u F ->. apply Forall_app in F. destruct F as [_ F].
    now inversion F. }
  destruct (update_body session self) as [[c s1] l]. cbn [fst snd].
  assert (Quiet : Forall (served session) l ->
                  (forall text,
                      (exists l' u status body,
                          l = l' ++ [u]
                          /\ session u = Response status text body
                          /\ status <> HTTP_OK) -> False)
                  /\ ((exists l' u text, l = l' ++ [u] /\ session u = Undecodable text)
                      -> False)).
  { intros F. split.
    - intros text (l' & u & st & body & E & Hu & Hst).
      pose proof (Last l l' u F E) as S. unfold served in S. now rewrite Hu in S.
    - intros (l' & u & text & E & Hu).
      pose proof (Last l l' u F E) as S. unfold served in S. now rewrite Hu in S. }
  destruct c as [[]| |e]; cbn in B; cbn [fst snd].
  - destruct (Quiet B) as [Q1 Q2].
    split; [|split; [|split]]; try discriminate.
    + intros text. split; [discriminate | intros H; destruct (Q1 text H)].
    + split; [discriminate | intros H; destruct (Q2 H)].
  - destruct (Quiet B) as [Q1 Q2].
    split; [|split; [|split]]; try discriminate.
    + intros text. split; [discriminate | intros H; destruct (Q1 text H)].
    + split; [discriminate | intros H; destruct (Q2 H)].
  - destruct e;
      try (destruct B as [Hp _]; discriminate Hp);
      try (destruct B as [Hp F]; destruct (Quiet F) as [Q1 Q2];
           split; [|split; [|split]]; try discriminate;
           [ intros text; split; [discriminate | intros H; destruct (Q1 text H)]
           | split; [discriminate | intros H; destruct (Q2 H)] ]).
    + destruct B as (_ & l' & u & st & body & -> & _ & Hu & Hst).
      split; [|split; [|split]]; try discriminate.
      * intros text. split.
        -- intros [= <-]. now exists l', u, st, body.
        -- intros (l2 & u2 & st2 & body2 & E & Hu2 & _).
           apply app_last_eq in E. subst u2. rewrite Hu in Hu2. congruence.
      * split; [discriminate|].
        intros (l2 & u2 & text2 & E & Hu2).
        apply app_last_eq in E. subst u2. rewrite Hu in Hu2. discriminate.
    + destruct B as (_ & l' & u & text & -> & _ & Hu).
      split; [|split; [|split]]; try discriminate.
      * intros text'. split; [discriminate|].
        intros (l2 & u2 & st2 & body2 & E & Hu2 & _).
        apply app_last_eq in E. subst u2. rewrite Hu in Hu2. discriminate.
      * split; [|reflexivity]. intros _. now exists l', u, text.
Qed.

Section Soft.
Variable session : url -> reply.

Lemma resolve_requests_directory (s : Gios) (u : url) :
  In u (requests (resolve session) s) -> u = URL_STATIONS.
Proof.
  rewrite resolve_requests. destruct (truthy (station_name s)); [intros []|].
  now intros [<-|[]].
Qed.

(** A cycle that raises [TypeError] raised it in one of the two loops that
    no handler guards, over the directory or over the sensor list: its
    last request is the one for that list. *)
Lemma type_error_unguarded (self : Gios) :
  let r := update session self in
  result_of r = Raised TypeError ->
  exists l,
    requests_of r = l ++ [URL_STATIONS]
    \/ requests_of r = l ++ [URL_STATION (station_id self)].
Proof.
  cbv zeta. rewrite update_run.
  pose proof (resolve_frame session self) as Rf.
  pose proof (resolve_requests session self) as Rq.
  destruct (effect (resolve session) self) as [[[]| |e] s0];
    cbn [result_of state_of requests_of fst snd]; [|discriminate|].
  - destruct Rf as (_ & Ri & _ & _).
    rewrite assemble_requests_all, assemble_effect, Ri.
    exists (requests (resolve session) self). right.
    destruct (fetched session (URL_STATION (station_id self))) as [station_data|e];
      [|reflexivity].
    destruct (truthy station_data); cbn [negb]; [|reflexivity].
    destruct (iter station_data) as [items|e]; [|reflexivity].
    cbv zeta in H |- *.
    destruct (snd (entries items)) as [e|]; [reflexivity|].
    exfalso.
    pose proof (guarded_finish session
                  (set_data (insert_all (fst (entries items)) (_data s0)) s0)) as G.
    unfold effect in H.
    destruct (finish session _) as [[c s1] l1]. cbn [fst] in H.
    destruct c as [[]| |e]; try discriminate. injection H as ->.
    cbn in G. destruct G. discriminate.
  - intros [= ->]. exists []. left. rewrite Rq.
    destruct (truthy (station_name self)); [|reflexivity].
    destruct Rf as (_ & _ & _ & Rc). destruct (Rc eq_refl). discriminate.
Qed.

(** Against an upstream that cannot be connected to, a cycle returns: with
    the object as it was while no name is cached, with the reading cleared
    otherwise. *)
Lemma update_unconnected_state (self : Gios) :
  (forall u, session u = ClientError) ->
  let r := update session self in
  result_of r = Returned /\ (state_of r = self \/ data (state_of r) = []).
Proof.
  intros H. cbv zeta. rewrite update_run, resolve_effect.
  assert (F : forall u, fetched session u = Ok JNull)
    by (intros u; unfold fetched; now rewrite H).
  destruct (truthy (station_name self)).
  - rewrite assemble_effect, F. cbn. split; [reflexivity | now right].
  - rewrite F. cbn. split; [reflexivity | now left].
Qed.

(** A sensor list that is no data, or falsy, clears the reading and ends
    the cycle. *)
Lemma sensor_list_soft (self : Gios) (body : json) :
  let r := update session self in
  In (URL_STATION (station_id self)) (requests_of r) ->
  fetched session (URL_STATION (station_id self)) = Ok body ->
  truthy body = false ->
  result_of r = Returned /\ data (state_of r) = [].
Proof.
  cbv zeta. rewrite update_run.
  pose proof (resolve_frame session self) as Rf.
  pose proof (resolve_requests_directory self) as Rq.
  destruct (effect (resolve session) self) as [[[]| |e] s0];
    cbn [result_of state_of requests_of fst snd]; intros Hin Hf Hb;
    try (apply Rq in Hin; discriminate).
  destruct Rf as (_ & Ri & _ & _).
  rewrite assemble_effect, Ri, Hf, Hb. cbn. now split.
Qed.

(** A request of lines 70-107 among the requests of a cycle: the cycle
    ends as these lines do. *)
Lemma update_reaches_finish (self : Gios) (u : url) :
  let r := update session self in
  In u (requests_of r) ->
  u <> URL_STATIONS -> (forall a, u <> URL_STATION a) ->
  exists s1,
    station_id s1 = station_id self
    /\ In u (requests (finish session) s1)
    /\ result_of r = match fst (effect (finish session) s1) with
                     | Raise e => Raised e
                     | _ => Returned
                     end
    /\ state_of r = snd (effect (finish session) s1).
Proof.
  cbv zeta. rewrite update_run.
  pose proof (resolve_frame session self) as Rf.
  pose proof (resolve_requests_directory self) as Rq.
  destruct (effect (resolve session) self) as [[[]| |e] s0];
    cbn [result_of state_of requests_of fst snd]; intros Hin N1 N2;
    try (apply Rq in Hin; contradiction).
  destruct Rf as (_ & Ri & _ & _).
  apply in_app_or in Hin. destruct Hin as [Hin|Hin];
    [apply Rq in Hin; contradiction|].
  rewrite assemble_requests_all in Hin. rewrite assemble_effect.
  destruct Hin as [E|Hin]; [now destruct (N2 (station_id s0))|].
  destruct (fetched session (URL_STATION (station_id s0))) as [station_data|e];
    [|destruct Hin].
  destruct (truthy station_data); cbn [negb] in Hin |- *; [|destruct Hin].
  destruct (iter station_data) as [items|e]; [|destruct Hin].
  cbv zeta.
  destruct (snd (entries items)) as [e|]; [destruct Hin|].
  exists (set_data (insert_all (fst (entries items)) (_data s0)) s0).
  split; [exact Ri|]. split; [exact Hin|]. split; reflexivity.
Qed.

(** A sensor document on which the selection of lines 74-83 raises one of
    the exceptions of line 84 clears the reading and ends the cycle. *)
Lemma sensor_document_soft (self : Gios) (sid body : json) (e : exn) :
  let r := update session self in
  In (URL_SENSOR sid) (requests_of r) ->
  fetched session (URL_SENSOR sid) = Ok body ->
  pick body = Throws e -> caught_84 e = true ->
  result_of r = Returned /\ data (state_of r) = [].
Proof.
  cbv zeta. intros Hin Hf Hp Hc.
  destruct (update_reaches_finish self (URL_SENSOR sid) Hin)
    as (s1 & _ & H1 & Hr & Hs); [discriminate | discriminate |].
  rewrite Hr, Hs, (finish_clear_sensor session s1 sid body e H1 Hf Hp Hc).
  now split.
Qed.

(** An index document that is no object clears the reading and ends the
    cycle, unless a key of the reading has no [lower] method. *)
Lemma index_document_soft (self : Gios) (indexes : json) :
  let r := update session self in
  In (URL_INDEXES (station_id self)) (requests_of r) ->
  fetched session (URL_INDEXES (station_id self)) = Ok indexes ->
  (forall key, getitem indexes key = Throws TypeError) ->
  (result_of r = Returned /\ data (state_of r) = [])
  \/ result_of r = Raised AttributeError.
Proof.
  cbv zeta. intros Hin Hf Hno.
  destruct (update_reaches_finish self _ Hin)
    as (s1 & Hi & H1 & Hr & Hs); [discriminate | discriminate |].
  rewrite <- Hi in Hf.
  destruct (finish_index_no_object session s1 indexes _ H1 Hf Hno)
    as [(s' & E & Hd)|(s' & E)]; rewrite Hr, Hs, E; cbn [fst snd].
  - left. now split.
  - now right.
Qed.
End Soft.

(** C2, as the code has it.  A status other than 200 is not handled like a
    connection error: on a connection error the fetch yields no data, on
    such a status it raises ApiError with the text of the answer, and on a
    body that does not decode it raises JSONDecodeError, a ValueError.
    Both leave update, each exactly when the last request of the cycle was
    answered that way.  NoStationError leaves it with the message of lines
    55-57, after the directory request only and with the reading as it
    was.  The ValueError of line 83 and IndexError never leave it, and
    TypeError only from the loops over the directory and over the sensor
    list, which no handler guards: the last request is then the one for
    that list.  The other anomalies clear the reading and end the cycle
    without raising: an upstream that cannot be connected to (the object
    is left as it was when the directory is what cannot be fetched), a
    sensor list that is no data or falsy, a sensor document on which the
    selection raises one of the exceptions of line 84 (nulls, falsy values,
    empty or short sequences), and an index document that is no object,
    unless a key of the reading is no string. *)
Theorem update_exceptions (session : url -> reply) (self : Gios) :
  let r := update session self in
  (forall u s,
      session u = ClientError ->
      _async_get session u s = (Normal JNull, s, [u]))
  /\ (forall u s status text body,
        session u = Response status text body -> status <> HTTP_OK ->
        _async_get session u s = (Raise (ApiError text), s, [u]))
  /\ (forall u s text,
        session u = Undecodable text ->
        _async_get session u s = (Raise JSONDecodeError, s, [u]))
  /\ (forall text,
        result_of r = Raised (ApiError text) <->
        exists l u status body,
          requests_of r = l ++ [u]
          /\ session u = Response status text body /\ status <> HTTP_OK)
  /\ (result_of r = Raised JSONDecodeError <->
      exists l u text, requests_of r = l ++ [u] /\ session u = Undecodable text)
  /\ (forall m,
        result_of r = Raised (NoStationError m) ->
        m = no_station_message (station_id self)
        /\ requests_of r = [URL_STATIONS]
        /\ data (state_of r) = data self)
  /\ result_of r <> Raised ValueError
  /\ result_of r <> Raised IndexError
  /\ (result_of r = Raised TypeError ->
      exists l,
        requests_of r = l ++ [URL_STATIONS]
        \/ requests_of r = l ++ [URL_STATION (station_id self)])
  /\ ((forall u, session u = ClientError) ->
      result_of r = Returned /\ (state_of r = self \/ data (state_of r) = []))
  /\ (forall body,
        In (URL_STATION (station_id self)) (requests_of r) ->
        fetched session (URL_STATION (station_id self)) = Ok body ->
        truthy body = false ->
        result_of r = Returned /\ data (state_of r) = [])
  /\ (forall sid body e,
        In (URL_SENSOR sid) (requests_of r) ->
        fetched session (URL_SENSOR sid) = Ok body ->
        pick body = Throws e -> caught_84 e = true ->
        result_of r = Returned /\ data (state_of r) = [])
  /\ (forall indexes,
        In (URL_INDEXES (station_id self)) (requests_of r) ->
        fetched session (URL_INDEXES (station_id self)) = Ok indexes ->
        (forall key, getitem indexes key = Throws TypeError) ->
        (result_of r = Returned /\ data (state_of r) = [])
        \/ result_of r = Raised AttributeError).
Proof.
  cbv zeta.
  destruct (update_fetch_errors session self) as (Ha & Hj & Hv & Hi).
  split; [|split; [|split; [|split; [|split; [|split; [|split; [|split;
    [|split; [|split; [|split; [|split]]]]]]]]]]].
  - intros u s Hu. now rewrite async_get_run, Hu.
  - intros u s status text body Hu Hst. rewrite async_get_run, Hu.
    apply Z.eqb_neq in Hst. now rewrite Hst.
  - intros u s text Hu. now rewrite async_get_run, Hu.
  - exact Ha.
  - exact Hj.
  - intros m Hm.
    destruct (no_station_error_run session self m Hm) as (E & _ & _ & Hd & Hq & _).
    now split; [|split].
  - exact Hv.
  - exact Hi.
  - apply type_error_unguarded.
  - apply update_unconnected_state.
  - apply sensor_list_soft.
  - apply sensor_document_soft.
  - apply index_document_soft.
Qed.

Lemma update_exceptions_witness :
  let r := update unreachable (__init__ (JInt 117)) in
  result_of r = Returned
  /\ (state_of r = __init__ (JInt 117) \/ data (state_of r) = []).
Proof.
  apply (proj1 (proj2 (proj2 (proj2 (proj2 (proj2 (proj2 (proj2 (proj2 (proj2
           (update_exceptions unreachable (__init__ (JInt 117))))))))))))).
  reflexivity.
Defined.

(** * A second cycle against the same upstream *)

(** ** The two loops, run from two readings with the same ids *)

Lemma dict_set_same {K V : Type} (dec : forall a b : K, {a = b} + {a <> b})
    (d : list (K * V)) (k : K) (v : V) :
  dict_get dec d k = Some v -> dict_set dec d k v = d.
Proof.
  induction d as [|[k0 v0] d IH]; cbn; [discriminate|].
  destruct (dec k k0) as [->|N].
  - now intros [= ->].
  - intros H. now rewrite IH.
Qed.

Lemma patched_id (field : string) (p : option json) (e : record) :
  field <> ATTR_ID ->
  dict_get string_dec (patched field p e) ATTR_ID = dict_get string_dec e ATTR_ID.
Proof.
  intros Hf. destruct p as [v|]; [|reflexivity]. cbn.
  apply dict_get_set_other. congruence.
Qed.

Lemma same_id_patched (field : string) (p : option json) (a b : option record) :
  field <> ATTR_ID ->
  same_id a b ->
  same_id (option_map (patched field p) a) (option_map (patched field p) b).
Proof.
  intros Hf. destruct a as [e|], b as [e'|]; cbn; try tauto.
  intros H. now rewrite !patched_id.
Qed.

Lemma same_id_refl (a : option record) : same_id a a.
Proof. now destruct a. Qed.

Lemma same_id_trans (a b c : option record) :
  same_id a b -> same_id b c -> same_id a c.
Proof. destruct a, b, c; cbn; try tauto. congruence. Qed.

Lemma option_map_unpatched (field : string) (o : option record) :
  option_map (patched field None) o = o.
Proof. now destruct o. Qed.

Lemma value_plan_by_id (session : url -> reply) : by_id (value_plan session).
Proof. intros k e e' H. unfold value_plan. now rewrite H. Qed.

Lemma index_plan_by_id (indexes : json) : by_id (index_plan indexes).
Proof. intros k e e' H. reflexivity. Qed.

Section Simulation.
Variable field : string.
Variable plan : hkey -> option record -> step * list url.
Hypothesis plan_by_id : by_id plan.
Hypothesis plan_skips : skips_aqi plan.

Lemma plan_same_id (k : hkey) (a b : option record) :
  same_id a b -> plan k a = plan k b.
Proof.
  destruct a as [e|], b as [e'|]; cbn; try tauto. apply plan_by_id.
Qed.

(** A loop run from two readings that agree on the id under each key it
    visits ends both times the same way, and stores the same values under
    the same keys. *)
Lemma steps_sim (ks : list hkey) :
  NoDup ks ->
  forall sA sB,
    (forall k, In k ks -> is_aqi k = false ->
       same_id (dict_get hkey_eq_dec (_data sA) k) (dict_get hkey_eq_dec (_data sB) k)) ->
    exists p : hkey -> option json,
      (forall k, ~ In k ks -> p k = None)
      /\ (forall k, is_aqi k = true -> p k = None)
      /\ match effect (steps field plan ks) sA, effect (steps field plan ks) sB with
         | (cA, sA'), (cB, sB') =>
             cA = cB
             /\ (cA = Return
                 \/ ((forall k, dict_get hkey_eq_dec (_data sA') k
                                = option_map (patched field (p k))
                                    (dict_get hkey_eq_dec (_data sA) k))
                     /\ (forall k, dict_get hkey_eq_dec (_data sB') k
                                   = option_map (patched field (p k))
                                       (dict_get hkey_eq_dec (_data sB) k))))
         end.
Proof.
  induction 1 as [|k0 ks Hk0 Hn IH]; intros sA sB Hs.
  { exists (fun _ => None). split; [reflexivity|]. split; [reflexivity|].
    cbn. split; [reflexivity|]. right.
    split; intros k; now rewrite option_map_unpatched. }
  rewrite !steps_cons_effect, !run_step_effect.
  assert (Rest : forall sA1 sB1,
             (forall k, k <> k0 ->
                dict_get hkey_eq_dec (_data sA1) k = dict_get hkey_eq_dec (_data sA) k) ->
             (forall k, k <> k0 ->
                dict_get hkey_eq_dec (_data sB1) k = dict_get hkey_eq_dec (_data sB) k) ->
             forall k, In k ks -> is_aqi k = false ->
               same_id (dict_get hkey_eq_dec (_data sA1) k)
                       (dict_get hkey_eq_dec (_data sB1) k)).
  { intros sA1 sB1 HA HB k Hk Ha.
    assert (N : k <> k0) by (intros ->; contradiction).
    rewrite HA, HB by exact N. apply Hs; [now right | exact Ha]. }
  assert (Stop : forall (c : completion unit),
             c <> Return ->
             exists p : hkey -> option json,
               (forall k, ~ In k (k0 :: ks) -> p k = None)
               /\ (forall k, is_aqi k = true -> p k = None)
               /\ c = c
               /\ (c = Return
                   \/ ((forall k, dict_get hkey_eq_dec (_data sA) k
                                  = option_map (patched field (p k))
                                      (dict_get hkey_eq_dec (_data sA) k))
                       /\ (forall k, dict_get hkey_eq_dec (_data sB) k
                                     = option_map (patched field (p k))
                                         (dict_get hkey_eq_dec (_data sB) k))))).
  { intros c _. exists (fun _ => None). split; [reflexivity|].
    split; [reflexivity|]. split; [reflexivity|]. right.
    split; intros k; now rewrite option_map_unpatched. }
  destruct (is_aqi k0) eqn:Ha.
  - rewrite !(plan_skips k0 _ Ha). cbn [fst].
    destruct (IH sA sB (Rest sA sB (fun _ _ => eq_refl) (fun _ _ => eq_refl)))
      as (p & Hp & Hq & H).
    exists p. split; [|split; [exact Hq | exact H]].
    intros k Hk. apply Hp. intros I. apply Hk. now right.
  - pose proof (Hs k0 (or_introl eq_refl) Ha) as S0.
    rewrite <- (plan_same_id k0 _ _ S0).
    destruct (fst (plan k0 (dict_get hkey_eq_dec (_data sA) k0))) as [|v| |e].
    + destruct (IH sA sB (Rest sA sB (fun _ _ => eq_refl) (fun _ _ => eq_refl)))
        as (p & Hp & Hq & H).
      exists p. split; [|split; [exact Hq | exact H]].
      intros k Hk. apply Hp. intros I. apply Hk. now right.
    + destruct (dict_get hkey_eq_dec (_data sA) k0) as [eA|] eqn:EA,
               (dict_get hkey_eq_dec (_data sB) k0) as [eB|] eqn:EB;
        try (now destruct S0).
      2:{ apply (Stop (Raise KeyError)). discriminate. }
      set (sA1 := set_data (dict_set hkey_eq_dec (_data sA) k0
                              (dict_set string_dec eA field v)) sA).
      set (sB1 := set_data (dict_set hkey_eq_dec (_data sB) k0
                              (dict_set string_dec eB field v)) sB).
      assert (HA : forall k, k <> k0 ->
                 dict_get hkey_eq_dec (_data sA1) k = dict_get hkey_eq_dec (_data sA) k)
        by (intros k N; unfold sA1; cbn [_data set_data];
            now rewrite dict_get_set_other).
      assert (HB : forall k, k <> k0 ->
                 dict_get hkey_eq_dec (_data sB1) k = dict_get hkey_eq_dec (_data sB) k)
        by (intros k N; unfold sB1; cbn [_data set_data];
            now rewrite dict_get_set_other).
      destruct (IH sA1 sB1 (Rest sA1 sB1 HA HB)) as (p & Hp & Hq & H).
      exists (fun k => if hkey_eq_dec k k0 then Some v else p k).
      split; [|split].
      * intros k Hk. destruct (hkey_eq_dec k k0) as [->|N].
        -- destruct Hk. now left.
        -- apply Hp. intros I. apply Hk. now right.
      * intros k Hk. destruct (hkey_eq_dec k k0) as [->|N]; [congruence|].
        now apply Hq.
      * destruct (effect (steps field plan ks) sA1) as [cA sA'],
                 (effect (steps field plan ks) sB1) as [cB sB'].
        destruct H as [Hc H]. split; [exact Hc|].
        destruct H as [H|[H1 H2]]; [now left | right].
        split; intros k; destruct (hkey_eq_dec k k0) as [->|N].
        -- rewrite H1, (Hp k0 Hk0), option_map_unpatched, EA.
           unfold sA1. cbn [_data set_data]. now rewrite dict_get_set_same.
        -- now rewrite H1, HA.
        -- rewrite H2, (Hp k0 Hk0), option_map_unpatched, EB.
           unfold sB1. cbn [_data set_data]. now rewrite dict_get_set_same.
        -- now rewrite H2, HB.
    + exists (fun _ => None). split; [reflexivity|]. split; [reflexivity|].
      split; [reflexivity | now left].
    + apply (Stop (Raise e)). discriminate.
Qed.
End Simulation.

Lemma patched_twice (field : string) (p : option json) (e : record) :
  patched field p (patched field p e) = patched field p e.
Proof. destruct p as [v|]; [apply dict_set_twice | reflexivity]. Qed.

Lemma patched_pair_twice (pv pi : option json) (e : record) :
  patched ATTR_INDEX pi (patched ATTR_VALUE pv
    (patched ATTR_INDEX pi (patched ATTR_VALUE pv e)))
  = patched ATTR_INDEX pi (patched ATTR_VALUE pv e).
Proof.
  destruct pv as [v|], pi as [i|]; cbn [patched];
    try reflexivity; try apply dict_set_twice.
  assert (G : dict_get string_dec
                (dict_set string_dec (dict_set string_dec e ATTR_VALUE v) ATTR_INDEX i)
                ATTR_VALUE = Some v).
  { rewrite dict_get_set_other by discriminate. apply dict_get_set_same. }
  rewrite (dict_set_same string_dec _ ATTR_VALUE v G).
  apply dict_set_twice.
Qed.

(** What a second run leaves under a key, when it does to the record it
    finds what the first run did to the one it found, and finds either
    that one or the one the first run left. *)
Lemma replay_entry (P : record -> record) (a b d bf : option record) :
  (forall e, P (P e) = P e) ->
  d = option_map P a -> bf = option_map P b -> b = a \/ b = d -> bf = d.
Proof.
  intros Hp -> -> [->| ->]; [reflexivity|].
  destruct a as [e|]; cbn; [now rewrite Hp | reflexivity].
Qed.

Lemma replay_reading (P : hkey -> record -> record) (dA dB d1 dBf : reading) :
  NoDup (keys d1) -> keys dBf = keys d1 ->
  (forall k e, P k (P k e) = P k e) ->
  (forall k, dict_get hkey_eq_dec d1 k = option_map (P k) (dict_get hkey_eq_dec dA k)) ->
  (forall k, dict_get hkey_eq_dec dBf k = option_map (P k) (dict_get hkey_eq_dec dB k)) ->
  (forall k, dict_get hkey_eq_dec dB k = dict_get hkey_eq_dec dA k
             \/ dict_get hkey_eq_dec dB k = dict_get hkey_eq_dec d1 k) ->
  dBf = d1.
Proof.
  intros Hn Hk Hp H1 HB Hrel. symmetry.
  apply (dict_ext hkey_eq_dec); [now rewrite Hk | exact Hn |].
  intros k _. symmetry.
  exact (replay_entry (P k) _ _ _ _ (Hp k) (H1 k) (HB k) (Hrel k)).
Qed.

Lemma replay_reading_aqi (P : hkey -> record -> record) (dA dB dA3 dB3 : reading)
    (r : record) :
  let d1 := dict_set hkey_eq_dec dA3 (HStr ATTR_AQI) r in
  NoDup (keys dA3) -> keys dB3 = keys d1 ->
  (forall k e, P k (P k e) = P k e) ->
  (forall k, dict_get hkey_eq_dec dA3 k = option_map (P k) (dict_get hkey_eq_dec dA k)) ->
  (forall k, dict_get hkey_eq_dec dB3 k = option_map (P k) (dict_get hkey_eq_dec dB k)) ->
  (forall k, k <> HStr ATTR_AQI ->
             dict_get hkey_eq_dec dB k = dict_get hkey_eq_dec dA k
             \/ dict_get hkey_eq_dec dB k = dict_get hkey_eq_dec d1 k) ->
  dict_set hkey_eq_dec dB3 (HStr ATTR_AQI) r = d1.
Proof.
  intros d1 Hn Hk Hp H3 HB Hrel. symmetry.
  assert (Hin : In (HStr ATTR_AQI) (keys dB3)).
  { rewrite Hk. unfold d1. apply in_keys_set. now right. }
  apply (dict_ext hkey_eq_dec).
  - now rewrite (keys_set_present hkey_eq_dec dB3 _ r Hin).
  - unfold d1. now apply nodup_keys_set.
  - intros k _. destruct (hkey_eq_dec k (HStr ATTR_AQI)) as [->|N].
    + unfold d1. now rewrite !dict_get_set_same.
    + rewrite (dict_get_set_other hkey_eq_dec dB3 _ _ r N). symmetry.
      apply (replay_entry (P k) (dict_get hkey_eq_dec dA k)
               (dict_get hkey_eq_dec dB k)); try auto.
      * unfold d1. rewrite dict_get_set_other by exact N. apply H3.
Qed.

(** A loop that stores in another field than the id leaves the id under
    every key as it is. *)
Lemma steps_same_id (field : string) (plan : hkey -> option record -> step * list url)
    (ks : list hkey) (s : Gios) :
  field <> ATTR_ID ->
  match effect (steps field plan ks) s with
  | (Return, _) => True
  | (_, s') =>
      forall k, same_id (dict_get hkey_eq_dec (_data s) k)
                        (dict_get hkey_eq_dec (_data s') k)
  end.
Proof.
  intros Hf. revert s. induction ks as [|k0 ks IH]; intros s.
  { intros k. apply same_id_refl. }
  rewrite steps_cons_effect, run_step_effect.
  destruct (fst (plan k0 (dict_get hkey_eq_dec (_data s) k0))) as [|v| |e];
    [apply IH| |exact I|intros k; apply same_id_refl].
  destruct (dict_get hkey_eq_dec (_data s) k0) as [entry|] eqn:Ek;
    [|intros k; apply same_id_refl].
  specialize (IH (set_data (dict_set hkey_eq_dec (_data s) k0
                              (dict_set string_dec entry field v)) s)).
  assert (Step : forall k,
             same_id (dict_get hkey_eq_dec (_data s) k)
                     (dict_get hkey_eq_dec
                        (dict_set hkey_eq_dec (_data s) k0
                           (dict_set string_dec entry field v)) k)).
  { intros k. destruct (hkey_eq_dec k k0) as [->|N].
    - rewrite dict_get_set_same, Ek. cbn. symmetry.
      apply dict_get_set_other. congruence.
    - rewrite dict_get_set_other by exact N. apply same_id_refl. }
  destruct (effect (steps field plan ks) _) as [[[]| |e] s']; [|exact I|];
    intros k; (eapply same_id_trans; [apply Step | apply IH]).
Qed.

Lemma set_data_base (d : reading) (s s0 : Gios) :
  s = set_data (_data s) s0 -> set_data d s = set_data d s0.
Proof. intros ->. reflexivity. Qed.

Section Replay.
Variable session : url -> reply.

Lemma finish_same_id (sA s1 : Gios) (c : completion unit) :
  effect (finish session) sA = (c, s1) -> c <> Return ->
  forall k, is_aqi k = false ->
    same_id (dict_get hkey_eq_dec (_data sA) k) (dict_get hkey_eq_dec (_data s1) k).
Proof.
  intros H Hc k Hk. rewrite finish_effect in H.
  assert (Na : k <> HStr ATTR_AQI) by (intros ->; discriminate).
  pose proof (steps_same_id ATTR_VALUE (value_plan session) (keys (_data sA)) sA) as S1.
  destruct (effect (steps ATTR_VALUE (value_plan session) (keys (_data sA))) sA)
    as [[[]| |e] sA2]; [|congruence|injection H as _ <-; now apply S1].
  specialize (S1 ltac:(discriminate) k).
  destruct (fetched session (URL_INDEXES (station_id sA2))) as [indexes|e];
    [|injection H as _ <-; exact S1].
  pose proof (steps_same_id ATTR_INDEX (index_plan indexes) (keys (_data sA2)) sA2) as S2.
  destruct (effect (steps ATTR_INDEX (index_plan indexes) (keys (_data sA2))) sA2)
    as [[[]| |e] sA3]; [|congruence|].
  - specialize (S2 ltac:(discriminate) k).
    destruct (overall indexes) as [value|e]; [|destruct (caught_104 e); [congruence|]];
      injection H as _ <-; cbn [_data set_data];
      rewrite dict_get_set_other by exact Na;
      eapply same_id_trans; eassumption.
  - specialize (S2 ltac:(discriminate) k).
    destruct (caught_104 e); [congruence|]. injection H as _ <-.
    eapply same_id_trans; eassumption.
Qed.

(** Lines 70-107, run again on a reading with the keys of the one they
    left, where each record is the one they found or the one they left:
    they end as before and leave what they left before. *)
Lemma finish_replay (sA s1 sB : Gios) (c : completion unit) :
  NoDup (keys (_data sA)) ->
  effect (finish session) sA = (c, s1) ->
  c <> Return ->
  sB = set_data (_data sB) s1 ->
  keys (_data sB) = keys (_data s1) ->
  (forall k, dict_get hkey_eq_dec (_data sB) k = dict_get hkey_eq_dec (_data sA) k
             \/ dict_get hkey_eq_dec (_data sB) k = dict_get hkey_eq_dec (_data s1) k) ->
  effect (finish session) sB = (c, s1).
Proof.
  intros Hn H Hc HsB Hk Hrel.
  pose proof (finish_same_id sA s1 c H Hc) as Hid.
  pose proof (finish_keys session sA) as FK. rewrite H in FK. destruct FK as [S1 _].
  assert (Same : forall k, In k (keys (_data sA)) -> is_aqi k = false ->
             same_id (dict_get hkey_eq_dec (_data sA) k)
                     (dict_get hkey_eq_dec (_data sB) k)).
  { intros k _ Ha. destruct (Hrel k) as [E|E]; rewrite E;
      [apply same_id_refl | now apply Hid]. }
  assert (Fields : forall dX dY sX sY,
             sX = set_data dX sA -> sY = set_data dY sB -> dX = dY -> sY = sX).
  { intros dX dY sX sY -> -> ->. rewrite HsB, S1. reflexivity. }
  assert (Ks : forall field plan, skips_aqi plan ->
             (keys (_data s1) = keys (_data sA)
              \/ keys (_data s1)
                 = keys (dict_set hkey_eq_dec (_data sA) (HStr ATTR_AQI) [])) ->
             forall s, effect (steps field plan (keys (_data s1))) s
                       = effect (steps field plan (keys (_data sA))) s).
  { intros field plan Hs [E|E] s; rewrite E; [reflexivity|].
    rewrite keys_set.
    destruct (in_dec hkey_eq_dec (HStr ATTR_AQI) (keys (_data sA)));
      [reflexivity | now apply steps_snoc_aqi]. }
  rewrite finish_effect in H. rewrite finish_effect, Hk.
  destruct (steps_sim ATTR_VALUE (value_plan session)
              (value_plan_by_id session) (value_plan_skips session)
              (keys (_data sA)) Hn sA sB Same) as (pV & _ & PVa & HV).
  pose proof (steps_shape ATTR_VALUE (value_plan session) (keys (_data sA)) sA) as ShA.
  pose proof (steps_shape ATTR_VALUE (value_plan session) (keys (_data sA)) sB) as ShB.
  destruct (effect (steps ATTR_VALUE (value_plan session) (keys (_data sA))) sA)
    as [cVA sA2] eqn:EA.
  destruct (effect (steps ATTR_VALUE (value_plan session) (keys (_data sA))) sB)
    as [cVB sB2] eqn:EB.
  destruct HV as [<- HV].
  assert (StopV : s1 = sA2 -> cVA <> Return ->
                  keys (_data s1) = keys (_data sA) -> sB2 = s1).
  { intros -> Nr K1.
    destruct HV as [HV|[HA HB]]; [contradiction|].
    assert (KA : sA2 = set_data (_data sA2) sA /\ keys (_data sA2) = keys (_data sA))
      by (destruct cVA; tauto).
    assert (KB : sB2 = set_data (_data sB2) sB /\ keys (_data sB2) = keys (_data sB))
      by (destruct cVA; tauto).
    apply (Fields (_data sA2) (_data sB2)); [apply KA | apply KB |]. symmetry.
    apply (replay_reading (fun k => patched ATTR_VALUE (pV k)) (_data sA) (_data sB)).
    - rewrite (proj2 KA). exact Hn.
    - rewrite (proj2 KB). exact Hk.
    - intros k e. apply patched_twice.
    - exact HA.
    - exact HB.
    - exact Hrel. }
  destruct cVA as [[]| |e].
  2:{ congruence. }
  2:{ injection H as <- <-.
      assert (K1 : keys (_data sA2) = keys (_data sA)) by apply ShA.
      rewrite (Ks _ _ (value_plan_skips session) (or_introl K1)), EB.
      now rewrite (StopV eq_refl ltac:(discriminate) K1). }
  destruct ShA as [ShA KA], ShB as [ShB KB].
  destruct HV as [HV|[HA HB]]; [discriminate|].
  assert (IdA : station_id sA2 = station_id sA) by now rewrite ShA.
  assert (IdB : station_id sB2 = station_id sA) by (rewrite ShB, HsB, S1; reflexivity).
  rewrite IdA in H.
  destruct (fetched session (URL_INDEXES (station_id sA))) as [indexes|e] eqn:Ef.
  2:{ injection H as <- <-.
      rewrite (Ks _ _ (value_plan_skips session) (or_introl KA)), EB, IdB, Ef.
      now rewrite (StopV eq_refl ltac:(discriminate) KA). }
  assert (Same2 : forall k, In k (keys (_data sA2)) -> is_aqi k = false ->
             same_id (dict_get hkey_eq_dec (_data sA2) k)
                     (dict_get hkey_eq_dec (_data sB2) k)).
  { intros k Hin Ha. rewrite HA, HB. apply same_id_patched; [discriminate|].
    apply Same; [now rewrite <- KA | exact Ha]. }
  assert (Hn2 : NoDup (keys (_data sA2))) by now rewrite KA.
  destruct (steps_sim ATTR_INDEX (index_plan indexes)
              (index_plan_by_id indexes) (index_plan_skips indexes)
              (keys (_data sA2)) Hn2 sA2 sB2 Same2) as (pI & _ & PIa & HI).
  pose proof (steps_shape ATTR_INDEX (index_plan indexes) (keys (_data sA2)) sA2) as Sh3A.
  pose proof (steps_shape ATTR_INDEX (index_plan indexes) (keys (_data sA2)) sB2) as Sh3B.
  destruct (effect (steps ATTR_INDEX (index_plan indexes) (keys (_data sA2))) sA2)
    as [cIA sA3] eqn:E3A.
  destruct (effect (steps ATTR_INDEX (index_plan indexes) (keys (_data sA2))) sB2)
    as [cIB sB3] eqn:E3B.
  destruct HI as [<- HI].
  assert (Pair : forall k e,
             patched ATTR_INDEX (pI k) (patched ATTR_VALUE (pV k)
               (patched ATTR_INDEX (pI k) (patched ATTR_VALUE (pV k) e)))
             = patched ATTR_INDEX (pI k) (patched ATTR_VALUE (pV k) e))
    by (intros k e; apply patched_pair_twice).
  assert (Both : cIA <> Return ->
             (forall k, dict_get hkey_eq_dec (_data sA3) k
                        = option_map (fun e => patched ATTR_INDEX (pI k)
                                                 (patched ATTR_VALUE (pV k) e))
                            (dict_get hkey_eq_dec (_data sA) k))
             /\ (forall k, dict_get hkey_eq_dec (_data sB3) k
                           = option_map (fun e => patched ATTR_INDEX (pI k)
                                                    (patched ATTR_VALUE (pV k) e))
                               (dict_get hkey_eq_dec (_data sB) k))).
  { intros Nr. destruct HI as [HI|[H3A H3B]]; [contradiction|].
    split; intros k; [rewrite H3A, HA | rewrite H3B, HB];
      now destruct (dict_get hkey_eq_dec _ k). }
  assert (K3A : cIA <> Return ->
                sA3 = set_data (_data sA3) sA2 /\ keys (_data sA3) = keys (_data sA2))
    by (destruct cIA; tauto).
  assert (K3B : cIA <> Return ->
                sB3 = set_data (_data sB3) sB2 /\ keys (_data sB3) = keys (_data sB2))
    by (destruct cIA; tauto).
  assert (LoopI : keys (_data s1) = keys (_data sA)
                  \/ keys (_data s1)
                     = keys (dict_set hkey_eq_dec (_data sA) (HStr ATTR_AQI) []) ->
                  effect (steps ATTR_INDEX (index_plan indexes) (keys (_data sB2))) sB2
                  = (cIA, sB3)).
  { intros K. rewrite KB, Hk, (Ks _ _ (index_plan_skips indexes) K), <- KA.
    exact E3B. }
  rewrite (Ks _ _ (value_plan_skips session)), EB, IdB, Ef.
  2:{ destruct cIA as [[]| |e].
      - destruct (K3A ltac:(discriminate)) as [_ K3].
        destruct (overall indexes) as [value|e];
          [|destruct (caught_104 e); [congruence|]];
          injection H as _ <-; cbn [_data set_data]; right;
          apply keys_set_any; now rewrite K3, KA.
      - congruence.
      - destruct (caught_104 e); [congruence|]. injection H as _ <-.
        left. destruct (K3A ltac:(discriminate)) as [_ K3]. now rewrite K3, KA. }
  destruct cIA as [[]| |e].
  - destruct (K3A ltac:(discriminate)) as [F3A K3], (K3B ltac:(discriminate)) as [F3B K3'].
    destruct (Both ltac:(discriminate)) as [B3A B3B].
    assert (Fin : forall r, s1 = set_data (dict_set hkey_eq_dec (_data sA3)
                                             (HStr ATTR_AQI) r) sA3 ->
              set_data (dict_set hkey_eq_dec (_data sB3) (HStr ATTR_AQI) r) sB3 = s1).
    { intros r E.
      apply (Fields (dict_set hkey_eq_dec (_data sA3) (HStr ATTR_AQI) r)
               (dict_set hkey_eq_dec (_data sB3) (HStr ATTR_AQI) r)).
      - rewrite E, (set_data_base _ _ _ F3A). now apply set_data_base.
      - rewrite (set_data_base _ _ _ F3B). now apply set_data_base.
      - symmetry.
        apply (replay_reading_aqi
                 (fun k e => patched ATTR_INDEX (pI k) (patched ATTR_VALUE (pV k) e))
                 (_data sA) (_data sB)).
        + now rewrite K3, KA.
        + rewrite K3', KB, Hk, E. reflexivity.
        + exact Pair.
        + exact B3A.
        + exact B3B.
        + intros k _. rewrite E in Hrel. exact (Hrel k). }
    assert (K1 : forall r, s1 = set_data (dict_set hkey_eq_dec (_data sA3)
                                            (HStr ATTR_AQI) r) sA3 ->
              keys (_data s1) = keys (_data sA)
              \/ keys (_data s1)
                 = keys (dict_set hkey_eq_dec (_data sA) (HStr ATTR_AQI) [])).
    { intros r ->. right. cbn [_data set_data]. apply keys_set_any.
      now rewrite K3, KA. }
    destruct (overall indexes) as [value|e];
      [|destruct (caught_104 e); [congruence|]];
      injection H as <- H; symmetry in H;
      rewrite (LoopI (K1 _ H)); now rewrite (Fin _ H).
  - congruence.
  - destruct (caught_104 e) eqn:Ec; [congruence|]. injection H as <- <-.
    destruct (K3A ltac:(discriminate)) as [F3A K3], (K3B ltac:(discriminate)) as [F3B K3'].
    destruct (Both ltac:(discriminate)) as [B3A B3B].
    assert (K1 : keys (_data sA3) = keys (_data sA)) by now rewrite K3, KA.
    rewrite (LoopI (or_introl K1)), Ec. f_equal.
    apply (Fields (_data sA3) (_data sB3)).
    + rewrite (set_data_data sA3) at 1.
      rewrite (set_data_base _ _ _ F3A). now apply set_data_base.
    + rewrite (set_data_data sB3) at 1.
      rewrite (set_data_base _ _ _ F3B). now apply set_data_base.
    + symmetry.
      apply (replay_reading
               (fun k e => patched ATTR_INDEX (pI k) (patched ATTR_VALUE (pV k) e))
               (_data sA) (_data sB)).
      * now rewrite K1.
      * now rewrite K3', KB.
      * exact Pair.
      * exact B3A.
      * exact B3B.
      * exact Hrel.
Qed.
End Replay.

(** ** Lines 59-107 a second time *)

Lemma insert_all_idem (kvs : list (hkey * record)) (d : reading) :
  NoDup (keys d) -> insert_all kvs (insert_all kvs d) = insert_all kvs d.
Proof.
  intros Hn.
  assert (Hin : forall k, In k (map fst kvs) -> In k (keys (insert_all kvs d)))
    by (intros k Hk; apply in_keys_insert_all; now right).
  apply (dict_ext hkey_eq_dec).
  - now apply keys_insert_all_present.
  - now do 2 apply nodup_insert_all.
  - intros k _. rewrite !dict_get_insert_all.
    now destruct (dict_get hkey_eq_dec (rev kvs) k).
Qed.

Section ReplayAssemble.
Variable session : url -> reply.

(** Lines 59-107, run again from the object they left, end as before and
    leave it as it is, unless the first run cleared a reading that was not
    empty. *)
Lemma assemble_replay (s s1 : Gios) (c : completion unit) :
  NoDup (keys (_data s)) ->
  effect (assemble session) s = (c, s1) ->
  (_data s1 = [] -> _data s = []) ->
  effect (assemble session) s1 = (c, s1).
Proof.
  intros Hn H Hclr.
  destruct (_data s) as [|kv d0] eqn:Hd.
  { pose proof (assemble_again session s Hd) as A. now rewrite H in A. }
  assert (Ne : _data s1 <> []) by (intros E; now specialize (Hclr E)).
  rewrite <- Hd in *. clear Hclr.
  pose proof (keeps_assemble session s) as K. unfold effect in H.
  destruct (assemble session s) as [[c' s'] l'] eqn:EA. cbn [fst] in H.
  injection H as -> ->. destruct K as [K _].
  assert (Hi : station_id s1 = station_id s) by now rewrite K.
  pose proof (assemble_effect session s) as E. unfold effect in E at 1.
  rewrite EA in E. cbn [fst] in E.
  rewrite assemble_effect, Hi.
  destruct (fetched session (URL_STATION (station_id s))) as [station_data|e];
    [|now injection E as -> ->].
  destruct (truthy station_data); cbn [negb] in E |- *;
    [|injection E as _ ->; now destruct Ne].
  destruct (iter station_data) as [items|e]; [|now injection E as -> ->].
  cbv zeta in E |- *.
  destruct (snd (entries items)) as [e|].
  - injection E as -> E. clear K Hi Ne. subst s1. f_equal. unfold set_data.
    cbn [_data station_id latitude longitude station_name].
    now rewrite insert_all_idem by exact Hn.
  - set (sA := set_data (insert_all (fst (entries items)) (_data s)) s) in *.
    symmetry in E.
    assert (HnA : NoDup (keys (_data sA))) by now apply nodup_insert_all.
    pose proof (finish_keys session sA) as FK. rewrite E in FK.
    destruct FK as [_ FK].
    assert (Sub : forall k, In k (keys (_data sA)) -> In k (keys (_data s1))).
    { intros k Hk. destruct FK as [F|[F|F]]; [contradiction| |]; rewrite F;
        [exact Hk | apply in_keys_set; now left]. }
    apply (finish_replay session sA); try assumption.
    + intros ->. pose proof (finish_cases session sA) as C. rewrite E in C.
      rewrite C in Ne. now destruct Ne.
    + reflexivity.
    + cbn [_data set_data]. apply keys_insert_all_present.
      intros k Hk. apply Sub. unfold sA. cbn [_data set_data].
      apply in_keys_insert_all. now right.
    + intros k. unfold sA. cbn [_data set_data]. rewrite !dict_get_insert_all.
      destruct (dict_get hkey_eq_dec (rev (fst (entries items))) k); [now left|].
      now right.
Qed.
End ReplayAssemble.

(** ** Lines 40-57 a second time *)

Lemma overridden_none (s : Gios) : overridden None None None s = s.
Proof. now destruct s. Qed.

Lemma overridden_twice (a b n : option json) (s : Gios) :
  overridden a b n (overridden a b n s) = overridden a b n s.
Proof. now destruct a, b, n. Qed.

(** The loop of lines 46-50 ends the same way from every object with the
    same station id, and assigns the same fields the same values. *)
Lemma for_stations_overrides (items : list json) (id : json) :
  exists c a b n,
    forall t, station_id t = id ->
      effect (for_stations items) t = (c, overridden a b n t).
Proof.
  induction items as [|st rest (c & a & b & n & IH)].
  { exists (Normal tt), None, None, None. intros t _.
    now rewrite overridden_none. }
  assert (Stop : forall e a' b',
             (forall t, station_id t = id ->
                effect (for_stations (st :: rest)) t
                = (Raise e, overridden a' b' None t)) ->
             exists c a b n,
               forall t, station_id t = id ->
                 effect (for_stations (st :: rest)) t = (c, overridden a b n t)).
  { intros e a' b' H. now exists (Raise e), a', b', None. }
  destruct (getitem st ATTR_ID) as [v|e] eqn:E0.
  2:{ apply (Stop e None None). intros t _.
      now rewrite for_stations_cons_effect, E0, overridden_none. }
  destruct (py_eq v id) eqn:Em.
  2:{ exists c, a, b, n. intros t Ht.
      rewrite for_stations_cons_effect, E0, Ht, Em. now apply IH. }
  destruct (getitem st "gegrLat") as [lat|e] eqn:E1.
  2:{ apply (Stop e None None). intros t Ht.
      now rewrite for_stations_cons_effect, E0, Ht, Em, E1, overridden_none. }
  destruct (getitem st "gegrLon") as [lon|e] eqn:E2.
  2:{ apply (Stop e (Some lat) None). intros t Ht.
      rewrite for_stations_cons_effect, E0, Ht, Em, E1, E2. now destruct t. }
  destruct (getitem st "stationName") as [name|e] eqn:E3.
  2:{ apply (Stop e (Some lat) (Some lon)). intros t Ht.
      rewrite for_stations_cons_effect, E0, Ht, Em, E1, E2, E3. now destruct t. }
  exists c,
    (match a with Some x => Some x | None => Some lat end),
    (match b with Some x => Some x | None => Some lon end),
    (match n with Some x => Some x | None => Some name end).
  intros t Ht. rewrite for_stations_cons_effect, E0, Ht, Em, E1, E2, E3.
  rewrite IH by (now destruct t). now destruct a, b, n, t.
Qed.

Lemma for_stations_replay (items : list json) (s s' : Gios) (c : completion unit) :
  effect (for_stations items) s = (c, s') ->
  effect (for_stations items) s' = (c, s').
Proof.
  destruct (for_stations_overrides items (station_id s)) as (c0 & a & b & n & H).
  rewrite (H s eq_refl). intros [= <- <-].
  rewrite H by (now destruct a, b, n). now rewrite overridden_twice.
Qed.

Section ReplayResolve.
Variable session : url -> reply.

(** Lines 40-57, run again from the object they left without a name
    cached, end as before and leave it as it is. *)
Lemma resolve_replay (s s' : Gios) (c : completion unit) :
  effect (resolve session) s = (c, s') ->
  truthy (station_name s') = false ->
  effect (resolve session) s' = (c, s').
Proof.
  rewrite resolve_effect. intros H Hn'. rewrite resolve_effect, Hn'.
  destruct (truthy (station_name s)) eqn:Hn.
  { injection H as _ <-. congruence. }
  destruct (fetched session URL_STATIONS) as [stations|e];
    [|now injection H as -> _].
  destruct (truthy stations); cbn [negb] in H |- *; [|now injection H as -> _].
  destruct (iter stations) as [items|e]; [|now injection H as -> _].
  destruct (effect (for_stations items) s) as [cF sF] eqn:EF.
  assert (s' = sF).
  { destruct cF as [[]| |e]; [|now injection H|now injection H].
    destruct (truthy (station_name sF)); now injection H. }
  subst sF. rewrite (for_stations_replay items s s' cF EF).
  destruct cF as [[]| |e]; [|exact H|exact H].
  now rewrite Hn' in H |- *.
Qed.
End ReplayResolve.


